(** * pymatgen.io.abinitio.workflows: workflows, flows and callbacks

    A shallow embedding of the scheduling core of [workflows.py]:
    [BaseWorkflow], [Workflow], [IterativeWorkflow], [AbinitFlow] and
    [Callback].  Python objects live in a heap indexed by references, so
    that a task reached through a workflow and through a dependency edge
    is one object.  Exceptions are values of [result]. *)

From stdpp Require Import gmap strings list fin_maps pretty.
From Stdlib Require Import ZArith Lia Ascii.

Open Scope Z_scope.

(** ** Python exceptions and results *)

Inductive Exc :=
  | StopIteration
  | ValueError
  | NameError
  | AttributeError
  | AssertionError
  | KeyError
  | TypeError
  | IndexError
  | PyException (msg : string)
  | UserError (code : nat).

Inductive result (A : Type) :=
  | Ret (a : A)
  | Raise (e : Exc).
Arguments Ret {A} a.
Arguments Raise {A} e.

Global Instance result_ret : MRet result := fun A a => Ret a.
Global Instance result_bind : MBind result := fun A B k r =>
  match r with
  | Ret a => k a
  | Raise e => Raise e
  end.

Definition is_raise {A} (r : result A) : bool :=
  match r with Ret _ => false | Raise _ => true end.

(** ** Node status *)

Module Node.

(** Modelled from the spec: the status enumeration of [Node] is declared
    in tasks.py; section 4.1 of the specification gives its members and
    their total order, which is all the workflow code relies on. *)
Inductive Status :=
  | S_INIT | S_LOCKED | S_READY | S_SUB | S_RUN
  | S_DONE | S_ERROR | S_UNCONVERGED | S_OK.

Definition rank (s : Status) : Z :=
  match s with
  | S_INIT => 0 | S_LOCKED => 1 | S_READY => 2 | S_SUB => 3 | S_RUN => 4
  | S_DONE => 5 | S_ERROR => 6 | S_UNCONVERGED => 7 | S_OK => 8
  end.

Definition eqb (a b : Status) : bool := rank a =? rank b.
Definition leb (a b : Status) : bool := rank a <=? rank b.
Definition ltb (a b : Status) : bool := rank a <? rank b.

End Node.
Export Node.

Global Instance Status_eq_dec : EqDecision Status.
Proof. solve_decision. Defined.

(** ** Heap objects *)

(** A reference to a node (a task or a workflow) in the heap. *)
Abbreviation ref := nat (only parsing).

(** [Dependency(node, exts)]: an edge to an upstream node. *)
Record Dependency := mkDependency {
  dep_node : ref;
  dep_exts : list string
}.

Global Instance Dependency_eq_dec : EqDecision Dependency.
Proof. solve_decision. Defined.

(** The attributes of a task that the workflow code reads or writes.
    [workdir] and [manager] are attributes that may be absent
    ([hasattr] is false), hence options. *)
Record Task := mkTask {
  t_node_id : nat;
  t_status : Status;
  t_deps : list Dependency;
  t_tot_ncpus : Z;
  t_workdir : option string;
  t_manager : option nat
}.

Global Instance Task_eq_dec : EqDecision Task.
Proof. solve_decision. Defined.

Definition with_status (s : Status) (t : Task) : Task :=
  mkTask (t_node_id t) s (t_deps t) (t_tot_ncpus t) (t_workdir t) (t_manager t).

Definition with_deps (ds : list Dependency) (t : Task) : Task :=
  mkTask (t_node_id t) (t_status t) ds (t_tot_ncpus t) (t_workdir t) (t_manager t).

(** The task heap. *)
Abbreviation Heap := (gmap nat Task) (only parsing).

(** [node.status] of the node behind a reference. *)
Definition node_status (h : Heap) (r : ref) : Status :=
  from_option t_status S_INIT (h !! r).

(** The attributes of a [Workflow] object.  [_tasks] holds references, in
    registration order. *)
Record Workflow := mkWorkflow {
  w_node_id : nat;
  _tasks : list ref;
  _finalized : option bool;
  workdir : option string;
  indir : option string;
  outdir : option string;
  tmpdir : option string;
  manager : option nat;
  w_deps : list Dependency;
  history : list string
}.

Global Instance Workflow_eq_dec : EqDecision Workflow.
Proof. solve_decision. Defined.

(** [for task in self]: the task objects of a workflow, read from the heap. *)
Definition tasks_of (h : Heap) (w : Workflow) : list Task :=
  omap (fun r => h !! r) (_tasks w).

(** Python's [all(...)] over a list of truth values. *)
Definition all (bs : list bool) : bool := forallb id bs.

(** Python's [sum(...)] over integers. *)
Definition sum (zs : list Z) : Z := fold_left Z.add zs 0.

(** ** The environment: [os.path], the file system, the signal bus *)

Module OsPath.

Definition startswith_slash (s : string) : bool :=
  match s with
  | String c _ => bool_decide (c = "/"%char)
  | EmptyString => false
  end.

Fixpoint endswith_slash (s : string) : bool :=
  match s with
  | EmptyString => false
  | String c EmptyString => bool_decide (c = "/"%char)
  | String _ s' => endswith_slash s'
  end.

(** [os.path.join(a, b)] of posixpath. *)
Definition join (a b : string) : string :=
  if startswith_slash b then b
  else if bool_decide (a = "") || endswith_slash a then a +:+ b
  else a +:+ "/" +:+ b.

(** [os.path.abspath] depends on the current directory of the process;
    the one law the workflow code leans on is that it is idempotent. *)
Class Abspath := {
  abspath : string -> string;
  abspath_idem : forall p, abspath (abspath p) = abspath p
}.

(** An instance for a process whose current directory is the root, on
    paths without [.] and [..] components. *)
Definition abspath_root (p : string) : string :=
  if startswith_slash p then p else "/" +:+ p.

End OsPath.
Export OsPath.

(** Everything observable that the code does besides updating objects. *)
Inductive Event :=
  | Published (signal : Status) (sender : nat)  (* dispatcher.send *)
  | Logged (msg : string)                       (* logger.warning, logger.debug *)
  | Started (r : ref)                           (* task.start() *)
  | Waited (r : ref)                            (* task.wait() *)
  | Invoked (func : nat) (work : nat).          (* a callback's function is called *)

Global Instance Event_eq_dec : EqDecision Event.
Proof. solve_decision. Defined.

Record World := mkWorld {
  heap : gmap nat Task;
  fs : gmap string string;
  trace : list Event
}.

Definition set_heap (h : gmap nat Task) (st : World) : World :=
  mkWorld h (fs st) (trace st).
Definition set_fs (f : gmap string string) (st : World) : World :=
  mkWorld (heap st) f (trace st).
Definition emit (e : Event) (st : World) : World :=
  mkWorld (heap st) (fs st) (trace st ++ [e]).

(** Operations on an open file, as the file system sees them. *)
Inductive FsOp :=
  | Open_w (path : string)                (* open(path, "w" or "wb") *)
  | Write (path : string) (data : string)
  | Close (path : string).

Definition fs_step (f : gmap string string) (op : FsOp) : gmap string string :=
  match op with
  | Open_w p => <[p := ""]> f
  | Write p d => alter (fun c => c +:+ d) p f
  | Close _ => f
  end.

Definition fs_run (ops : list FsOp) (f : gmap string string) : gmap string string :=
  foldl fs_step f ops.

(** ** The interface of [Task] (tasks.py) that workflows call *)

Class TaskApi := {
  (** [task_class(obj, task_workdir, manager)] *)
  Task_new : nat -> option string -> option nat -> Task;
  (** [task.check_status()]: consults the external runner *)
  Task_check_status : ref -> gmap nat Task -> gmap nat Task;
  Task_start : ref -> gmap nat Task -> gmap nat Task;
  Task_wait : ref -> gmap nat Task -> gmap nat Task
}.

Module TaskModel.

(** Modelled from the spec: [Dependency.status] and [Task.deps_status]
    (tasks.py) give the status of the upstream node of each edge. *)
Definition deps_status (h : Heap) (t : Task) : list Status :=
  map (fun d => node_status h (dep_node d)) (t_deps t).

Definition deps_all_ok (h : Heap) (t : Task) : bool :=
  all (map (fun status => eqb status S_OK) (deps_status h t)).

(** Modelled from the spec: [Task.set_status] (tasks.py); section 4.1:
    the task "transitions" to the given status. *)
Definition set_status (s : Status) (r : ref) (h : Heap) : Heap :=
  alter (with_status s) r h.

(** Modelled from the spec: [Task.set_manager] and [Task.set_workdir]
    (tasks.py); section 4.2: [allocate] "assigns" the workflow's manager
    and the canonical per-task workdir to the task. *)
Definition set_manager (m : nat) (t : Task) : Task :=
  mkTask (t_node_id t) (t_status t) (t_deps t) (t_tot_ncpus t) (t_workdir t)
         (Some m).

Definition set_task_workdir (wd : string) (t : Task) : Task :=
  mkTask (t_node_id t) (t_status t) (t_deps t) (t_tot_ncpus t) (Some wd)
         (t_manager t).

(** Modelled from the spec: [Task.is_completed] (tasks.py); section 4.2:
    AllDone is raised "if every task has reached a terminal state >=
    S_DONE with all at S_OK". *)
Definition is_completed (t : Task) : bool :=
  leb S_DONE (t_status t) && eqb (t_status t) S_OK.

(** Modelled from the spec: [Task.can_run] (tasks.py); section 4.2: a
    task "with status == S_READY and all deps at S_OK". *)
Definition can_run (h : Heap) (t : Task) : bool :=
  eqb (t_status t) S_READY && deps_all_ok h t.

End TaskModel.
Export TaskModel.

(** ** [BaseWorkflow] and [Workflow] *)

(** The result dictionary of [on_ok] and [on_all_ok]. *)
Record AttrDict := mkAttrDict {
  returncode : Z;
  message : string
}.

Global Instance AttrDict_eq_dec : EqDecision AttrDict.
Proof. solve_decision. Defined.

(** The hook that subclasses of [BaseWorkflow] override.  It may change
    tasks and it may raise. *)
Class WorkflowHooks := {
  on_all_ok : Workflow -> gmap nat Task -> gmap nat Task * result AttrDict
}.

(** Serialisation by [cPickle]: the chunks handed to [fh.write]. *)
Class Pickler (A : Type) := {
  pickle_chunks : A -> gmap nat Task -> list string
}.

Module Workflow.

Definition PICKLE_FNAME : string := "__workflow__.pickle".

Definition set_finalized (b : bool) (w : Workflow) : Workflow :=
  mkWorkflow (w_node_id w) (_tasks w) (Some b) (workdir w) (indir w)
             (outdir w) (tmpdir w) (manager w) (w_deps w) (history w).

Definition append_history (s : string) (w : Workflow) : Workflow :=
  mkWorkflow (w_node_id w) (_tasks w) (_finalized w) (workdir w) (indir w)
             (outdir w) (tmpdir w) (manager w) (w_deps w) (history w ++ [s]).

Definition append_task (r : ref) (w : Workflow) : Workflow :=
  mkWorkflow (w_node_id w) (_tasks w ++ [r]) (_finalized w) (workdir w)
             (indir w) (outdir w) (tmpdir w) (manager w) (w_deps w) (history w).

Definition add_deps (ds : list Dependency) (w : Workflow) : Workflow :=
  mkWorkflow (w_node_id w) (_tasks w) (_finalized w) (workdir w)
             (indir w) (outdir w) (tmpdir w) (manager w) (w_deps w ++ ds)
             (history w).

(** [Workflow.__init__] before [set_workdir] and [set_manager]. *)
Definition init (nid : nat) : Workflow :=
  mkWorkflow nid [] None None None None None None [] [].

(** The [finalized] property: a missing [_finalized] attribute reads as
    [False]. *)
Definition finalized (w : Workflow) : bool :=
  default false (_finalized w).

(** The tasks with their references, in index order. *)
Definition items (h : Heap) (w : Workflow) : list (ref * Task) :=
  omap (fun r => pair r <$> h !! r) (_tasks w).

Definition ncpus_reserved (h : Heap) (w : Workflow) : Z :=
  foldl (fun ncpus task =>
           if eqb (t_status task) S_SUB then ncpus + t_tot_ncpus task
           else ncpus) 0 (tasks_of h w).

Definition ncpus_allocated (h : Heap) (w : Workflow) : Z :=
  foldl (fun ncpus task =>
           if existsb (eqb (t_status task)) [S_SUB; S_RUN]
           then ncpus + t_tot_ncpus task
           else ncpus) 0 (tasks_of h w).

Definition ncpus_inuse (h : Heap) (w : Workflow) : Z :=
  foldl (fun ncpus task =>
           if eqb (t_status task) S_RUN then ncpus + t_tot_ncpus task
           else ncpus) 0 (tasks_of h w).

(** Attribute lookup [work.<name>] for the CPU counters; any other name
    is not an attribute of a workflow. *)
Definition getattr_ncpus (h : Heap) (w : Workflow) (name : string) : result Z :=
  if bool_decide (name = "ncpus_reserved") then Ret (ncpus_reserved h w)
  else if bool_decide (name = "ncpus_allocated") then Ret (ncpus_allocated h w)
  else if bool_decide (name = "ncpus_inuse") then Ret (ncpus_inuse h w)
  else Raise AttributeError.

(** [fetch_task_to_run], over the two task properties it reads. *)
Definition fetch_task_to_run_with
    (is_completed : Task -> bool) (can_run : Heap -> Task -> bool)
    (w : Workflow) (st : World) : World * result (option ref) :=
  if all (map (fun it => is_completed it.2) (items (heap st) w))
  then (st, Raise StopIteration)
  else match list_find (fun it => can_run (heap st) it.2 = true)
                       (items (heap st) w) with
       | Some (_, (r, _)) => (st, Ret (Some r))
       | None =>
           (emit (Logged "Possible deadlock in fetch_task_to_run!") st,
            Ret None)
       end.

Definition fetch_task_to_run : Workflow -> World -> World * result (option ref) :=
  fetch_task_to_run_with is_completed can_run.

(** [Workflow.check_status]: the statuses are recomputed task by task,
    then the dependencies are taken into account. *)
Definition promote (h : Heap) (r : ref) : Heap :=
  match h !! r with
  | Some task =>
      if leb (t_status task) S_SUB && deps_all_ok h task
      then set_status S_READY r h
      else h
  | None => h
  end.

Definition check_status `{TaskApi} (w : Workflow) (h : Heap) : Heap :=
  let h1 := foldl (fun h r => Task_check_status r h) h (_tasks w) in
  foldl promote h1 (_tasks w).

Definition min_status (l : list Status) : Status :=
  foldr (fun s m => if leb s m then s else m) S_OK l.

(** The [status] property, [get_all_status(only_min=True)]. *)
Definition status `{TaskApi} (w : Workflow) (h : Heap) : Heap * Status :=
  if bool_decide (length (_tasks w) = 0%nat) then (h, S_INIT)
  else
    let h' := check_status w h in
    (h', min_status (map t_status (tasks_of h' w))).

(** [BaseWorkflow.on_ok]. *)
Definition on_ok `{TaskApi} `{WorkflowHooks}
    (sender : ref) (w : Workflow) (st : World)
  : World * Workflow * result AttrDict :=
  let all_ok :=
    all (map (fun task => eqb (t_status task) S_OK) (tasks_of (heap st) w)) in
  if all_ok then
    if finalized w then
      (st, w, Ret (mkAttrDict 0 "Workflow has been already finalized"))
    else
      match on_all_ok w (heap st) with
      | (h1, Raise e) => (set_heap h1 st, w, Raise e)
      | (h1, Ret results) =>
          let w1 := set_finalized true w in
          let '(h2, _) := status w1 h1 in
          let st1 := emit (Published S_OK (w_node_id w1)) (set_heap h2 st) in
          let w2 := append_history "Finalized" w1 in
          (st1, w2, Ret results)
      end
  else (st, w, Ret (mkAttrDict 1 "Not all tasks are OK!")).

(** The hook of the base class. *)
Definition base_on_all_ok (w : Workflow) (h : Heap) : Heap * result AttrDict :=
  (h, Ret (mkAttrDict 0 "Calling on_all_ok of the base class!")).

(** [pickle_dump]: the file operations it performs, in order. *)
Definition dump_ops (filepath : string) (chunks : list string) : list FsOp :=
  Open_w filepath :: map (Write filepath) chunks ++ [Close filepath].

Definition pickle_dump_interrupted `{Pickler Workflow} (k : option nat)
    (w : Workflow) (st : World) : World * result unit :=
  match workdir w with
  | None => (st, Raise AttributeError)
  | Some wd =>
      let filepath := join wd PICKLE_FNAME in
      let ops := dump_ops filepath (pickle_chunks w (heap st)) in
      (set_fs (fs_run (from_option (fun k => take k ops) ops k) (fs st)) st,
       Ret ())
  end.

(** [BaseWorkflow.pickle_dump], run to its end. *)
Definition pickle_dump `{Pickler Workflow} : Workflow -> World -> World * result unit :=
  pickle_dump_interrupted None.

(** [Workflow.set_workdir]. *)
Definition set_workdir `{Abspath} (wd : string) (w : Workflow) : result Workflow :=
  if match workdir w with
     | Some cur => bool_decide (cur <> wd)
     | None => false
     end
  then Raise ValueError
  else
    let p := abspath wd in
    Ret (mkWorkflow (w_node_id w) (_tasks w) (_finalized w) (Some p)
           (Some (join p "indata")) (Some (join p "outdata"))
           (Some (join p "tmpdata")) (manager w) (w_deps w) (history w)).

(** One round of the loop of [Workflow.allocate], on the task at index
    [i]: the manager, then the working directory. *)
Definition allocate_task (w : Workflow) (i : nat) (r : ref) (task : Task)
    (h : Heap) : Heap * result unit :=
  match (match t_manager task with
         | Some _ => Ret task
         | None =>
             match manager w with
             | Some m => Ret (set_manager m task)
             | None => Raise AttributeError
             end
         end) with
  | Raise e => (h, Raise e)
  | Ret task1 =>
      let h1 := <[r := task1]> h in
      match workdir w with
      | None => (h1, Raise AttributeError)
      | Some wd =>
          let task_workdir := join wd ("task_" +:+ pretty i) in
          match t_workdir task1 with
          | None => (<[r := set_task_workdir task_workdir task1]> h1, Ret ())
          | Some twd =>
              if bool_decide (twd <> task_workdir)
              then (h1, Raise ValueError)
              else (h1, Ret ())
          end
      end
  end.

(** [Workflow.allocate]: the loop over [enumerate(self)]. *)
Fixpoint allocate_from (w : Workflow) (i : nat) (rs : list ref)
    (h : Heap) : Heap * result unit :=
  match rs with
  | [] => (h, Ret ())
  | r :: rs' =>
      match h !! r with
      | None => allocate_from w (S i) rs' h
      | Some task =>
          match allocate_task w i r task h with
          | (h', Ret _) => allocate_from w (S i) rs' h'
          | (h', Raise e) => (h', Raise e)
          end
      end
  end.

Definition allocate (w : Workflow) (h : Heap) : Heap * result unit :=
  allocate_from w 0 (_tasks w) h.

(** [Workflow.register]; [obj] is the strategy or the input. *)
Definition register `{TaskApi} (obj : nat) (deps : option (list Dependency))
    (mgr : option nat) (w : Workflow) (h : Heap) : Heap * Workflow * ref :=
  let task_workdir :=
    (fun wd => join wd ("task_" +:+ pretty (length (_tasks w)))) <$> workdir w in
  let task := Task_new obj task_workdir mgr in
  let task := match deps with
              | Some ds => with_deps (t_deps task ++ ds) task
              | None => task
              end in
  let r := fresh (dom h) in
  (<[r := task]> h, append_task r w, r).

End Workflow.

(** ** [IterativeWorkflow] *)

(** A Python generator of strategies: what it yields at each position, and
    the position it has reached. *)
Record Generator := mkGenerator {
  gen_yield : nat -> option nat;
  gen_pos : nat
}.

Record IterativeWorkflow := mkIterativeWorkflow {
  base : Workflow;
  strategy_generator : Generator;
  max_niter : Z;
  niter : Z
}.

(** The abstract hook [exit_iteration]; the dictionary it returns is kept
    as the truth value of each entry. *)
Class IterativeHooks := {
  exit_iteration : IterativeWorkflow -> gmap nat Task -> result (gmap string bool)
}.

Module IterativeWorkflow.

(** [next(generator)]. *)
Definition next (g : Generator) : result (nat * Generator) :=
  match gen_yield g (gen_pos g) with
  | Some s => Ret (s, mkGenerator (gen_yield g) (S (gen_pos g)))
  | None => Raise StopIteration
  end.

Definition init (nid : nat) (g : Generator) (max_niter : Z) : IterativeWorkflow :=
  mkIterativeWorkflow (Workflow.init nid) g max_niter 0.

Definition set_niter (n : Z) (iw : IterativeWorkflow) : IterativeWorkflow :=
  mkIterativeWorkflow (base iw) (strategy_generator iw) (max_niter iw) n.

Definition next_task `{TaskApi} (iw : IterativeWorkflow) (st : World)
  : World * IterativeWorkflow * result ref :=
  match next (strategy_generator iw) with
  | Raise e => (st, iw, Raise e)
  | Ret (next_strategy, g) =>
      let '(h1, w1, _) :=
        Workflow.register next_strategy None None (base iw) (heap st) in
      let iw1 := mkIterativeWorkflow w1 g (max_niter iw) (niter iw) in
      let st1 := set_heap h1 st in
      if bool_decide (Z.of_nat (length (_tasks w1)) = niter iw)
      then match last (_tasks w1) with
           | Some r => (st1, iw1, Ret r)
           | None => (st1, iw1, Raise IndexError)
           end
      else (st1, iw1, Raise AssertionError)
  end.

(** The [while True] loop of [submit_tasks], run for at most [fuel]
    iterations.  The outcome is [None] when the loop is still running
    after them, and else says how the loop was left. *)
Fixpoint submit_loop `{TaskApi} `{IterativeHooks} (fuel : nat)
    (iw : IterativeWorkflow) (st : World)
  : World * IterativeWorkflow * option (result unit) :=
  match fuel with
  | O => (st, iw, None)
  | S fuel' =>
      if (niter iw >? max_niter iw) && (max_niter iw >? 0)
      then (emit (Logged "niter > max_niter") st, iw, Some (Ret ()))
      else
        match next_task iw st with
        | (st1, iw1, Raise StopIteration) => (st1, iw1, Some (Ret ()))
        | (st1, iw1, Raise e) => (st1, iw1, Some (Raise e))
        | (st1, iw1, Ret task) =>
            let st2 := emit (Started task)
                         (set_heap (Task_start task (heap st1)) st1) in
            let st3 := emit (Waited task)
                         (set_heap (Task_wait task (heap st2)) st2) in
            match exit_iteration iw1 (heap st3) with
            | Raise e => (st3, iw1, Some (Raise e))
            | Ret data =>
                match data !! "exit" with
                | None => (st3, iw1, Some (Raise KeyError))
                | Some true => (st3, iw1, Some (Ret ()))
                | Some false =>
                    submit_loop fuel' (set_niter (niter iw1 + 1) iw1) st3
                end
            end
        end
  end.

Definition submit_tasks `{TaskApi} `{IterativeHooks} (fuel : nat)
    (iw : IterativeWorkflow) (st : World)
  : World * IterativeWorkflow * option (result unit) :=
  submit_loop fuel (set_niter 1 iw) st.

End IterativeWorkflow.

(** ** [Callback] *)

(** Python values whose truth value [can_execute] and its callers test. *)
Inductive PyVal :=
  | PyBool (b : bool)
  | PyList (l : list bool).

Definition truthy (v : PyVal) : bool :=
  match v with
  | PyBool b => b
  | PyList l => negb (bool_decide (l = []))
  end.

(** [a and b] returns [a] when [a] is false, and [b] otherwise. *)
Definition py_and (a b : PyVal) : PyVal := if truthy a then b else a.

Module Callback.

Record Callback := mkCallback {
  func : nat;                (* the identity of the user's function *)
  work : nat;                (* the workflow, by its index in the flow *)
  deps : list Dependency;
  cbk_data : nat;
  _disabled : bool
}.

Definition can_execute (h : Heap) (cbk : Callback) : PyVal :=
  py_and (PyBool (negb (_disabled cbk)))
         (PyList (map (fun dep => eqb (node_status h (dep_node dep)) S_OK)
                      (deps cbk))).

Definition disable (cbk : Callback) : Callback :=
  mkCallback (func cbk) (work cbk) (deps cbk) (cbk_data cbk) true.

Definition handle_sender (sender : ref) (cbk : Callback) : bool :=
  bool_decide (sender ∈ map dep_node (deps cbk)).

End Callback.
Export Callback.

(** The functions that users register as callbacks: given the workflows of
    the flow, the index of the callback's workflow and the callback data,
    they fill a workflow and return its index. *)
Class UserFuncs := {
  call_func : nat -> list Workflow -> nat -> nat -> gmap nat Task ->
              list Workflow * gmap nat Task * result nat
}.

(** [Callback.__call__]. *)
Definition Callback_call `{UserFuncs} (cbk : Callback) (works : list Workflow)
    (st : World) : list Workflow * World * result nat :=
  if truthy (can_execute (heap st) cbk) then
    let '(works1, h1, r) :=
      call_func (func cbk) works (work cbk) (cbk_data cbk) (heap st) in
    (works1, emit (Invoked (func cbk) (work cbk)) (set_heap h1 st), r)
  else (works, st, Raise (PyException "Cannot execute")).

(** ** Name resolution inside a function of workflows.py *)

Module Scope.

(** The names bound at the top level of workflows.py: its imports, its
    classes and functions, and the module attributes. *)
Definition module_globals : list string :=
  [ "division"; "print_function"; "sys"; "os"; "shutil"; "time"; "abc";
    "collections"; "functools"; "np"; "pickle"; "dispatcher";
    "ArrayWithUnit"; "Ha_to_eV"; "Lattice"; "Structure"; "Enum";
    "AttrDict"; "MSONable"; "json_pretty_dump"; "read_structure";
    "iterator_from_slice"; "chunks"; "monotonic"; "list_strings";
    "pprint_table"; "WildCard"; "Task"; "AbinitTask"; "Dependency";
    "Node"; "ScfTask"; "NscfTask"; "HaydockBseTask"; "Strategy"; "File";
    "Directory"; "ETSF_Reader"; "Smearing"; "AbiStructure"; "KSampling";
    "Electrons"; "Pseudo"; "ScfStrategy"; "EOS"; "AbinitTimerParser";
    "logging"; "logger"; "__author__"; "__copyright__"; "__version__";
    "__maintainer__"; "__all__"; "WorkflowError"; "BaseWorkflow";
    "Workflow"; "IterativeWorkflow"; "check_conv"; "compute_hints";
    "plot_etotal"; "PseudoConvergence"; "PseudoIterativeConvergence";
    "BandStructureWorkflow"; "RelaxationWorkflow"; "DeltaTestWorkflow";
    "GW_Workflow"; "BSEMDF_Workflow"; "WorkflowResults"; "AbinitFlow";
    "Callback"; "__name__"; "__doc__"; "__file__"; "__package__";
    "__builtins__" ].

(** The built-in names of Python 2. *)
Definition builtins : list string :=
  [ "abs"; "all"; "any"; "apply"; "basestring"; "bin"; "bool"; "buffer";
    "bytearray"; "bytes"; "callable"; "chr"; "classmethod"; "cmp";
    "coerce"; "compile"; "complex"; "delattr"; "dict"; "dir"; "divmod";
    "enumerate"; "eval"; "execfile"; "file"; "filter"; "float"; "format";
    "frozenset"; "getattr"; "globals"; "hasattr"; "hash"; "help"; "hex";
    "id"; "input"; "int"; "intern"; "isinstance"; "issubclass"; "iter";
    "len"; "list"; "locals"; "long"; "map"; "max"; "memoryview"; "min";
    "next"; "object"; "oct"; "open"; "ord"; "pow"; "print"; "property";
    "range"; "raw_input"; "reduce"; "reload"; "repr"; "reversed"; "round";
    "set"; "setattr"; "slice"; "sorted"; "staticmethod"; "str"; "sum";
    "super"; "tuple"; "type"; "unichr"; "unicode"; "vars"; "xrange";
    "zip"; "__import__"; "True"; "False"; "None"; "NotImplemented";
    "Ellipsis"; "__debug__"; "copyright"; "credits"; "license"; "exit";
    "quit"; "BaseException"; "Exception"; "StandardError";
    "ArithmeticError"; "AssertionError"; "AttributeError"; "BufferError";
    "EOFError"; "EnvironmentError"; "FloatingPointError"; "GeneratorExit";
    "IOError"; "ImportError"; "IndentationError"; "IndexError"; "KeyError";
    "KeyboardInterrupt"; "LookupError"; "MemoryError"; "NameError";
    "NotImplementedError"; "OSError"; "OverflowError"; "ReferenceError";
    "RuntimeError"; "StopIteration"; "SyntaxError"; "SystemError";
    "SystemExit"; "TabError"; "TypeError"; "UnboundLocalError";
    "UnicodeDecodeError"; "UnicodeEncodeError"; "UnicodeError";
    "UnicodeTranslateError"; "ValueError"; "ZeroDivisionError";
    "Warning"; "UserWarning"; "DeprecationWarning"; "FutureWarning";
    "ImportWarning"; "PendingDeprecationWarning"; "RuntimeWarning";
    "SyntaxWarning"; "UnicodeWarning"; "BytesWarning" ].

(** What a name can be bound to, as far as [used_ids] and
    [generate_new_nodeid] look into it. *)
Inductive PyObj :=
  | ObjSet (s : gset nat)
  | ObjList (l : list nat)
  | ObjOpaque.

Fixpoint assoc (locals : list (string * PyObj)) (name : string) : option PyObj :=
  match locals with
  | [] => None
  | (n, v) :: rest => if bool_decide (n = name) then Some v else assoc rest name
  end.

(** Local scope, then module scope, then built-ins; else [NameError]. *)
Definition resolve (locals : list (string * PyObj)) (name : string) : result PyObj :=
  match assoc locals name with
  | Some v => Ret v
  | None =>
      if bool_decide (name ∈ module_globals ++ builtins)
      then Ret ObjOpaque
      else Raise NameError
  end.

Definition len (o : PyObj) : result nat :=
  match o with
  | ObjSet s => Ret (size s)
  | ObjList l => Ret (length l)
  | ObjOpaque => Raise TypeError
  end.

End Scope.

(** ** [AbinitFlow] *)

Record AbinitFlow := mkAbinitFlow {
  flow_workdir : string;
  flow_manager : nat;
  _works : list Workflow;
  _callbacks : list Callback
}.

Module AbinitFlow.
Import Scope.

Definition PICKLE_FNAME : string := "__workflow__.pickle".

Definition set_callbacks (cbs : list Callback) (flow : AbinitFlow) : AbinitFlow :=
  mkAbinitFlow (flow_workdir flow) (flow_manager flow) (_works flow) cbs.

Definition set_works (ws : list Workflow) (flow : AbinitFlow) : AbinitFlow :=
  mkAbinitFlow (flow_workdir flow) (flow_manager flow) ws (_callbacks flow).

(** [sum(<generator>)]: the items are evaluated one after the other, and
    the first exception leaves the sum. *)
Definition sum_results (rs : list (result Z)) : result Z :=
  foldl (fun acc r => a ← acc; x ← r; mret (a + x)) (Ret 0) rs.

Definition ncpus_reserved (h : Heap) (flow : AbinitFlow) : result Z :=
  sum_results
    (map (fun work => Workflow.getattr_ncpus h work "ncpus_reverved")
         (_works flow)).

Definition ncpus_allocated (h : Heap) (flow : AbinitFlow) : result Z :=
  sum_results
    (map (fun work => Workflow.getattr_ncpus h work "ncpus_allocated")
         (_works flow)).

Definition ncpus_inuse (h : Heap) (flow : AbinitFlow) : result Z :=
  sum_results
    (map (fun work => Workflow.getattr_ncpus h work "ncpus_inuse")
         (_works flow)).

Definition collect_ids (h : Heap) (flow : AbinitFlow) : list nat :=
  flat_map (fun work => w_node_id work :: map t_node_id (tasks_of h work))
           (_works flow).

Definition used_ids (h : Heap) (flow : AbinitFlow) : result (gset nat) :=
  let ids := collect_ids h flow in
  let used_ids : gset nat := list_to_set ids in
  let locals :=
    [("self", ObjOpaque); ("ids", ObjList ids); ("used_ids", ObjSet used_ids)] in
  (* assert len(ids_set) == len(ids) *)
  n ← resolve locals "ids_set" ≫= len;
  m ← resolve locals "ids" ≫= len;
  if bool_decide (n = m) then Ret used_ids else Raise AssertionError.

(** [for nid in count(): if nid not in used_ids: return nid]; one of the
    first [size used_ids + 1] numbers is unused. *)
Definition first_unused (used_ids : gset nat) : nat :=
  default (size used_ids)
    (find (fun nid => bool_decide (nid ∉ used_ids)) (seq 0 (S (size used_ids)))).

(** [generate_new_nodeid], over the outcome of its call of [used_ids]. *)
Definition generate_new_nodeid_with (used : result (gset nat)) : result nat :=
  used_ids ← used;
  (* import itertools *)
  let locals :=
    [("self", ObjOpaque); ("used_ids", ObjSet used_ids);
     ("itertools", ObjOpaque)] in
  _ ← resolve locals "intertools";
  Ret (first_unused used_ids).

Definition generate_new_nodeid (h : Heap) (flow : AbinitFlow) : result nat :=
  generate_new_nodeid_with (used_ids h flow).

Definition pickle_path (flow : AbinitFlow) : string :=
  join (flow_workdir flow) PICKLE_FNAME.

(** The file operations of [pickle_dump], in the order they happen. *)
Definition pickle_dump_ops `{Pickler AbinitFlow} (flow : AbinitFlow)
    (h : Heap) : list FsOp :=
  Workflow.dump_ops (pickle_path flow) (pickle_chunks flow h).

Definition pickle_dump `{Pickler AbinitFlow} (flow : AbinitFlow) (st : World)
  : World :=
  set_fs (fs_run (pickle_dump_ops flow (heap st)) (fs st)) st.

(** The file system seen by a process that is interrupted after the
    first [k] file operations of [pickle_dump]. *)
Definition pickle_dump_interrupted `{Pickler AbinitFlow} (k : nat)
    (flow : AbinitFlow) (st : World) : World :=
  set_fs (fs_run (take k (pickle_dump_ops flow (heap st))) (fs st)) st.

(** The loop of [on_dep_ok] over [enumerate(self._callbacks)]: [seen] are
    the callbacks already visited, [todo] the ones still to visit. *)
Fixpoint on_dep_ok_from `{UserFuncs} `{Pickler AbinitFlow} (sender : ref)
    (seen todo : list Callback) (flow : AbinitFlow) (st : World)
  : AbinitFlow * World * result unit :=
  match todo with
  | [] => (set_callbacks seen flow, st, Ret ())
  | cbk :: todo' =>
      if negb (handle_sender sender cbk)
      then on_dep_ok_from sender (seen ++ [cbk]) todo' flow st
      else if negb (truthy (can_execute (heap st) cbk))
      then on_dep_ok_from sender (seen ++ [cbk]) todo' flow st
      else
        match Callback_call cbk (_works flow) st with
        | (works1, st1, Raise e) =>
            (set_callbacks (seen ++ cbk :: todo') (set_works works1 flow),
             st1, Raise e)
        | (works1, st1, Ret widx) =>
            let works2 := alter (Workflow.add_deps (deps cbk)) widx works1 in
            let seen' := seen ++ [disable cbk] in
            let flow' := set_works works2 flow in
            let st2 := pickle_dump (set_callbacks (seen' ++ todo') flow') st1 in
            on_dep_ok_from sender seen' todo' flow' st2
        end
  end.

Definition on_dep_ok `{UserFuncs} `{Pickler AbinitFlow} (signal : Status)
    (sender : ref) (flow : AbinitFlow) (st : World)
  : AbinitFlow * World * result unit :=
  on_dep_ok_from sender [] (_callbacks flow) flow st.

End AbinitFlow.

(** ** Convergence of a sequence: [check_conv] *)

(** The numbers [check_conv] works on, Python ints or floats, through the
    operations it applies to them. *)
Class Numbers (V : Type) := {
  (** [abs(v - vinf)] *)
  abs_diff : V -> V -> V;
  (** [abs(v - vinf) / vinf], which raises for a zero divisor *)
  rel_diff : V -> V -> result V;
  (** [a < b]; [a > b] is [b < a] *)
  num_lt : V -> V -> bool
}.

(** [l[k]] for a Python list: a negative index counts from the end. *)
Definition py_index {A} (l : list A) (k : Z) : result A :=
  let n := Z.of_nat (length l) in
  let k' := if k <? 0 then k + n else k in
  if (0 <=? k') && (k' <? n)
  then match l !! Z.to_nat k' with
       | Some x => Ret x
       | None => Raise IndexError
       end
  else Raise IndexError.

Module Convergence.

(** [for i in range(numpts-1, -1, -1): if vdiff[i] > tol: break], entered
    at index [i]: the value of [i] when the loop is left. *)
Fixpoint scan_down {V} `{Numbers V} (vdiff : list V) (tol : V) (i : nat)
  : result nat :=
  match py_index vdiff (Z.of_nat i) with
  | Raise e => Raise e
  | Ret x =>
      if num_lt tol x then Ret i
      else match i with
           | O => Ret O
           | S i' => scan_down vdiff tol i'
           end
  end.

(** The second half of [check_conv], from [numpts = len(vdiff)] to the
    [return]. *)
Definition leftmost_converged {V} `{Numbers V} (vdiff : list V) (tol : V)
    (min_numpts : Z) : result Z :=
  let numpts := Z.of_nat (length vdiff) in
  i ← (if numpts >? min_numpts then
         x ← py_index vdiff (-2);
         if num_lt x tol then
           i ← match length vdiff with
               | O => Ret (-2)
               | S n => i ← scan_down vdiff tol n; Ret (Z.of_nat i)
               end;
           Ret (if numpts - i - 1 <? min_numpts then -2 else i)
         else Ret (-2)
       else Ret (-2));
  Ret (i + 1).

Definition check_conv {V} `{Numbers V} (values : list V) (tol : V)
    (min_numpts : Z) (mode : string) (vinf : option V) : result Z :=
  vinf ← match vinf with
         | None => py_index values (-1)
         | Some v => Ret v
         end;
  vdiff ← (if bool_decide (mode = "abs")
           then Ret (map (fun v => abs_diff v vinf) values)
           else if bool_decide (mode = "rel")
           then mapM (fun v => rel_diff v vinf) values
           else Raise ValueError);
  leftmost_converged vdiff tol min_numpts.

End Convergence.

(** ** [WorkflowResults] *)

Module WorkflowResults.

(** The values kept in a results dictionary: strings, lists of strings
    and numbers. *)
Inductive Val :=
  | VStr (s : string)
  | VList (l : list string)
  | VNum (z : Z).

Definition _EXC_KEY : string := "_exceptions".

(** [__init__], on the mapping that [dict.__init__] has built. *)
Definition init (d : gmap string Val) : gmap string Val :=
  match d !! _EXC_KEY with
  | Some _ => d
  | None => <[_EXC_KEY := VList []]> d
  end.

(** The [exceptions] property, [self[self._EXC_KEY]]. *)
Definition exceptions (r : gmap string Val) : result Val :=
  match r !! _EXC_KEY with
  | Some v => Ret v
  | None => Raise KeyError
  end.

(** [newstr in v]: membership in a list, substring of a string, and a
    TypeError on a number. *)
Definition contains (newstr : string) (v : Val) : result bool :=
  match v with
  | VList l => Ret (bool_decide (newstr ∈ l))
  | VStr s => Ret (match String.index 0 newstr s with
                   | Some _ => true
                   | None => false
                   end)
  | VNum _ => Raise TypeError
  end.

(** [v += l] for a list [l]. *)
Definition iadd_list (v : Val) (l : list string) : result Val :=
  match v with
  | VList l0 => Ret (VList (l0 ++ l))
  | VStr _ | VNum _ => Raise TypeError
  end.

(** [push_exceptions]; the exceptions are given by their [str]. *)
Fixpoint push_exceptions (excs : list string) (r : gmap string Val)
  : gmap string Val * result unit :=
  match excs with
  | [] => (r, Ret ())
  | newstr :: rest =>
      match exceptions r ≫= contains newstr with
      | Raise e => (r, Raise e)
      | Ret true => push_exceptions rest r
      | Ret false =>
          match exceptions r ≫= (fun v => iadd_list v [newstr]) with
          | Raise e => (r, Raise e)
          | Ret v' => push_exceptions rest (<[_EXC_KEY := v']> r)
          end
      end
  end.

(** The [to_dict] property of an instance of the class named [name] in
    the module [modname]. *)
Definition to_dict (modname name : string) (r : gmap string Val)
  : gmap string Val :=
  <["@class" := VStr name]> (<["@module" := VStr modname]> r).

Definition from_dict (d : gmap string Val) : gmap string Val :=
  init (filter (fun kv => kv.1 ∉ ["@module"; "@class"]) d).

End WorkflowResults.

(** ** Construction of workflows and registration in a flow *)

Module Construction.

Definition with_manager (m : nat) (w : Workflow) : Workflow :=
  mkWorkflow (w_node_id w) (_tasks w) (_finalized w) (workdir w) (indir w)
             (outdir w) (tmpdir w) (Some m) (w_deps w) (history w).

(** [Workflow.set_manager]: the manager of the workflow, then of each of
    its tasks. *)
Definition set_manager (m : nat) (w : Workflow) (h : Heap) : Heap * Workflow :=
  (foldl (fun h r => alter (TaskModel.set_manager m) r h) h (_tasks w),
   with_manager m w).

(** [Workflow.__init__(workdir, manager)] for the node [nid]. *)
Definition new `{Abspath} (nid : nat) (workdir : option string)
    (manager : option nat) (h : Heap) : Heap * result Workflow :=
  let w0 := Workflow.init nid in
  match (match workdir with
         | Some wd => Workflow.set_workdir wd w0
         | None => Ret w0
         end) with
  | Raise e => (h, Raise e)
  | Ret w1 =>
      match manager with
      | Some m => let '(h1, w2) := set_manager m w1 h in (h1, Ret w2)
      | None => (h, Ret w1)
      end
  end.

End Construction.

Module Flow.

(** [AbinitFlow.__init__]. *)
Definition new `{Abspath} (workdir : string) (manager : nat) : AbinitFlow :=
  mkAbinitFlow (abspath workdir) manager [] [].

(** The directory of the workflow that is registered next. *)
Definition work_workdir (flow : AbinitFlow) : string :=
  join (flow_workdir flow) ("work_" +:+ pretty (length (_works flow))).

(** [AbinitFlow.register_work]; [deps] is the list of the items of the
    dictionary, or [None]. *)
Definition register_work `{Abspath} (work : Workflow)
    (deps : option (list Dependency)) (manager : option nat)
    (flow : AbinitFlow) (h : Heap) : Heap * AbinitFlow * result Workflow :=
  let manager := default (flow_manager flow) manager in
  match Workflow.set_workdir (work_workdir flow) work with
  | Raise e => (h, flow, Raise e)
  | Ret work1 =>
      let '(h1, work2) := Construction.set_manager manager work1 h in
      let work3 := match deps with
                   | Some (d :: ds) => Workflow.add_deps (d :: ds) work2
                   | Some [] | None => work2
                   end in
      (h1, AbinitFlow.set_works (_works flow ++ [work3]) flow, Ret work3)
  end.

(** [AbinitFlow.register_cbk] with [work_class] the class [Workflow];
    [nid] is the node of the new workflow, [cbk] the callback function,
    [deps] the list of the items of the dictionary. *)
Definition register_cbk `{Abspath} (nid cbk cbk_data : nat)
    (deps : list Dependency) (manager : option nat)
    (flow : AbinitFlow) (h : Heap) : Heap * AbinitFlow * result Workflow :=
  let manager := default (flow_manager flow) manager in
  match Construction.new nid (Some (work_workdir flow)) (Some manager) h with
  | (h1, Raise e) => (h1, flow, Raise e)
  | (h1, Ret work) =>
      let idx := length (_works flow) in
      if bool_decide (deps = [])
      then (h1, AbinitFlow.set_works (_works flow ++ [work]) flow,
            Raise ValueError)
      else
        let work1 := Workflow.add_deps deps work in
        let flow1 := AbinitFlow.set_works (_works flow ++ [work1]) flow in
        let callback := mkCallback cbk idx deps cbk_data false in
        (h1, AbinitFlow.set_callbacks (_callbacks flow ++ [callback]) flow1,
         Ret work1)
  end.

(** [AbinitFlow.allocate]: the loop over the workflows. *)
Fixpoint allocate_works (works : list Workflow) (h : Heap) : Heap * result unit :=
  match works with
  | [] => (h, Ret ())
  | work :: works' =>
      match Workflow.allocate work h with
      | (h', Ret _) => allocate_works works' h'
      | (h', Raise e) => (h', Raise e)
      end
  end.

Definition allocate (flow : AbinitFlow) (h : Heap) : Heap * result unit :=
  allocate_works (_works flow) h.

End Flow.

(** ** The workflow classes with a fixed set of tasks *)

Module Classes.

(** [BandStructureWorkflow.__init__]. *)
Definition BandStructureWorkflow `{TaskApi} `{Abspath} (nid : nat)
    (scf_input nscf_input : nat) (dos_input : option nat)
    (workdir : option string) (manager : option nat) (h : Heap)
  : Heap * result Workflow :=
  match Construction.new nid workdir manager h with
  | (h0, Raise e) => (h0, Raise e)
  | (h0, Ret w0) =>
      let '(h1, w1, scf_task) := Workflow.register scf_input None None w0 h0 in
      let '(h2, w2, nscf_task) :=
        Workflow.register nscf_input (Some [mkDependency scf_task ["DEN"]])
                          None w1 h1 in
      match dos_input with
      | None => (h2, Ret w2)
      | Some dos =>
          let '(h3, w3, dos_task) :=
            Workflow.register dos (Some [mkDependency scf_task ["DEN"]])
                              None w2 h2 in
          (h3, Ret w3)
      end
  end.

(** [GW_Workflow.__init__]; [swap] is the order in which the dictionary
    of the two dependencies of the self-energy run is iterated. *)
Definition GW_Workflow `{TaskApi} `{Abspath} (swap : bool) (nid : nat)
    (scf_input nscf_input scr_input sigma_strategy : nat)
    (workdir : option string) (manager : option nat) (h : Heap)
  : Heap * result Workflow :=
  match Construction.new nid workdir manager h with
  | (h0, Raise e) => (h0, Raise e)
  | (h0, Ret w0) =>
      let '(h1, w1, scf_task) := Workflow.register scf_input None None w0 h0 in
      let '(h2, w2, nscf_task) :=
        Workflow.register nscf_input (Some [mkDependency scf_task ["DEN"]])
                          None w1 h1 in
      let '(h3, w3, scr_task) :=
        Workflow.register scr_input (Some [mkDependency nscf_task ["WFK"]])
                          None w2 h2 in
      let deps := if swap
                  then [mkDependency scr_task ["SCR"];
                        mkDependency nscf_task ["WFK"]]
                  else [mkDependency nscf_task ["WFK"];
                        mkDependency scr_task ["SCR"]] in
      let '(h4, w4, sigma_task) :=
        Workflow.register sigma_strategy (Some deps) None w3 h3 in
      (h4, Ret w4)
  end.

(** [BSEMDF_Workflow.__init__]. *)
Definition BSEMDF_Workflow `{TaskApi} `{Abspath} (nid : nat)
    (scf_input nscf_input bse_input : nat)
    (workdir : option string) (manager : option nat) (h : Heap)
  : Heap * result Workflow :=
  match Construction.new nid workdir manager h with
  | (h0, Raise e) => (h0, Raise e)
  | (h0, Ret w0) =>
      let '(h1, w1, scf_task) := Workflow.register scf_input None None w0 h0 in
      let '(h2, w2, nscf_task) :=
        Workflow.register nscf_input (Some [mkDependency scf_task ["DEN"]])
                          None w1 h1 in
      let '(h3, w3, bse_task) :=
        Workflow.register bse_input (Some [mkDependency nscf_task ["WFK"]])
                          None w2 h2 in
      (h3, Ret w3)
  end.

End Classes.

(** ** Methods that read a name the module does not bind *)

Module Unbound.
Import Scope.

(** The local names of a method [m(self, *args, **kwargs)]. *)
Definition method_locals : list (string * PyObj) :=
  [("self", ObjOpaque); ("args", ObjOpaque); ("kwargs", ObjOpaque)].

(** [BaseWorkflow.get_results]: the class is looked up, then the results
    of the tasks are collected and the class is called; [call] stands for
    these last two steps. *)
Definition get_results {R} (call : result R) : result R :=
  _ ← resolve method_locals "WorkFlowResults";
  call.

(** [PseudoConvergence.get_results], which starts with the method of the
    base class; [rest] stands for the statements after it. *)
Definition PseudoConvergence_get_results {R} (call : result R)
    (rest : R -> result R) : result R :=
  _ ← resolve method_locals "super";
  _ ← resolve method_locals "PseudoConvergence";
  wf_results ← get_results call;
  rest wf_results.

(** [PseudoIterativeConvergence.get_results], likewise. *)
Definition PseudoIterativeConvergence_get_results {R} (call : result R)
    (rest : R -> result R) : result R :=
  _ ← resolve method_locals "super";
  _ ← resolve method_locals "PseudoIterativeConvergence";
  wf_results ← get_results call;
  rest wf_results.

(** [RelaxationWorkflow.__init__]. *)
Definition RelaxationWorkflow `{TaskApi} `{Abspath} (nid relax_input : nat)
    (workdir : option string) (manager : option nat) (h : Heap)
  : Heap * result Workflow :=
  let locals := [("self", ObjOpaque); ("relax_input", ObjOpaque);
                 ("workdir", ObjOpaque); ("manager", ObjOpaque)] in
  match (_ ← resolve locals "super"; resolve locals "Relaxation") with
  | Raise e => (h, Raise e)
  | Ret _ =>
      match Construction.new nid workdir manager h with
      | (h0, Raise e) => (h0, Raise e)
      | (h0, Ret w0) =>
          let '(h1, w1, task) :=
            Workflow.register relax_input None None w0 h0 in
          (h1, Ret w1)
      end
  end.

(** [DeltaTestWorkflow.__init__]; [rest] stands for the statements after
    the call of the constructor of the base class, which set up the
    structures and register the tasks. *)
Definition DeltaTestWorkflow `{Abspath}
    (rest : Workflow -> Heap -> Heap * result Workflow) (nid : nat)
    (workdir : option string) (manager : option nat) (h : Heap)
  : Heap * result Workflow :=
  let locals := [("self", ObjOpaque); ("workdir", ObjOpaque);
                 ("manager", ObjOpaque); ("structure_or_cif", ObjOpaque);
                 ("pseudos", ObjOpaque); ("kppa", ObjOpaque);
                 ("spin_mode", ObjOpaque); ("toldfe", ObjOpaque);
                 ("smearing", ObjOpaque); ("accuracy", ObjOpaque);
                 ("ecut", ObjOpaque); ("ecutsm", ObjOpaque);
                 ("chksymbreak", ObjOpaque)] in
  match (_ ← resolve locals "super"; resolve locals "DeltaTest") with
  | Raise e => (h, Raise e)
  | Ret _ =>
      match Construction.new nid workdir manager h with
      | (h0, Raise e) => (h0, Raise e)
      | (h0, Ret w0) => rest w0 h0
      end
  end.

End Unbound.

(** ** [PseudoIterativeConvergence] *)

Module Pseudo.

(** The [isnc] property of a workflow, over the property of the same
    name of its tasks. *)
Definition isnc (task_isnc : Task -> bool) (h : Heap) (w : Workflow) : bool :=
  all (map task_isnc (tasks_of h w)).

(** [PseudoIterativeConvergence.__init__]; [setup] stands for the
    statements before the call of the constructor of the base class,
    which convert the pseudopotential and the smearing and make the
    iterator of the cutoff energies. *)
Definition PseudoIterativeConvergence `{Abspath} (task_isnc : Task -> bool)
    (setup : result unit) (nid : nat) (strategy_generator : Generator)
    (max_niter : Z) (workdir : option string) (manager : option nat)
    (h : Heap) : Heap * result IterativeWorkflow :=
  match setup with
  | Raise e => (h, Raise e)
  | Ret _ =>
      match Construction.new nid workdir manager h with
      | (h0, Raise e) => (h0, Raise e)
      | (h0, Ret w0) =>
          let iw := mkIterativeWorkflow w0 strategy_generator max_niter 0 in
          if negb (isnc task_isnc h0 (base iw))
          then (h0, Raise (PyException
                             "PAW convergence tests are not supported yet"))
          else (h0, Ret iw)
      end
  end.

End Pseudo.

(** ** [on_dep_ok] with a [pickle_dump] that can fail *)

(** How a [pickle_dump] fails: [open] raises, or [pickle.dump] raises
    when [written] chunks have reached the file. *)
Inductive DumpFault :=
  | Open_fails (e : Exc)
  | Dump_fails (written : nat) (e : Exc).


(** The file system and the pickler, as far as they make the dump of a
    flow fail. *)
Class DumpFaults := {
  dump_fault : AbinitFlow -> World -> option DumpFault
}.

Module Dispatch.

(** [AbinitFlow.pickle_dump] with its failures.  When [pickle.dump]
    raises, the [with] statement closes the file, which keeps what was
    written. *)
Definition pickle_dump `{Pickler AbinitFlow} `{DumpFaults} (flow : AbinitFlow)
    (st : World) : World * result unit :=
  match dump_fault flow st with
  | None => (AbinitFlow.pickle_dump flow st, Ret ())
  | Some (Open_fails e) => (st, Raise e)
  | Some (Dump_fails written e) =>
      (AbinitFlow.pickle_dump_interrupted (S written) flow st, Raise e)
  end.

(** The loop of [on_dep_ok], as [AbinitFlow.on_dep_ok_from], with the
    exception of [pickle_dump] leaving it. *)
Fixpoint on_dep_ok_from `{UserFuncs} `{Pickler AbinitFlow} `{DumpFaults}
    (sender : ref) (seen todo : list Callback) (flow : AbinitFlow) (st : World)
  : AbinitFlow * World * result unit :=
  match todo with
  | [] => (AbinitFlow.set_callbacks seen flow, st, Ret ())
  | cbk :: todo' =>
      if negb (handle_sender sender cbk)
      then on_dep_ok_from sender (seen ++ [cbk]) todo' flow st
      else if negb (truthy (can_execute (heap st) cbk))
      then on_dep_ok_from sender (seen ++ [cbk]) todo' flow st
      else
        match Callback_call cbk (_works flow) st with
        | (works1, st1, Raise e) =>
            (AbinitFlow.set_callbacks (seen ++ cbk :: todo')
               (AbinitFlow.set_works works1 flow),
             st1, Raise e)
        | (works1, st1, Ret widx) =>
            let works2 := alter (Workflow.add_deps (deps cbk)) widx works1 in
            let seen' := seen ++ [disable cbk] in
            let flow' := AbinitFlow.set_works works2 flow in
            let dumped := AbinitFlow.set_callbacks (seen' ++ todo') flow' in
            match pickle_dump dumped st1 with
            | (st2, Raise e) => (dumped, st2, Raise e)
            | (st2, Ret _) => on_dep_ok_from sender seen' todo' flow' st2
            end
        end
  end.

Definition on_dep_ok `{UserFuncs} `{Pickler AbinitFlow} `{DumpFaults}
    (signal : Status) (sender : ref) (flow : AbinitFlow) (st : World)
  : AbinitFlow * World * result unit :=
  on_dep_ok_from sender [] (_callbacks flow) flow st.

End Dispatch.

(** * Notions used in the statements *)

(** [all(task.status == task.S_OK for task in self)] *)
Definition all_ok (h : gmap nat Task) (w : Workflow) : bool :=
  all (map (fun task => eqb (t_status task) S_OK) (tasks_of h w)).

(** How often S_OK was sent with the given node as sender. *)
Definition published (wid : nat) (tr : list Event) : nat :=
  length (filter (fun e => e = Published S_OK wid) tr).

(** The life of a workflow: calls of [on_ok], between which the tasks
    change in any way. *)
Inductive Step :=
  | Call_on_ok (sender : nat)
  | Environment (f : gmap nat Task -> gmap nat Task).

(** One step of that life. *)
Definition step `{TaskApi} `{WorkflowHooks} (c : World * Workflow) (s : Step) : World * Workflow :=
  match s with
  | Call_on_ok sender => (Workflow.on_ok sender c.2 c.1).1
  | Environment f => (set_heap (f (heap c.1)) c.1, c.2)
  end.

(** A sequence of steps. *)
Definition run `{TaskApi} `{WorkflowHooks} (steps : list Step)
    (c : World * Workflow) : World * Workflow :=
  foldl step c steps.

(** A task is completed, as section 4.2 puts it, when it has reached a
    terminal state at or above S_DONE and is at S_OK. *)
Definition completed (t : Task) : Prop :=
  rank S_DONE <= rank (t_status t) /\ t_status t = S_OK.

(** A task is runnable when it is at S_READY and the upstream node of each
    of its dependencies is at S_OK. *)
Definition runnable (h : gmap nat Task) (t : Task) : Prop :=
  t_status t = S_READY
  /\ Forall (fun d => node_status h (dep_node d) = S_OK) (t_deps t).

(** The test of the second loop of [check_status]. *)
Definition eligible (h : gmap nat Task) (r : nat) : bool :=
  match h !! r with
  | Some task => leb (t_status task) S_SUB && deps_all_ok h task
  | None => false
  end.

(** The heap after the first loop, the per-task checks. *)
Definition after_checks `{TaskApi} (w : Workflow) (h : gmap nat Task)
  : gmap nat Task :=
  foldl (fun h r => Task_check_status r h) h (_tasks w).

(** A call of [set_workdir] as the caller's object sees it: a call that
    raises leaves the workflow as it was. *)
Definition try_set_workdir `{Abspath} (w : Workflow) (wd : string) : Workflow :=
  match Workflow.set_workdir wd w with
  | Ret w' => w'
  | Raise _ => w
  end.

(** The canonical working directory of the task at index [i]. *)
Definition canonical (wd : string) (i : nat) : string :=
  join wd ("task_" +:+ pretty i).

(** The number of tasks of the workflow, [len(self)]. *)
Definition ntasks (iw : IterativeWorkflow) : nat := length (_tasks (base iw)).

(** What running the tasks [new], one after the other, leaves in the
    trace. *)
Definition run_events (new : list nat) : list Event :=
  flat_map (fun r => [Started r; Waited r]) new.





(** The file an operation is on. *)
Definition op_path (op : FsOp) : string :=
  match op with
  | Open_w p | Write p _ | Close p => p
  end.

(** The value [check_conv] compares the sequence with: [vinf], and the
    last value when [vinf] is [None]. *)
Definition reference {V} (values : list V) (vinf : option V) : option V :=
  match vinf with
  | Some v => Some v
  | None => last values
  end.

(** The tolerance [tol'] is at least as loose as [tol]: what is below
    [tol] is below [tol'], and what is above [tol'] is above [tol]. *)
Definition looser {V} `{Numbers V} (tol' tol : V) : Prop :=
  forall x, (num_lt x tol = true -> num_lt x tol' = true)
            /\ (num_lt tol' x = true -> num_lt tol x = true).

(** The callback is enabled and lists the sender among the nodes it
    depends on. *)
Definition fires (sender : nat) (cbk : Callback) : bool :=
  handle_sender sender cbk && negb (_disabled cbk).

(** What [on_dep_ok] does to a callback on a signal of [sender]. *)
Definition after_signal (sender : nat) (cbk : Callback) : Callback :=
  if fires sender cbk then disable cbk else cbk.

(** The event a call of the callback's function leaves in the trace. *)
Definition invoked (cbk : Callback) : Event := Invoked (func cbk) (work cbk).

(** The task as [allocate] leaves it at index [i] of a workflow with the
    working directory [wd] and the manager [m]. *)
Definition placed (wd : string) (m : nat) (i : nat) (task : Task) : Task :=
  mkTask (t_node_id task) (t_status task) (t_deps task) (t_tot_ncpus task)
         (Some (canonical wd i)) (Some (default m (t_manager task))).

(** What a file holds once the chunks have been written to it. *)
Definition contents (chunks : list string) : string :=
  foldr String.append "" chunks.

(** The calls that put a workflow together. *)
Inductive Assembly :=
  | Set_workdir (wd : string)
  | Set_manager (m : nat)
  | Register (obj : nat) (deps : option (list Dependency)) (mgr : option nat).

(** One such call; a [set_workdir] that raises leaves the workflow as it
    was. *)
Definition assemble `{TaskApi} `{Abspath} (c : gmap nat Task * Workflow)
    (a : Assembly) : gmap nat Task * Workflow :=
  match a with
  | Set_workdir wd => (c.1, try_set_workdir c.2 wd)
  | Set_manager m => Construction.set_manager m c.2 c.1
  | Register obj deps mgr => (Workflow.register obj deps mgr c.2 c.1).1
  end.

(** The registrations that put a flow together. *)
Inductive Registration :=
  | Register_work (work : Workflow) (deps : option (list Dependency))
                  (mgr : option nat)
  | Register_cbk (nid cbk cbk_data : nat) (deps : list Dependency)
                 (mgr : option nat).

(** One registration, with the state it leaves whether it raises or
    not. *)
Definition enrol `{Abspath} (c : gmap nat Task * AbinitFlow)
    (r : Registration) : gmap nat Task * AbinitFlow :=
  match r with
  | Register_work work deps mgr => (Flow.register_work work deps mgr c.2 c.1).1
  | Register_cbk nid cbk cbk_data deps mgr =>
      (Flow.register_cbk nid cbk cbk_data deps mgr c.2 c.1).1
  end.

(** The directory of the workflow at index [i] of a flow. *)
Definition work_dir `{Abspath} (flow : AbinitFlow) (i : nat) : string :=
  abspath (join (flow_workdir flow) ("work_" +:+ pretty i)).

(** What the calls that put a workflow together keep: the tasks are
    distinct objects of the heap, the working directory, once set, is an
    absolute path, and a task that has a working directory has the one
    of its index. *)
Definition well_assembled `{Abspath} (c : gmap nat Task * Workflow) : Prop :=
  NoDup (_tasks c.2)
  /\ (forall r, r ∈ _tasks c.2 -> is_Some (c.1 !! r))
  /\ (forall cur, workdir c.2 = Some cur -> abspath cur = cur)
  /\ (forall i r task, _tasks c.2 !! i = Some r -> c.1 !! r = Some task ->
        t_workdir task = None
        \/ exists wd, workdir c.2 = Some wd
                      /\ t_workdir task = Some (canonical wd i)).

(** What the registrations keep in a flow: every workflow sits in the
    directory of its index and has a manager; every callback is enabled,
    has dependencies, and belongs to a workflow of the flow that has these
    dependencies and no task. *)
Definition well_registered `{Abspath} (flow : AbinitFlow) : Prop :=
  (forall i w, _works flow !! i = Some w ->
     workdir w = Some (work_dir flow i) /\ is_Some (manager w))
  /\ (forall cb, cb ∈ _callbacks flow ->
        deps cb <> [] /\ _disabled cb = false
        /\ exists w, _works flow !! work cb = Some w
                     /\ _tasks w = [] /\ w_deps w = deps cb).

(** The dependencies of the tasks of the workflow lead to earlier tasks
    of the workflow. *)
Definition backward_deps (h : gmap nat Task) (w : Workflow) : Prop :=
  forall i r task d,
    _tasks w !! i = Some r -> h !! r = Some task -> d ∈ t_deps task ->
    exists j, (j < i)%nat /\ _tasks w !! j = Some (dep_node d).

(** No task of the workflow is running, done or has failed: each one is
    at S_OK, or at S_SUB or below. *)
Definition none_in_flight (h : gmap nat Task) (w : Workflow) : Prop :=
  forall r task, r ∈ _tasks w -> h !! r = Some task ->
    t_status task = S_OK \/ rank (t_status task) <= rank S_SUB.

(** The tasks of the workflow are distinct objects of the heap, and their
    dependencies lead to earlier tasks of the workflow. *)
Definition well_linked (h : gmap nat Task) (w : Workflow) : Prop :=
  NoDup (_tasks w)
  /\ (forall r, r ∈ _tasks w -> is_Some (h !! r))
  /\ backward_deps h w.

(** What [allocate] asks of a workflow: a working directory, a manager,
    distinct tasks, and no task in another directory than the one of its
    index. *)
Definition allocatable (h : gmap nat Task) (w : Workflow) : Prop :=
  is_Some (workdir w) /\ is_Some (manager w) /\ NoDup (_tasks w)
  /\ forall wd i r task,
       workdir w = Some wd -> _tasks w !! i = Some r -> h !! r = Some task ->
       t_workdir task = None \/ t_workdir task = Some (canonical wd i).

(** * Concrete collaborators used by the examples *)

Module Samples.

(** A runner whose tasks succeed as soon as they are waited for. *)
Definition api : TaskApi := {|
  Task_new := fun _ wd m => mkTask 0 S_INIT [] 1 wd m;
  Task_check_status := fun _ h => h;
  Task_start := fun r h => set_status S_RUN r h;
  Task_wait := fun r h => set_status S_OK r h
|}.

Definition base_hooks : WorkflowHooks := {|
  on_all_ok := Workflow.base_on_all_ok
|}.

(** A subclass whose [on_all_ok] raises. *)
Definition raising_hooks : WorkflowHooks := {|
  on_all_ok := fun _ h => (h, Raise (UserError 1))
|}.

Definition flow_pickler : Pickler AbinitFlow := {|
  pickle_chunks := fun _ _ => ["new-"; "snapshot"]
|}.

(** A callback function that leaves the workflows as they are and
    returns the workflow it was given. *)
Definition funcs : UserFuncs := {|
  call_func := fun _ works widx _ h => (works, h, Ret widx)
|}.

Definition task (nid : nat) (s : Status) (ds : list Dependency) (ncpus : Z) : Task :=
  mkTask nid s ds ncpus None None.

Definition world (h : gmap nat Task) : World := mkWorld h ∅ [].

Definition work (nid : nat) (rs : list nat) : Workflow :=
  mkWorkflow nid rs None None None None None None [] [].

End Samples.

(** Sample heaps, workflows, flows and hooks. *)

Definition accounting_heap : gmap nat Task :=
  {[ 1%nat := Samples.task 1 S_SUB [] 4 ]}.

Definition accounting_flow : AbinitFlow :=
  mkAbinitFlow "/run" 0 [Samples.work 10 [1%nat]] [].

Definition pending_heap : gmap nat Task :=
  {[ 1%nat := Samples.task 1 S_OK [] 1; 2%nat := Samples.task 2 S_INIT [] 1 ]}.

Definition pending_cbk : Callback :=
  mkCallback 7 0 [mkDependency 1 ["WFK"]; mkDependency 2 ["DEN"]] 0 false.

Definition pending_flow : AbinitFlow :=
  mkAbinitFlow "/run" 0 [Samples.work 10 []] [pending_cbk].

Definition snapshot_flow : AbinitFlow := mkAbinitFlow "/run" 0 [] [].

Definition snapshot_world : World :=
  mkWorld ∅ {[ "/run/__workflow__.pickle" := "old-snapshot" ]} [].

Definition done_heap : gmap nat Task :=
  {[ 1%nat := Samples.task 1 S_OK [] 1 ]}.

Definition done_work : Workflow := Samples.work 10 [1%nat].

(** T1 succeeded, T2 depends on T1 and is ready. *)
Definition ready_heap : gmap nat Task :=
  {[ 1%nat := Samples.task 1 S_OK [] 1;
     2%nat := Samples.task 2 S_READY [mkDependency 1 ["DEN"]] 1 ]}.

(** T1 failed, T2 depends on T1 and stays at S_INIT. *)
Definition stuck_heap : gmap nat Task :=
  {[ 1%nat := Samples.task 1 S_ERROR [] 1;
     2%nat := Samples.task 2 S_INIT [mkDependency 1 ["DEN"]] 1 ]}.

Definition two_tasks : Workflow := Samples.work 10 [1%nat; 2%nat].

(** T1 succeeded; T2 depends on T1; T3 depends on T2; T4 is submitted and
    depends on nothing. *)
Definition chain_heap : gmap nat Task :=
  {[ 1%nat := Samples.task 1 S_OK [] 1;
     2%nat := Samples.task 2 S_INIT [mkDependency 1 ["DEN"]] 1;
     3%nat := Samples.task 3 S_INIT [mkDependency 2 ["WFK"]] 1;
     4%nat := Samples.task 4 S_SUB [] 1 ]}.

Definition chain_work : Workflow := Samples.work 10 [1%nat; 2%nat; 3%nat; 4%nat].

(** The process whose current directory is the root. *)
Definition root_abspath : Abspath.
Proof.
  refine {| abspath := abspath_root |}.
  intros p. unfold abspath_root.
  destruct (startswith_slash p) eqn:Hs; [now rewrite Hs|reflexivity].
Defined.

Definition placed_work : Workflow :=
  mkWorkflow 10 [1%nat; 2%nat] None (Some "/run/work_0")
    (Some "/run/work_0/indata") (Some "/run/work_0/outdata")
    (Some "/run/work_0/tmpdata") (Some 0%nat) [] [].

(** The second task was given the directory of another index. *)
Definition misplaced_heap : gmap nat Task :=
  {[ 1%nat := mkTask 1 S_INIT [] 1 None None;
     2%nat := mkTask 2 S_INIT [] 1 (Some "/run/work_0/task_7") None ]}.

(** An [exit_iteration] that says exit once the workflow holds [n]
    tasks, and one that never does. *)
Definition exit_at (n : nat) : IterativeHooks :=
  {| exit_iteration := fun iw _ =>
       Ret {[ "exit" := bool_decide (ntasks iw = n) ]} |}.

Definition never_exit : IterativeHooks :=
  {| exit_iteration := fun _ _ => Ret {[ "exit" := false ]} |}.

(** A producer that never ends. *)
Definition endless : Generator := mkGenerator (fun k => Some k) 0.

Definition five_rounds : IterativeWorkflow := IterativeWorkflow.init 10 endless 5.



(** Python ints under [check_conv] in absolute mode; the relative mode
    divides and leaves the integers, so it is not given. *)
Definition int_numbers : Numbers Z := {|
  abs_diff := fun v vinf => Z.abs (v - vinf);
  rel_diff := fun _ _ => Raise (PyException "true division leaves the integers");
  num_lt := Z.ltb
|}.

(** Total energies that settle at 1, in some integer unit. *)
Definition settling : list Z := [10; 5; 2; 1; 1; 1].

(** The results of a workflow with one recorded exception. *)
Definition sample_results : gmap string WorkflowResults.Val :=
  {[ "_exceptions" := WorkflowResults.VList ["fit failed"];
     "natom" := WorkflowResults.VNum 2 ]}.

(** Callback functions of which number 9 raises; the others return the
    workflow they were given. *)
Definition failing_funcs : UserFuncs := {|
  call_func := fun f works widx _ h =>
    (works, h, if bool_decide (f = 9%nat) then Raise (UserError 9) else Ret widx)
|}.

(** A flow with four callbacks: two wait for node 1, one for node 2, and
    one that waited for node 1 has run already. *)
Definition crowded_flow : AbinitFlow :=
  mkAbinitFlow "/run" 0 [Samples.work 10 []; Samples.work 11 []]
    [ mkCallback 7 0 [mkDependency 1 ["WFK"]] 0 false;
      mkCallback 8 1 [mkDependency 2 ["DEN"]] 0 false;
      mkCallback 6 1 [mkDependency 1 ["DEN"]] 0 true;
      mkCallback 9 1 [mkDependency 1 ["DEN"]; mkDependency 2 ["DEN"]] 0 false ].

(** The first task has no directory and no manager yet; the second one
    is in place and has a manager of its own. *)
Definition half_placed_heap : gmap nat Task :=
  {[ 1%nat := mkTask 1 S_INIT [] 1 None None;
     2%nat := mkTask 2 S_INIT [] 1 (Some "/run/work_0/task_1") (Some 5%nat) ]}.

(** A workflow that gets a task before its working directory and its
    manager, and a second task, which depends on the first, after them. *)
Definition late_workdir : list Assembly :=
  [ Register 1 None None;
    Set_workdir "/run/work_0";
    Set_manager 0;
    Register 2 (Some [mkDependency 0 ["DEN"]]) None ].

(** A flow with two workflows in place; the task of the second one has
    no directory and no manager yet. *)
Definition second_work : Workflow :=
  mkWorkflow 11 [3%nat] None (Some "/run/work_1")
    (Some "/run/work_1/indata") (Some "/run/work_1/outdata")
    (Some "/run/work_1/tmpdata") (Some 0%nat) [] [].

Definition filled_flow : AbinitFlow :=
  mkAbinitFlow "/run" 0 [placed_work; second_work] [].

Definition filled_heap : gmap nat Task :=
  <[ 3%nat := mkTask 3 S_INIT [] 1 None None ]> half_placed_heap.

(** A file system on which no dump fails, and one on which the flow's
    directory is missing, so that [open] raises. *)
Definition no_faults : DumpFaults := {| dump_fault := fun _ _ => None |}.

Definition missing_directory : DumpFaults := {|
  dump_fault := fun _ _ =>
    Some (Open_fails (PyException "IOError: No such file or directory"))
|}.

(** * Name resolution: [used_ids] and [generate_new_nodeid] *)

Section Names.
Import Scope.

Lemma ids_set_unbound (a b c : PyObj) :
  resolve [("self", a); ("ids", b); ("used_ids", c)] "ids_set" = Raise NameError.
Proof. vm_compute. reflexivity. Qed.

Lemma intertools_unbound (a b c : PyObj) :
  resolve [("self", a); ("used_ids", b); ("itertools", c)] "intertools"
  = Raise NameError.
Proof. vm_compute. reflexivity. Qed.

(** The module does bind [itertools] nowhere but in the function, and the
    name that the function reads is another one. *)
Lemma itertools_bound (a b c : PyObj) :
  resolve [("self", a); ("used_ids", b); ("itertools", c)] "itertools" = Ret c.
Proof. vm_compute. reflexivity. Qed.

Lemma used_ids_NameError (h : gmap nat Task) (flow : AbinitFlow) :
  AbinitFlow.used_ids h flow = Raise NameError.
Proof.
  unfold AbinitFlow.used_ids. cbv zeta.
  now rewrite ids_set_unbound.
Qed.

Lemma generate_new_nodeid_with_NameError (s : gset nat) :
  AbinitFlow.generate_new_nodeid_with (Ret s) = Raise NameError.
Proof.
  unfold AbinitFlow.generate_new_nodeid_with. cbn [mbind result_bind].
  now rewrite intertools_unbound.
Qed.

(** C10: for every flow, also one without workflows, [used_ids] raises
    [NameError] and returns no set, since its assertion reads the unbound
    name [ids_set]; [generate_new_nodeid], which calls it, raises as
    well and returns no identifier, and it would raise on the unbound
    name [intertools] even if [used_ids] returned a set. *)
Theorem used_ids_always_raises :
  forall (h : gmap nat Task) (flow : AbinitFlow),
    AbinitFlow.used_ids h flow = Raise NameError
    /\ AbinitFlow.used_ids h (mkAbinitFlow (flow_workdir flow) (flow_manager flow) [] [])
       = Raise NameError
    /\ AbinitFlow.generate_new_nodeid h flow = Raise NameError
    /\ (forall nid, AbinitFlow.generate_new_nodeid h flow <> Ret nid)
    /\ (forall s, AbinitFlow.generate_new_nodeid_with (Ret s) = Raise NameError).
Proof.
  intros h flow. split; [|split; [|split; [|split]]].
  - apply used_ids_NameError.
  - apply used_ids_NameError.
  - unfold AbinitFlow.generate_new_nodeid. now rewrite used_ids_NameError.
  - intros nid. unfold AbinitFlow.generate_new_nodeid.
    now rewrite used_ids_NameError.
  - apply generate_new_nodeid_with_NameError.
Qed.

End Names.

(** * Status comparisons *)

Lemma eqb_eq (a b : Status) : eqb a b = true <-> a = b.
Proof. destruct a, b; vm_compute; split; congruence. Qed.

Lemma eqb_neq (a b : Status) : eqb a b = false <-> a <> b.
Proof. destruct a, b; vm_compute; split; congruence. Qed.

Lemma leb_le (a b : Status) : leb a b = true <-> (rank a <= rank b)%Z.
Proof. unfold leb. apply Z.leb_le. Qed.

Lemma all_Forall (bs : list bool) : all bs = true <-> Forall (fun b => b = true) bs.
Proof.
  unfold all. rewrite forallb_forall, Forall_forall.
  split; intros Hall b Hb; apply Hall; [now apply list_elem_of_In|now apply list_elem_of_In].
Qed.

(** * CPU accounting *)

Section Accounting.

Lemma fold_left_add_shift (zs : list Z) (a : Z) :
  fold_left Z.add zs a = a + fold_left Z.add zs 0.
Proof.
  revert a. induction zs as [|y zs IH]; intros a; cbn; [lia|].
  rewrite (IH (a + y)), (IH (0 + y)). lia.
Qed.

Lemma sum_cons (z : Z) (zs : list Z) : sum (z :: zs) = z + sum zs.
Proof. unfold sum. cbn. apply fold_left_add_shift. Qed.

(** The accumulation loop of the three workflow queries. *)
Lemma ncpus_loop (p : Task -> bool) (l : list Task) (a : Z) :
  foldl (fun ncpus task => if p task then ncpus + t_tot_ncpus task else ncpus) a l
  = a + sum (map t_tot_ncpus (filter (fun t => p t = true) l)).
Proof.
  revert a. induction l as [|t l IH]; intros a.
  - cbn. unfold sum. cbn. lia.
  - cbn [foldl]. rewrite IH, filter_cons. destruct (p t) eqn:Hp.
    + rewrite decide_True by done. cbn [map]. rewrite sum_cons. lia.
    + rewrite decide_False by (intros ?; congruence). done.
Qed.

Lemma ncpus_reserved_sum (h : gmap nat Task) (w : Workflow) :
  Workflow.ncpus_reserved h w
  = sum (map t_tot_ncpus
           (filter (fun t => eqb (t_status t) S_SUB = true) (tasks_of h w))).
Proof. unfold Workflow.ncpus_reserved. now rewrite ncpus_loop. Qed.

Lemma ncpus_allocated_sum (h : gmap nat Task) (w : Workflow) :
  Workflow.ncpus_allocated h w
  = sum (map t_tot_ncpus
           (filter (fun t => existsb (eqb (t_status t)) [S_SUB; S_RUN] = true)
                   (tasks_of h w))).
Proof. unfold Workflow.ncpus_allocated. now rewrite ncpus_loop. Qed.

Lemma ncpus_inuse_sum (h : gmap nat Task) (w : Workflow) :
  Workflow.ncpus_inuse h w
  = sum (map t_tot_ncpus
           (filter (fun t => eqb (t_status t) S_RUN = true) (tasks_of h w))).
Proof. unfold Workflow.ncpus_inuse. now rewrite ncpus_loop. Qed.

Lemma sum_results_Ret (zs : list Z) :
  AbinitFlow.sum_results (map Ret zs) = Ret (sum zs).
Proof.
  unfold AbinitFlow.sum_results, sum.
  generalize 0 at 1 2. induction zs as [|z zs IH]; intros a; cbn; [done|].
  apply IH.
Qed.

Lemma sum_results_Raise (e : Exc) (rs : list (result Z)) :
  foldl (fun acc r => a ← acc; x ← r; mret (a + x)) (Raise e) rs = Raise e.
Proof. induction rs as [|r rs IH]; cbn; [done|apply IH]. Qed.

Lemma flow_ncpus_allocated_sum (h : gmap nat Task) (flow : AbinitFlow) :
  AbinitFlow.ncpus_allocated h flow
  = Ret (sum (map (Workflow.ncpus_allocated h) (_works flow))).
Proof.
  unfold AbinitFlow.ncpus_allocated. rewrite <- sum_results_Ret.
  now rewrite map_map.
Qed.

Lemma flow_ncpus_inuse_sum (h : gmap nat Task) (flow : AbinitFlow) :
  AbinitFlow.ncpus_inuse h flow
  = Ret (sum (map (Workflow.ncpus_inuse h) (_works flow))).
Proof.
  unfold AbinitFlow.ncpus_inuse. rewrite <- sum_results_Ret.
  now rewrite map_map.
Qed.

(** The flow reads the attribute [ncpus_reverved], which no workflow
    has: the query raises as soon as the flow holds a workflow. *)
Lemma flow_ncpus_reserved_raises (h : gmap nat Task) (flow : AbinitFlow) :
  _works flow <> [] ->
  AbinitFlow.ncpus_reserved h flow = Raise AttributeError.
Proof.
  unfold AbinitFlow.ncpus_reserved, AbinitFlow.sum_results.
  destruct (_works flow) as [|w ws]; [done|]. intros _. cbn.
  apply sum_results_Raise.
Qed.

(** C9, at a flow with one workflow whose single task is submitted and
    asks for 4 CPUs: the workflow reports 4 reserved CPUs, and so does
    the flow for the allocated ones, but the flow's [ncpus_reserved]
    raises [AttributeError] instead of returning 4. *)
Theorem flow_ncpus_reserved_at_submitted_task :
  map (Workflow.ncpus_reserved accounting_heap) (_works accounting_flow) = [4]
  /\ AbinitFlow.ncpus_allocated accounting_heap accounting_flow = Ret 4
  /\ AbinitFlow.ncpus_inuse accounting_heap accounting_flow = Ret 0
  /\ AbinitFlow.ncpus_reserved accounting_heap accounting_flow
     = Raise AttributeError.
Proof. vm_compute. auto. Qed.

End Accounting.

(** * Callbacks of a flow *)

Section Callbacks.

(** What [can_execute] amounts to when its value is tested: the list of
    comparisons is true as soon as it is not empty, whatever the
    statuses are. *)
Lemma can_execute_truthy (h : gmap nat Task) (cbk : Callback) :
  truthy (can_execute h cbk)
  = negb (_disabled cbk) && negb (bool_decide (deps cbk = [])).
Proof.
  unfold can_execute, py_and. destruct (_disabled cbk); cbn; [done|].
  destruct (deps cbk); reflexivity.
Qed.

Lemma can_execute_ignores_statuses (h h' : gmap nat Task) (cbk : Callback) :
  truthy (can_execute h cbk) = truthy (can_execute h' cbk).
Proof. now rewrite !can_execute_truthy. Qed.

(** C1, at a flow with one enabled callback that depends on node 1 (at
    S_OK) and on node 2 (still at S_INIT): when node 1 sends S_OK,
    [on_dep_ok] calls the callback's function and disables the
    callback, although node 2 is not at S_OK. *)
Theorem on_dep_ok_calls_callback_with_pending_dep :
  let '(flow', st', r) :=
    @AbinitFlow.on_dep_ok Samples.funcs Samples.flow_pickler S_OK 1%nat
      pending_flow (Samples.world pending_heap) in
  map (fun dep => node_status pending_heap (dep_node dep)) (deps pending_cbk)
  = [S_OK; S_INIT]
  /\ r = Ret ()
  /\ trace st' = [Invoked 7 0]
  /\ map _disabled (_callbacks flow') = [true].
Proof. vm_compute. auto. Qed.

End Callbacks.

(** * Snapshots *)

Section Snapshots.

(** Every file operation of a dump is on the canonical file: there is no
    sibling file and nothing is renamed. *)
Lemma dump_ops_on_one_file (filepath : string) (chunks : list string) :
  Forall (fun op => op_path op = filepath) (Workflow.dump_ops filepath chunks).
Proof.
  unfold Workflow.dump_ops. constructor; [done|].
  apply Forall_app. split.
  - apply Forall_forall. intros op Hop.
    apply list_elem_of_fmap in Hop as (c & -> & _). done.
  - constructor; [done|constructor].
Qed.

(** The first thing a dump does is to empty the canonical file. *)
Lemma pickle_dump_truncates_first `{Pickler AbinitFlow}
    (flow : AbinitFlow) (st : World) :
  fs (AbinitFlow.pickle_dump_interrupted 1 flow st) !! AbinitFlow.pickle_path flow
  = Some "".
Proof.
  unfold AbinitFlow.pickle_dump_interrupted, AbinitFlow.pickle_dump_ops,
    Workflow.dump_ops. cbn. apply lookup_insert_eq.
Qed.

Lemma workflow_pickle_dump_truncates_first `{Pickler Workflow}
    (w : Workflow) (st : World) (wd : string) :
  workdir w = Some wd ->
  fs (Workflow.pickle_dump_interrupted (Some 1%nat) w st).1
     !! join wd Workflow.PICKLE_FNAME
  = Some "".
Proof.
  intros Hwd. unfold Workflow.pickle_dump_interrupted. rewrite Hwd.
  cbn. apply lookup_insert_eq.
Qed.

(** C3, at a flow in /run whose earlier snapshot is on disk: a dump that
    is interrupted after its first or its second file operation leaves
    an empty, respectively a cut, file under the canonical name, and the
    canonical file is the only file the dump ever touches. *)
Theorem pickle_dump_interrupted_leaves_truncated_file :
  let dump k :=
    fs (@AbinitFlow.pickle_dump_interrupted Samples.flow_pickler k
          snapshot_flow snapshot_world) in
  let done :=
    fs (@AbinitFlow.pickle_dump Samples.flow_pickler snapshot_flow snapshot_world) in
  AbinitFlow.pickle_path snapshot_flow = "/run/__workflow__.pickle"
  /\ dump 0%nat !! "/run/__workflow__.pickle" = Some "old-snapshot"
  /\ dump 1%nat !! "/run/__workflow__.pickle" = Some ""
  /\ dump 2%nat !! "/run/__workflow__.pickle" = Some "new-"
  /\ done !! "/run/__workflow__.pickle" = Some "new-snapshot"
  /\ map op_path (@AbinitFlow.pickle_dump_ops Samples.flow_pickler snapshot_flow ∅)
     = replicate 4 "/run/__workflow__.pickle".
Proof. vm_compute. auto 10. Qed.

End Snapshots.

(** * Finalisation of a workflow *)

Section Finalization.
Context `{TaskApi} `{WorkflowHooks}.

Lemma all_ok_Forall (h : gmap nat Task) (w : Workflow) :
  all_ok h w = true <-> Forall (fun task => t_status task = S_OK) (tasks_of h w).
Proof.
  unfold all_ok. rewrite all_Forall, Forall_fmap.
  apply Forall_iff. intros task. cbn. apply eqb_eq.
Qed.

Lemma published_snoc (wid : nat) (tr : list Event) (e : Event) :
  published wid (tr ++ [e])
  = (published wid tr + if decide (e = Published S_OK wid) then 1 else 0)%nat.
Proof.
  unfold published. rewrite filter_app, length_app. f_equal.
  rewrite filter_cons, filter_nil. now destruct (decide _).
Qed.

Lemma on_ok_not_all_ok (sender : nat) (w : Workflow) (st : World) :
  all_ok (heap st) w = false ->
  Workflow.on_ok sender w st = (st, w, Ret (mkAttrDict 1 "Not all tasks are OK!")).
Proof. unfold Workflow.on_ok, all_ok. now intros ->. Qed.

Lemma on_ok_already_finalized (sender : nat) (w : Workflow) (st : World) :
  all_ok (heap st) w = true -> Workflow.finalized w = true ->
  Workflow.on_ok sender w st
  = (st, w, Ret (mkAttrDict 0 "Workflow has been already finalized")).
Proof. unfold Workflow.on_ok, all_ok. now intros -> ->. Qed.

(** An exception of the hook leaves [on_ok] as it is. *)
Lemma on_ok_hook_raises (sender : nat) (w : Workflow) (st : World)
    (h1 : gmap nat Task) (e : Exc) :
  all_ok (heap st) w = true -> Workflow.finalized w = false ->
  on_all_ok w (heap st) = (h1, Raise e) ->
  Workflow.on_ok sender w st = (set_heap h1 st, w, Raise e).
Proof. unfold Workflow.on_ok, all_ok. now intros -> -> ->. Qed.

Lemma on_ok_finalizes (sender : nat) (w : Workflow) (st : World)
    (h1 : gmap nat Task) (results : AttrDict) :
  all_ok (heap st) w = true -> Workflow.finalized w = false ->
  on_all_ok w (heap st) = (h1, Ret results) ->
  exists h2,
    Workflow.on_ok sender w st
    = (emit (Published S_OK (w_node_id w)) (set_heap h2 st),
       Workflow.append_history "Finalized" (Workflow.set_finalized true w),
       Ret results).
Proof.
  unfold Workflow.on_ok, all_ok. intros -> -> ->.
  destruct (Workflow.status _ h1) as [h2 s]. now exists h2.
Qed.

(** One step keeps the node, and it sends S_OK only from a workflow that
    was not finalized and is finalized afterwards. *)
Lemma step_invariant (c : World * Workflow) (s : Step) :
  w_node_id (step c s).2 = w_node_id c.2
  /\ ((published (w_node_id c.2) (trace c.1) <= 1)%nat ->
      (Workflow.finalized c.2 = false -> published (w_node_id c.2) (trace c.1) = 0%nat) ->
      (published (w_node_id c.2) (trace (step c s).1) <= 1)%nat
      /\ (Workflow.finalized (step c s).2 = false ->
          published (w_node_id c.2) (trace (step c s).1) = 0%nat)).
Proof.
  destruct c as [st w]. destruct s as [sender|f]; cbn [step fst snd].
  2: { split; [done|]. intros Hle Hfin. now split. }
  destruct (all_ok (heap st) w) eqn:Hall.
  2: { rewrite on_ok_not_all_ok by done. cbn. split; [done|]. intros ? ?. now split. }
  destruct (Workflow.finalized w) eqn:Hfin.
  { rewrite on_ok_already_finalized by done. cbn. split; [done|]. intros ? ?. now split; [|congruence]. }
  destruct (on_all_ok w (heap st)) as [h1 [results|e]] eqn:Hhook.
  - destruct (on_ok_finalizes sender w st h1 results) as [h2 Heq];
      [done..|]. rewrite Heq.
    cbn [fst snd]. split; [done|]. intros _ Hzero.
    unfold emit. cbn [trace set_heap].
    rewrite published_snoc, Hzero by done.
    rewrite decide_True by done. split; [lia|done].
  - rewrite (on_ok_hook_raises sender w st h1 e) by done.
    cbn [fst snd]. split; [done|]. intros Hle Hz.
    split; [done|intros _; now apply Hz].
Qed.

Lemma run_invariant (steps : list Step) (c : World * Workflow) :
  (published (w_node_id c.2) (trace c.1) <= 1)%nat ->
  (Workflow.finalized c.2 = false -> published (w_node_id c.2) (trace c.1) = 0%nat) ->
  (published (w_node_id c.2) (trace (run steps c).1) <= 1)%nat.
Proof.
  revert c. induction steps as [|s steps IH]; intros c Hle Hfin; [done|].
  cbn [run foldl]. destruct (step_invariant c s) as [Hid Hstep].
  destruct (Hstep Hle Hfin) as [Hle' Hfin'].
  rewrite <- Hid. apply IH; now rewrite Hid.
Qed.

(** C2: one call of [on_ok] sends S_OK for the workflow only if all its
    tasks are at S_OK and it is not finalized, and it is finalized when
    the call returns; a call on a finalized workflow whose tasks are all
    at S_OK returns the returncode-0 result and changes nothing; a call
    with a task that is not at S_OK returns the returncode-1 result and
    changes nothing; hence over any sequence of calls, with any changes
    of the tasks in between, S_OK is sent at most once. *)
Theorem on_ok_publishes_at_most_once :
  forall (w : Workflow) (st : World),
    (forall sender,
       let '(st', w', r) := Workflow.on_ok sender w st in
       (published (w_node_id w) (trace st') <> published (w_node_id w) (trace st) ->
          all_ok (heap st) w = true /\ Workflow.finalized w = false
          /\ Workflow.finalized w' = true
          /\ trace st' = trace st ++ [Published S_OK (w_node_id w)])
       /\ (all_ok (heap st) w = true -> Workflow.finalized w = false ->
           forall results, (on_all_ok w (heap st)).2 = Ret results ->
           r = Ret results /\ Workflow.finalized w' = true
           /\ trace st' = trace st ++ [Published S_OK (w_node_id w)])
       /\ (all_ok (heap st) w = true -> Workflow.finalized w = true ->
           st' = st /\ w' = w
           /\ r = Ret (mkAttrDict 0 "Workflow has been already finalized"))
       /\ (all_ok (heap st) w = false ->
           st' = st /\ w' = w /\ r = Ret (mkAttrDict 1 "Not all tasks are OK!")))
    /\ (Workflow.finalized w = false ->
        published (w_node_id w) (trace st) = 0%nat ->
        forall steps,
          (published (w_node_id w) (trace (run steps (st, w)).1) <= 1)%nat).
Proof.
  intros w st. split.
  - intros sender.
    destruct (all_ok (heap st) w) eqn:Hall.
    2: { rewrite on_ok_not_all_ok by done. repeat split; try done. }
    destruct (Workflow.finalized w) eqn:Hfin.
    { rewrite on_ok_already_finalized by done. repeat split; try done. }
    destruct (on_all_ok w (heap st)) as [h1 [results|e]] eqn:Hhook.
    + destruct (on_ok_finalizes sender w st h1 results) as [h2 Heq];
        [done..|]. rewrite Heq.
      split; [now intros _|]. split; [|split; [done|done]].
      intros _ _ results' [= ->]. now repeat split.
    + rewrite (on_ok_hook_raises sender w st h1 e) by done.
      cbn [fst snd]. split; [done|]. split; [|split; [done|done]].
      intros _ _ results' [=].
  - intros Hfin Hzero steps.
    apply (run_invariant steps (st, w)); cbn; [lia|done].
Qed.

End Finalization.

Section FinalizationExamples.

(** Three calls of [on_ok] on a workflow whose only task succeeded send
    S_OK once. *)
Example on_ok_three_calls :
  published 10
    (trace (@run Samples.api Samples.base_hooks
              [Call_on_ok 1; Call_on_ok 1; Call_on_ok 1]
              (Samples.world done_heap, done_work)).1) = 1%nat.
Proof. vm_compute. reflexivity. Qed.

Lemma on_ok_publishes_at_most_once_witness :
  (published 10
     (trace (@run Samples.api Samples.base_hooks
               [Call_on_ok 1; Environment (fun h => h); Call_on_ok 1]
               (Samples.world done_heap, done_work)).1) <= 1)%nat.
Proof.
  apply (proj2 (@on_ok_publishes_at_most_once Samples.api Samples.base_hooks
                  done_work (Samples.world done_heap))); reflexivity.
Defined.

(** With a hook that raises, [on_ok] returns no result at all: the
    exception of the hook is the outcome of the call. *)
Lemma on_ok_raising_hook_returns_no_result :
  all_ok done_heap done_work = true
  /\ Workflow.finalized done_work = false
  /\ (@on_all_ok Samples.raising_hooks done_work done_heap).2 = Raise (UserError 1)
  /\ ~ (exists results,
          (@Workflow.on_ok Samples.api Samples.raising_hooks 1%nat done_work
             (Samples.world done_heap)).2 = Ret results
          /\ returncode results <> 0).
Proof.
  split; [reflexivity|]. split; [reflexivity|]. split; [reflexivity|].
  intros (results & Hres & _). vm_compute in Hres. discriminate.
Qed.

End FinalizationExamples.

Section HookFailure.
Context `{TaskApi} `{WorkflowHooks}.

(** C4, amended: when all tasks are at S_OK and the workflow is not
    finalized, an exception raised by [on_all_ok] is not caught: it
    leaves [on_ok], the workflow is unchanged and so not finalized, and
    no signal is sent. *)
Theorem on_ok_hook_exception_propagates :
  forall (w : Workflow) (st : World) (sender : nat) (h1 : gmap nat Task) (e : Exc),
    all_ok (heap st) w = true ->
    Workflow.finalized w = false ->
    on_all_ok w (heap st) = (h1, Raise e) ->
    let '(st', w', r) := Workflow.on_ok sender w st in
    r = Raise e
    /\ w' = w
    /\ Workflow.finalized w' = false
    /\ trace st' = trace st
    /\ published (w_node_id w) (trace st') = published (w_node_id w) (trace st).
Proof.
  intros w st sender h1 e Hall Hfin Hhook.
  rewrite (on_ok_hook_raises sender w st h1 e) by done.
  now repeat split.
Qed.

End HookFailure.

Lemma on_ok_hook_exception_propagates_witness :
  (@Workflow.on_ok Samples.api Samples.raising_hooks 1%nat done_work
     (Samples.world done_heap)).2 = Raise (UserError 1).
Proof.
  pose proof (@on_ok_hook_exception_propagates Samples.api Samples.raising_hooks
                done_work (Samples.world done_heap) 1%nat done_heap (UserError 1)
                eq_refl eq_refl eq_refl) as Hprop.
  destruct (@Workflow.on_ok Samples.api Samples.raising_hooks 1%nat done_work
              (Samples.world done_heap)) as [[st' w'] r].
  exact (proj1 Hprop).
Defined.

(** * Fetching the next task *)

Section Fetch.

Lemma is_completed_true (t : Task) : is_completed t = true <-> completed t.
Proof.
  unfold is_completed, completed.
  rewrite andb_true_iff, leb_le, eqb_eq. done.
Qed.

Lemma deps_all_ok_true (h : gmap nat Task) (t : Task) :
  deps_all_ok h t = true
  <-> Forall (fun d => node_status h (dep_node d) = S_OK) (t_deps t).
Proof.
  unfold deps_all_ok, deps_status. rewrite all_Forall.
  change (map ?f ?l) with (f <$> l). rewrite !Forall_fmap.
  apply Forall_iff. intros d. cbn. apply eqb_eq.
Qed.

Lemma can_run_true (h : gmap nat Task) (t : Task) :
  can_run h t = true <-> runnable h t.
Proof.
  unfold can_run, runnable.
  rewrite andb_true_iff, eqb_eq, deps_all_ok_true. done.
Qed.

(** The three ways out of [fetch_task_to_run], for any two task
    properties. *)
Lemma fetch_task_to_run_with_cases
    (completed_b : Task -> bool) (can_run_b : gmap nat Task -> Task -> bool)
    (w : Workflow) (st : World) :
  let its := Workflow.items (heap st) w in
  let out := Workflow.fetch_task_to_run_with completed_b can_run_b w st in
  (Forall (fun it => completed_b it.2 = true) its /\ out = (st, Raise StopIteration))
  \/ (~ Forall (fun it => completed_b it.2 = true) its
      /\ exists i r t,
           its !! i = Some (r, t) /\ can_run_b (heap st) t = true
           /\ (forall j it, its !! j = Some it -> (j < i)%nat ->
                 can_run_b (heap st) it.2 <> true)
           /\ out = (st, Ret (Some r)))
  \/ (~ Forall (fun it => completed_b it.2 = true) its
      /\ Forall (fun it => can_run_b (heap st) it.2 <> true) its
      /\ out = (emit (Logged "Possible deadlock in fetch_task_to_run!") st, Ret None)).
Proof.
  intros its out. unfold out, Workflow.fetch_task_to_run_with. fold its.
  destruct (all (map (fun it => completed_b it.2) its)) eqn:Hall.
  - left. split; [|done].
    apply all_Forall in Hall. change (map ?f ?l) with (f <$> l) in Hall.
    now rewrite Forall_fmap in Hall.
  - right.
    assert (Hnot : ~ Forall (fun it => completed_b it.2 = true) its).
    { intros Hf. apply not_true_iff_false in Hall. apply Hall.
      apply all_Forall. change (map ?f ?l) with (f <$> l).
      now rewrite Forall_fmap. }
    destruct (list_find _ its) as [[i [r t]]|] eqn:Hfind.
    + left. split; [done|]. apply list_find_Some in Hfind as (Hi & Hrun & Hfirst).
      exists i, r, t. repeat split; try done;
        intros j it Hj Hlt; now apply (Hfirst j it).
    + right. split; [done|]. apply list_find_None in Hfind. now split.
Qed.

(** A first index with a property is unique. *)
Lemma first_index_unique {A} (P : A -> Prop) (l : list A) (i j : nat) (x y : A) :
  l !! i = Some x -> P x -> (forall k z, l !! k = Some z -> (k < i)%nat -> ~ P z) ->
  l !! j = Some y -> P y -> (forall k z, l !! k = Some z -> (k < j)%nat -> ~ P z) ->
  i = j.
Proof.
  intros Hi Px Hfi Hj Py Hfj.
  destruct (Nat.lt_trichotomy i j) as [Hlt|[Heq|Hgt]]; [|done|].
  - now destruct (Hfj i x Hi Hlt).
  - now destruct (Hfi j y Hj Hgt).
Qed.

(** C5: [fetch_task_to_run] raises StopIteration exactly when every task
    is completed; otherwise it returns the first task, in index order,
    that is at S_READY with all dependencies at S_OK; and when no task is
    runnable while some task is not completed, it returns [None] after
    logging the possible-deadlock warning. *)
Theorem fetch_task_to_run_cases :
  forall (w : Workflow) (st : World),
    let its := Workflow.items (heap st) w in
    let '(st', r) := Workflow.fetch_task_to_run w st in
    (r = Raise StopIteration <-> Forall (fun it => completed it.2) its)
    /\ (forall ref,
          r = Ret (Some ref)
          <-> ~ Forall (fun it => completed it.2) its
              /\ exists i t,
                   its !! i = Some (ref, t) /\ runnable (heap st) t
                   /\ forall j it, its !! j = Some it -> (j < i)%nat ->
                        ~ runnable (heap st) it.2)
    /\ (r = Ret None
        <-> ~ Forall (fun it => completed it.2) its
            /\ Forall (fun it => ~ runnable (heap st) it.2) its)
    /\ (r = Ret None ->
        heap st' = heap st
        /\ trace st' = trace st ++ [Logged "Possible deadlock in fetch_task_to_run!"])
    /\ (r <> Ret None -> st' = st).
Proof.
  intros w st its. subst its.
  assert (Hc : Forall (fun it : nat * Task => is_completed it.2 = true)
                 (Workflow.items (heap st) w)
               <-> Forall (fun it => completed it.2) (Workflow.items (heap st) w)).
  { apply Forall_iff. intros it. apply is_completed_true. }
  assert (Hr : Forall (fun it : nat * Task => can_run (heap st) it.2 <> true)
                 (Workflow.items (heap st) w)
               <-> Forall (fun it => ~ runnable (heap st) it.2)
                     (Workflow.items (heap st) w)).
  { apply Forall_iff. intros it. now rewrite can_run_true. }
  unfold Workflow.fetch_task_to_run.
  pose proof (fetch_task_to_run_with_cases is_completed can_run w st) as Hcases.
  cbv zeta in Hcases.
  destruct Hcases
    as [(Hall & ->)|[(Hnot & i & r0 & t & Hi & Hrun & Hfirst & ->)
                    |(Hnot & Hnone & ->)]].
  - rewrite Hc in Hall. split; [done|]. split; [|split; [|split; [done|done]]].
    + intros ref. split; [done|]. now intros (Hn & _).
    + split; [done|]. now intros (Hn & _).
  - rewrite Hc in Hnot. apply can_run_true in Hrun.
    assert (Hfirst' : forall j it, Workflow.items (heap st) w !! j = Some it -> (j < i)%nat ->
                        ~ runnable (heap st) it.2).
    { intros j it Hj Hlt. rewrite <- can_run_true. now apply (Hfirst j it). }
    split; [done|]. split; [|split; [|split; [done|done]]].
    + intros ref. split.
      * intros [= <-]. split; [done|]. now exists i, t.
      * intros (_ & i' & t' & Hi' & Hrun' & Hfirst'').
        assert (i = i') as <-.
        { eapply (first_index_unique (fun it => runnable (heap st) it.2));
            [exact Hi|exact Hrun|exact Hfirst'|exact Hi'|exact Hrun'|exact Hfirst'']. }
        rewrite Hi in Hi'. now injection Hi' as -> _.
    + split; [done|]. intros (_ & Hnone).
      rewrite Forall_lookup in Hnone. now destruct (Hnone i _ Hi).
  - rewrite Hc in Hnot. rewrite Hr in Hnone.
    split; [done|]. split; [|split; [done|split; [done|done]]].
    intros ref. split; [done|].
    intros (_ & i & t & Hi & Hrun & _).
    rewrite Forall_lookup in Hnone. now destruct (Hnone i _ Hi).
Qed.

End Fetch.

Section FetchExamples.

Example fetch_ready_task :
  Workflow.fetch_task_to_run two_tasks (Samples.world ready_heap)
  = (Samples.world ready_heap, Ret (Some 2%nat)).
Proof. vm_compute. reflexivity. Qed.

Example fetch_stuck_workflow :
  Workflow.fetch_task_to_run two_tasks (Samples.world stuck_heap)
  = (mkWorld stuck_heap ∅ [Logged "Possible deadlock in fetch_task_to_run!"],
     Ret None).
Proof. vm_compute. reflexivity. Qed.

Example fetch_all_done :
  Workflow.fetch_task_to_run (Samples.work 10 [1%nat]) (Samples.world ready_heap)
  = (Samples.world ready_heap, Raise StopIteration).
Proof. vm_compute. reflexivity. Qed.

Lemma fetch_task_to_run_cases_witness :
  ~ Forall (fun it => completed it.2) (Workflow.items ready_heap two_tasks).
Proof.
  pose proof (fetch_task_to_run_cases two_tasks (Samples.world ready_heap)) as Hc.
  cbv zeta in Hc.
  change (Workflow.fetch_task_to_run two_tasks (Samples.world ready_heap))
    with (Samples.world ready_heap, Ret (Some 2%nat)) in Hc.
  destruct Hc as (Hstop & _). intros Hall. apply Hstop in Hall. discriminate.
Defined.

End FetchExamples.

(** * Readiness: [Workflow.check_status] *)

Section Readiness.
Context `{TaskApi}.

Lemma promote_eligible (h : gmap nat Task) (r : nat) :
  Workflow.promote h r = if eligible h r then set_status S_READY r h else h.
Proof.
  unfold Workflow.promote, eligible. destruct (h !! r) as [task|]; [|done].
  now destruct (leb _ _ && _).
Qed.

Lemma promote_lookup (h : gmap nat Task) (a r : nat) :
  Workflow.promote h a !! r
  = if eligible h a && bool_decide (r = a)
    then with_status S_READY <$> h !! r
    else h !! r.
Proof.
  rewrite promote_eligible. destruct (eligible h a); [|done].
  unfold set_status. rewrite lookup_alter. cbn [andb].
  destruct (decide (a = r)) as [->|Hne].
  - now rewrite bool_decide_eq_true_2.
  - rewrite bool_decide_eq_false_2; [done|congruence].
Qed.

Lemma eligible_not_ok (h : gmap nat Task) (a : nat) :
  eligible h a = true -> eqb (node_status h a) S_OK = false.
Proof.
  unfold eligible, node_status. destruct (h !! a) as [task|]; [|done].
  cbn. intros [Hle _]%andb_true_iff. destruct (t_status task); done.
Qed.

(** A promotion never makes or unmakes an S_OK. *)
Lemma promote_keeps_ok (h : gmap nat Task) (a r : nat) :
  eqb (node_status (Workflow.promote h a) r) S_OK = eqb (node_status h r) S_OK.
Proof.
  unfold node_status at 1. rewrite promote_lookup.
  destruct (eligible h a) eqn:He; [|done]. cbn [andb].
  destruct (bool_decide (r = a)) eqn:Hra; [|done].
  apply bool_decide_eq_true in Hra as ->.
  rewrite (eligible_not_ok h a He).
  unfold eligible in He. destruct (h !! a); [done|discriminate].
Qed.

Lemma promote_keeps_deps_all_ok (h : gmap nat Task) (a : nat) (task : Task) :
  deps_all_ok (Workflow.promote h a) task = deps_all_ok h task.
Proof.
  unfold deps_all_ok, deps_status. f_equal. rewrite !map_map.
  apply map_ext. intros d. apply promote_keeps_ok.
Qed.

Lemma promote_keeps_eligible (h : gmap nat Task) (a r : nat) :
  eligible (Workflow.promote h a) r = eligible h r.
Proof.
  unfold eligible at 1. rewrite promote_lookup.
  destruct (eligible h a && bool_decide (r = a)) eqn:Hc.
  - apply andb_true_iff in Hc as [He ->%bool_decide_eq_true].
    rewrite He. unfold eligible in He |- *.
    destruct (h !! a) as [task|]; [|discriminate].
    cbn [fmap option_fmap option_map].
    rewrite promote_keeps_deps_all_ok.
    change (deps_all_ok h (with_status S_READY task)) with (deps_all_ok h task).
    apply andb_true_iff in He as [_ ->]. done.
  - unfold eligible. destruct (h !! r) as [task|]; [|done].
    now rewrite promote_keeps_deps_all_ok.
Qed.

Lemma with_status_idem (s : Status) (o : option Task) :
  with_status s <$> (with_status s <$> o) = with_status s <$> o.
Proof. now destruct o. Qed.

(** The second loop, as one update of the heap it starts from. *)
Lemma promote_all_lookup (l : list nat) (h : gmap nat Task) (r : nat) :
  foldl Workflow.promote h l !! r
  = if eligible h r && bool_decide (r ∈ l)
    then with_status S_READY <$> h !! r
    else h !! r.
Proof.
  revert h. induction l as [|a l IH]; intros h; cbn [foldl].
  - rewrite bool_decide_eq_false_2 by apply not_elem_of_nil.
    now rewrite andb_false_r.
  - rewrite IH, promote_keeps_eligible, promote_lookup.
    destruct (decide (r = a)) as [->|Hne].
    + rewrite (bool_decide_eq_true_2 (a = a)) by done.
      rewrite (bool_decide_eq_true_2 (a ∈ a :: l)) by apply list_elem_of_here.
      destruct (eligible h a); cbn [andb]; [|done].
      rewrite with_status_idem. now destruct (bool_decide (a ∈ l)).
    + rewrite (bool_decide_eq_false_2 (r = a)) by done.
      rewrite andb_false_r.
      destruct (decide (r ∈ l)) as [Hin|Hnin].
      * rewrite !bool_decide_eq_true_2; [done|now apply list_elem_of_further|done].
      * rewrite !bool_decide_eq_false_2; [done| |done].
        intros [->|Hin]%elem_of_cons; done.
Qed.

Lemma check_status_lookup (w : Workflow) (h : gmap nat Task) (r : nat) :
  Workflow.check_status w h !! r
  = if eligible (after_checks w h) r && bool_decide (r ∈ _tasks w)
    then with_status S_READY <$> after_checks w h !! r
    else after_checks w h !! r.
Proof. unfold Workflow.check_status. apply promote_all_lookup. Qed.

Lemma promote_all_keeps_ok (l : list nat) (h : gmap nat Task) (r : nat) :
  eqb (node_status (foldl Workflow.promote h l) r) S_OK = eqb (node_status h r) S_OK.
Proof.
  revert h. induction l as [|a l IH]; intros h; cbn [foldl]; [done|].
  now rewrite IH, promote_keeps_ok.
Qed.

Lemma eligible_true (h : gmap nat Task) (r : nat) :
  eligible h r = true
  <-> exists task, h !! r = Some task
        /\ rank (t_status task) <= rank S_SUB
        /\ Forall (fun d => node_status h (dep_node d) = S_OK) (t_deps task).
Proof.
  unfold eligible. destruct (h !! r) as [task|].
  - rewrite andb_true_iff, leb_le, deps_all_ok_true. split.
    + intros [Hle Hdeps]. now exists task.
    + now intros (task' & [= <-] & Hle & Hdeps).
  - split; [done|]. now intros (task' & [=] & _).
Qed.

(** C7: after [check_status], every task of the workflow that, once the
    per-task checks are done, has a status at or below S_SUB and all its
    upstream nodes at S_OK is at S_READY (so is a task without
    dependencies); a node whose status becomes S_READY in the second loop
    is such a task, with all its upstream nodes at S_OK before and after;
    every other node is left as the per-task checks left it. *)
Theorem check_status_sets_ready :
  forall (w : Workflow) (h : gmap nat Task) (r : nat) (task : Task),
    let h1 := after_checks w h in
    let h2 := Workflow.check_status w h in
    h1 !! r = Some task ->
    (r ∈ _tasks w ->
     rank (t_status task) <= rank S_SUB ->
     Forall (fun d => node_status h1 (dep_node d) = S_OK) (t_deps task) ->
     h2 !! r = Some (with_status S_READY task) /\ node_status h2 r = S_READY)
    /\ (r ∈ _tasks w -> rank (t_status task) <= rank S_SUB -> t_deps task = [] ->
        node_status h2 r = S_READY)
    /\ (t_status task <> S_READY -> node_status h2 r = S_READY ->
        r ∈ _tasks w
        /\ rank (t_status task) <= rank S_SUB
        /\ Forall (fun d => node_status h1 (dep_node d) = S_OK) (t_deps task)
        /\ Forall (fun d => node_status h2 (dep_node d) = S_OK) (t_deps task))
    /\ (~ (r ∈ _tasks w
           /\ rank (t_status task) <= rank S_SUB
           /\ Forall (fun d => node_status h1 (dep_node d) = S_OK) (t_deps task)) ->
        h2 !! r = Some task).
Proof.
  intros w h r task h1 h2 Hr.
  assert (Hlook : h2 !! r
                  = if eligible h1 r && bool_decide (r ∈ _tasks w)
                    then Some (with_status S_READY task) else Some task).
  { unfold h2. rewrite check_status_lookup. fold h1. rewrite Hr. done. }
  assert (Hel : eligible h1 r = true
                <-> rank (t_status task) <= rank S_SUB
                    /\ Forall (fun d => node_status h1 (dep_node d) = S_OK)
                         (t_deps task)).
  { rewrite eligible_true. split.
    - intros (task' & Ht & Hle & Hd). rewrite Hr in Ht. now injection Ht as <-.
    - intros [Hle Hd]. now exists task. }
  assert (Hready : r ∈ _tasks w -> rank (t_status task) <= rank S_SUB ->
                   Forall (fun d => node_status h1 (dep_node d) = S_OK) (t_deps task) ->
                   h2 !! r = Some (with_status S_READY task)
                   /\ node_status h2 r = S_READY).
  { intros Hin Hle Hd. rewrite Hlook.
    rewrite (proj2 Hel (conj Hle Hd)), bool_decide_eq_true_2 by done. cbn [andb].
    split; [done|]. unfold node_status. now rewrite Hlook,
      (proj2 Hel (conj Hle Hd)), bool_decide_eq_true_2 by done. }
  split; [exact Hready|]. split; [|split].
  - intros Hin Hle Hnil. apply Hready; [done|done|]. rewrite Hnil. constructor.
  - intros Hnr Hst. unfold node_status in Hst. rewrite Hlook in Hst.
    destruct (eligible h1 r) eqn:He; [|now cbn in Hst].
    destruct (bool_decide (r ∈ _tasks w)) eqn:Hin; [|now cbn in Hst].
    apply bool_decide_eq_true in Hin. destruct (proj1 Hel eq_refl) as [Hle Hd].
    split; [done|]. split; [done|]. split; [done|].
    eapply Forall_impl; [exact Hd|]. intros d Hok. cbn in Hok |- *.
    apply eqb_eq. unfold h2, Workflow.check_status.
    rewrite promote_all_keeps_ok. now apply eqb_eq.
  - intros Hnot. rewrite Hlook.
    destruct (eligible h1 r) eqn:He; [|done].
    destruct (bool_decide (r ∈ _tasks w)) eqn:Hin; [|done].
    apply bool_decide_eq_true in Hin. destruct (proj1 Hel eq_refl) as [Hle Hd].
    now destruct Hnot.
Qed.

End Readiness.

Section ReadinessExamples.

Example check_status_chain :
  map (node_status (@Workflow.check_status Samples.api chain_work chain_heap))
      [1%nat; 2%nat; 3%nat; 4%nat]
  = [S_OK; S_READY; S_INIT; S_READY].
Proof. vm_compute. reflexivity. Qed.

Lemma check_status_sets_ready_witness :
  node_status (@Workflow.check_status Samples.api chain_work chain_heap) 2%nat
  = S_READY.
Proof.
  assert (Hlook : @after_checks Samples.api chain_work chain_heap !! 2%nat
                  = Some (Samples.task 2 S_INIT [mkDependency 1 ["DEN"]] 1)).
  { vm_compute. reflexivity. }
  apply (proj1 (@check_status_sets_ready Samples.api chain_work chain_heap 2%nat
                  _ Hlook)).
  - unfold chain_work, Samples.work. cbn. set_solver.
  - vm_compute. discriminate.
  - repeat constructor.
Defined.

End ReadinessExamples.

(** * Working directories *)

Section Workdir.
Context `{Abspath}.

Lemma set_workdir_fresh (w : Workflow) (wd : string) :
  workdir w = None ->
  exists w', Workflow.set_workdir wd w = Ret w' /\ workdir w' = Some (abspath wd).
Proof.
  intros Hnone. unfold Workflow.set_workdir. rewrite Hnone. eauto.
Qed.

Lemma set_workdir_same (w : Workflow) (cur : string) :
  workdir w = Some cur -> abspath cur = cur ->
  exists w',
    Workflow.set_workdir cur w = Ret w'
    /\ workdir w' = Some cur
    /\ _tasks w' = _tasks w /\ _finalized w' = _finalized w
    /\ manager w' = manager w /\ w_node_id w' = w_node_id w.
Proof.
  intros Hcur Habs. unfold Workflow.set_workdir. rewrite Hcur.
  rewrite bool_decide_eq_false_2 by (intros Hne; now apply Hne).
  rewrite Habs. eexists. split; [reflexivity|]. now repeat split.
Qed.

Lemma set_workdir_other (w : Workflow) (cur wd : string) :
  workdir w = Some cur -> wd <> cur ->
  Workflow.set_workdir wd w = Raise ValueError.
Proof.
  intros Hcur Hne. unfold Workflow.set_workdir. rewrite Hcur.
  rewrite bool_decide_eq_true_2; [done|congruence].
Qed.

Lemma try_set_workdir_fixed (w : Workflow) (cur wd : string) :
  workdir w = Some cur -> abspath cur = cur ->
  workdir (try_set_workdir w wd) = Some cur.
Proof.
  intros Hcur Habs. unfold try_set_workdir.
  destruct (decide (wd = cur)) as [->|Hne].
  - destruct (set_workdir_same w cur Hcur Habs) as (w' & -> & Hw' & _). done.
  - now rewrite (set_workdir_other w cur wd Hcur Hne).
Qed.

Lemma set_workdir_calls_fixed (wds : list string) (w : Workflow) (cur : string) :
  workdir w = Some cur -> abspath cur = cur ->
  workdir (foldl try_set_workdir w wds) = Some cur.
Proof.
  revert w. induction wds as [|wd wds IH]; intros w Hcur Habs; [done|].
  cbn [foldl]. apply IH; [|done]. now apply try_set_workdir_fixed.
Qed.

(** A round of [allocate] touches the task it is on and no other. *)
Lemma allocate_task_other (w : Workflow) (i r r' : nat) (task : Task)
    (h : gmap nat Task) :
  r' <> r -> (Workflow.allocate_task w i r task h).1 !! r' = h !! r'.
Proof.
  intros Hne. unfold Workflow.allocate_task.
  destruct (t_manager task); [|destruct (manager w); [|done]];
    cbv zeta; destruct (workdir w); cbn [fst];
    try (now rewrite lookup_insert_ne);
    (destruct (t_workdir _);
     [destruct (bool_decide _); cbn [fst]; now rewrite lookup_insert_ne
     |cbn [fst]; now rewrite !lookup_insert_ne]).
Qed.

(** On a workflow with a workdir, a round raises ValueError, or
    AttributeError for a manager that the workflow does not have. *)
Lemma allocate_task_raise (w : Workflow) (wd : string) (i r : nat) (task : Task)
    (h : gmap nat Task) (e : Exc) :
  workdir w = Some wd ->
  (Workflow.allocate_task w i r task h).2 = Raise e ->
  e = ValueError \/ (manager w = None /\ e = AttributeError).
Proof.
  intros Hwd. unfold Workflow.allocate_task. rewrite Hwd.
  destruct (t_manager task); [|destruct (manager w); [|intros [= <-]; now right]];
    cbv zeta;
    (destruct (t_workdir _); [destruct (bool_decide _)|]; cbn [snd];
     intros [= <-]; now left).
Qed.

(** A round on a task whose working directory is not the canonical one
    raises. *)
Lemma allocate_task_mismatch (w : Workflow) (wd twd : string) (i r : nat)
    (task : Task) (h : gmap nat Task) :
  workdir w = Some wd -> t_workdir task = Some twd -> twd <> canonical wd i ->
  exists e, (Workflow.allocate_task w i r task h).2 = Raise e.
Proof.
  intros Hwd Htwd Hne. unfold Workflow.allocate_task. rewrite Hwd.
  destruct (t_manager task); [|destruct (manager w); [|now eexists]];
    cbv zeta; cbn [t_workdir set_manager]; rewrite Htwd;
    fold (canonical wd i); rewrite bool_decide_eq_true_2 by done; now eexists.
Qed.

(** [allocate] meets a task whose working directory is not the canonical
    one: it raises. *)
Lemma allocate_from_mismatch (w : Workflow) (wd : string) (rs : list nat) :
  workdir w = Some wd ->
  forall (i0 : nat) (h : gmap nat Task) (k r : nat) (task : Task) (twd : string),
    NoDup rs -> rs !! k = Some r -> h !! r = Some task ->
    t_workdir task = Some twd -> twd <> canonical wd (i0 + k) ->
    (Workflow.allocate_from w i0 rs h).2 = Raise ValueError
    \/ (manager w = None
        /\ (Workflow.allocate_from w i0 rs h).2 = Raise AttributeError).
Proof.
  intros Hwd. induction rs as [|a rs IH];
    intros i0 h k r task twd Hnd Hk Hr Htwd Hne; [done|].
  apply NoDup_cons in Hnd as [Hnotin Hnd].
  cbn [Workflow.allocate_from].
  destruct k as [|k].
  - injection Hk as ->. rewrite Nat.add_0_r in Hne. rewrite Hr.
    destruct (allocate_task_mismatch w wd twd i0 r task h Hwd Htwd Hne) as [e He].
    pose proof (allocate_task_raise w wd i0 r task h e Hwd He) as Hkind.
    destruct (Workflow.allocate_task w i0 r task h) as [h' res].
    cbn [snd] in He. subst res. cbn [snd].
    destruct Hkind as [->|[Hm ->]]; [now left|now right].
  - cbn in Hk.
    assert (Hra : r <> a).
    { intros ->. apply Hnotin. eapply list_elem_of_lookup_2. exact Hk. }
    assert (Hidx : (i0 + S k = S i0 + k)%nat) by lia. rewrite Hidx in Hne.
    destruct (h !! a) as [ta|] eqn:Ha; [|now apply (IH (S i0) h k r task twd)].
    pose proof (allocate_task_other w i0 a r ta h Hra) as Hother.
    pose proof (allocate_task_raise w wd i0 a ta h) as Hkind.
    destruct (Workflow.allocate_task w i0 a ta h) as [h' [u|e]].
    + apply (IH (S i0) h' k r task twd); try done.
      cbn [fst] in Hother. now rewrite Hother.
    + cbn [snd] in *. destruct (Hkind e Hwd eq_refl) as [->|[Hm ->]];
        [now left|now right].
Qed.

End Workdir.

Section WorkdirRule.
Context `{Abspath}.

(** C8: a workflow whose workdir was set (to [abspath p]) keeps it for
    ever: [set_workdir] with that same path returns normally and leaves
    the workdir, the tasks and the other attributes as they are;
    [set_workdir] with any other path raises ValueError, and the workflow
    is as before; so whatever calls follow, the workdir stays.  [allocate]
    applies the rule to the tasks, which are distinct objects: it raises
    as soon as a task has a workdir that is not [workdir/task_i]. *)
Theorem set_workdir_at_most_once :
  forall (w : Workflow) (p : string),
    workdir w = Some (abspath p) ->
    (exists w',
       Workflow.set_workdir (abspath p) w = Ret w'
       /\ workdir w' = workdir w /\ _tasks w' = _tasks w
       /\ manager w' = manager w /\ _finalized w' = _finalized w)
    /\ (forall wd, wd <> abspath p ->
          Workflow.set_workdir wd w = Raise ValueError
          /\ try_set_workdir w wd = w)
    /\ (forall wds, workdir (foldl try_set_workdir w wds) = workdir w)
    /\ (forall (h : gmap nat Task) (i r : nat) (task : Task) (twd : string),
          NoDup (_tasks w) -> _tasks w !! i = Some r -> h !! r = Some task ->
          t_workdir task = Some twd ->
          twd <> join (abspath p) ("task_" +:+ pretty i) ->
          (Workflow.allocate w h).2 = Raise ValueError
          \/ (manager w = None
              /\ (Workflow.allocate w h).2 = Raise AttributeError)).
Proof.
  intros w p Hwd. split; [|split; [|split]].
  - destruct (set_workdir_same w (abspath p) Hwd (abspath_idem p))
      as (w' & Hset & Hw' & Ht & Hf & Hm & _).
    exists w'. rewrite Hwd. now repeat split.
  - intros wd Hne. pose proof (set_workdir_other w (abspath p) wd Hwd Hne) as Hraise.
    split; [done|]. unfold try_set_workdir. now rewrite Hraise.
  - intros wds. rewrite Hwd.
    apply set_workdir_calls_fixed; [done|apply abspath_idem].
  - intros h i r task twd Hnd Hi Hr Htwd Hne. unfold Workflow.allocate.
    now apply (allocate_from_mismatch w (abspath p) (_tasks w) Hwd 0 h i r task twd).
Qed.

(** The first call, on a workflow without workdir, takes any path. *)
Lemma set_workdir_first_call (nid : nat) (p : string) (wds : list string) :
  workdir (foldl try_set_workdir (Workflow.init nid) (p :: wds)) = Some (abspath p).
Proof.
  cbn [foldl].
  destruct (set_workdir_fresh (Workflow.init nid) p eq_refl) as (w' & Hset & Hw').
  unfold try_set_workdir at 2. rewrite Hset.
  apply set_workdir_calls_fixed; [done|apply abspath_idem].
Qed.

End WorkdirRule.

Section WorkdirExamples.

Lemma abspath_root_idem (p : string) :
  abspath_root (abspath_root p) = abspath_root p.
Proof.
  unfold abspath_root. destruct (startswith_slash p) eqn:Hs; [now rewrite Hs|done].
Qed.

Example set_workdir_twice :
  @Workflow.set_workdir root_abspath "/run/work_0" placed_work = Ret placed_work
  /\ @Workflow.set_workdir root_abspath "/run/work_1" placed_work = Raise ValueError
  /\ @Workflow.set_workdir root_abspath "run/work_0" placed_work = Raise ValueError.
Proof. vm_compute. auto. Qed.

Example allocate_misplaced_task :
  (Workflow.allocate placed_work misplaced_heap).2 = Raise ValueError
  /\ (Workflow.allocate placed_work misplaced_heap).1 !! 1%nat
     = Some (mkTask 1 S_INIT [] 1 (Some "/run/work_0/task_0") (Some 0%nat)).
Proof. vm_compute. auto. Qed.

Lemma set_workdir_at_most_once_witness :
  @Workflow.set_workdir root_abspath "/run/work_1" placed_work = Raise ValueError.
Proof.
  apply (proj1 (proj2 (@set_workdir_at_most_once root_abspath placed_work
                         "/run/work_0" eq_refl))).
  discriminate.
Defined.

End WorkdirExamples.

(** * The iteration of an [IterativeWorkflow] *)

Section Iteration.
Context `{TaskApi} `{IterativeHooks}.










End Iteration.

Section IterationRule.
Context `{TaskApi} `{IterativeHooks}.


End IterationRule.

Section IterationExamples.

(** Scenario E4: [max_niter = 5], exit on the third iteration: three tasks
    are registered and run, and the producer was asked three times. *)
Example submit_tasks_exit_on_third :
  let '(st', iw', out) :=
    @IterativeWorkflow.submit_tasks Samples.api (exit_at 3) 10 five_rounds
      (Samples.world ∅) in
  out = Some (Ret ())
  /\ _tasks (base iw') = [0; 1; 2]%nat
  /\ gen_pos (strategy_generator iw') = 3%nat
  /\ trace st' = [Started 0; Waited 0; Started 1; Waited 1; Started 2; Waited 2].
Proof. vm_compute. auto. Qed.

(** Without exit, the loop is left at the limit, after five tasks. *)
Example submit_tasks_limit :
  let '(st', iw', out) :=
    @IterativeWorkflow.submit_tasks Samples.api never_exit 10 five_rounds
      (Samples.world ∅) in
  out = Some (Ret ()) /\ _tasks (base iw') = [0; 1; 2; 3; 4]%nat.
Proof. vm_compute. auto. Qed.

(** With [max_niter = 0] and no exit, the loop is still running after
    seven iterations, with seven tasks registered and run. *)
Example submit_tasks_unbounded :
  let '(st', iw', out) :=
    @IterativeWorkflow.submit_tasks Samples.api never_exit 7
      (IterativeWorkflow.init 10 endless 0) (Samples.world ∅) in
  out = None /\ length (_tasks (base iw')) = 7%nat
  /\ trace st' = run_events (_tasks (base iw')).
Proof. vm_compute. auto. Qed.



End IterationExamples.

(** * Convergence checks *)

Section ConvergenceFacts.
Context {V : Type} `{Numbers V}.

Lemma py_index_nat {A} (l : list A) (i : nat) :
  py_index l (Z.of_nat i)
  = match l !! i with Some x => Ret x | None => Raise IndexError end.
Proof.
  unfold py_index. cbv zeta.
  rewrite (proj2 (Z.ltb_ge _ _)) by lia.
  rewrite (proj2 (Z.leb_le _ _)) by lia. cbn [andb].
  rewrite Nat2Z.id.
  destruct (Z.of_nat i <? Z.of_nat (length l)) eqn:Hlt; [done|].
  apply Z.ltb_ge in Hlt. rewrite lookup_ge_None_2 by lia. done.
Qed.

Lemma py_index_from_end {A} (l : list A) (k : nat) :
  (0 < k)%nat ->
  py_index l (- Z.of_nat k)
  = if decide (k <= length l)%nat
    then match l !! (length l - k)%nat with
         | Some x => Ret x
         | None => Raise IndexError
         end
    else Raise IndexError.
Proof.
  intros Hk. unfold py_index. cbv zeta.
  rewrite (proj2 (Z.ltb_lt _ _)) by lia.
  destruct (decide (k <= length l)%nat) as [Hle|Hgt].
  - rewrite (proj2 (Z.leb_le _ _)) by lia.
    rewrite (proj2 (Z.ltb_lt _ _)) by lia. cbn [andb].
    replace (Z.to_nat (- Z.of_nat k + Z.of_nat (length l)))
      with (length l - k)%nat by lia.
    done.
  - rewrite (proj2 (Z.leb_gt _ _)) by lia. done.
Qed.

(** The downward loop stops at the last index whose value is above the
    tolerance, and at 0 when there is none. *)
Lemma scan_down_stops (vdiff : list V) (tol : V) (n : nat) :
  (n < length vdiff)%nat ->
  exists i,
    Convergence.scan_down vdiff tol n = Ret i
    /\ (i <= n)%nat
    /\ (forall j x, (i < j <= n)%nat -> vdiff !! j = Some x -> num_lt tol x = false)
    /\ ((exists x, vdiff !! i = Some x /\ num_lt tol x = true)
        \/ (i = 0%nat /\ forall x, vdiff !! 0%nat = Some x -> num_lt tol x = false)).
Proof.
  induction n as [|n IH]; intros Hn.
  - destruct (lookup_lt_is_Some_2 vdiff 0 Hn) as [x Hx].
    cbn [Convergence.scan_down]. rewrite py_index_nat, Hx.
    exists 0%nat. destruct (num_lt tol x) eqn:Hab.
    + split; [done|]. split; [done|]. split; [intros j y Hj; lia|].
      left. now exists x.
    + split; [done|]. split; [done|]. split; [intros j y Hj; lia|].
      right. split; [done|]. intros y Hy. congruence.
  - destruct (lookup_lt_is_Some_2 vdiff (S n) Hn) as [x Hx].
    cbn [Convergence.scan_down]. rewrite py_index_nat, Hx.
    destruct (num_lt tol x) eqn:Hab.
    + exists (S n). split; [done|]. split; [done|]. split; [intros j y Hj; lia|].
      left. now exists x.
    + destruct IH as (i & Hrun & Hle & Hbelow & Hat); [lia|].
      exists i. split; [done|]. split; [lia|]. split; [|done].
      intros j y Hj Hy. destruct (decide (j = S n)) as [->|Hne].
      * congruence.
      * apply (Hbelow j y); [lia|done].
Qed.

(** The ways through the second half of [check_conv]. *)
Lemma leftmost_converged_cases (vdiff : list V) (tol : V) (m : Z) :
  let n := length vdiff in
  let lc := Convergence.leftmost_converged vdiff tol m in
  (Z.of_nat n <= m /\ lc = Ret (-1))
  \/ (m < Z.of_nat n /\ (n < 2)%nat /\ lc = Raise IndexError)
  \/ (m < Z.of_nat n /\ (2 <= n)%nat
      /\ exists x, vdiff !! (n - 2)%nat = Some x /\ num_lt x tol = false
                   /\ lc = Ret (-1))
  \/ (m < Z.of_nat n /\ (2 <= n)%nat
      /\ exists x i,
           vdiff !! (n - 2)%nat = Some x /\ num_lt x tol = true
           /\ (i < n)%nat
           /\ (forall j y, (i < j < n)%nat -> vdiff !! j = Some y ->
                 num_lt tol y = false)
           /\ ((exists y, vdiff !! i = Some y /\ num_lt tol y = true)
               \/ (i = 0%nat
                   /\ forall y, vdiff !! 0%nat = Some y -> num_lt tol y = false))
           /\ lc = Ret (if Z.of_nat n - Z.of_nat i - 1 <? m
                        then -1 else Z.of_nat i + 1)).
Proof.
  intros n lc. unfold lc, Convergence.leftmost_converged. fold n.
  destruct (Z.of_nat n >? m) eqn:Hgt.
  2: { left. rewrite Z.gtb_ltb in Hgt. apply Z.ltb_ge in Hgt. now split. }
  rewrite Z.gtb_ltb in Hgt. apply Z.ltb_lt in Hgt. right.
  change (py_index vdiff (-2)) with (py_index vdiff (- Z.of_nat 2)).
  rewrite py_index_from_end by lia.
  fold n. destruct (decide (2 <= n)%nat) as [Hn|Hn].
  2: { left. split; [done|]. split; [lia|done]. }
  right.
  destruct (lookup_lt_is_Some_2 vdiff (n - 2)) as [x Hx]; [unfold n in *; lia|].
  rewrite Hx. cbn [mbind result_bind].
  destruct (num_lt x tol) eqn:Hpen.
  2: { left. split; [done|]. split; [done|]. now exists x. }
  right. split; [done|]. split; [done|].
  destruct n as [|n'] eqn:Hlen; [lia|].
  destruct (scan_down_stops vdiff tol n') as (i & Hrun & Hle & Hbelow & Hat);
    [unfold n in Hlen; lia|].
  rewrite Hrun. cbn [mbind result_bind].
  exists x, i. split; [done|]. split; [done|]. split; [lia|].
  split; [intros j y Hj; apply Hbelow; lia|]. split; [done|].
  destruct (Z.of_nat (S n') - Z.of_nat i - 1 <? m); f_equal; lia.
Qed.

(** [mapM] over results keeps the length. *)
Lemma mapM_result_length {A B} (f : A -> result B) (l : list A) (k : list B) :
  mapM f l = Ret k -> length k = length l.
Proof.
  revert k. induction l as [|a l IH]; intros k; cbn.
  - now intros [= <-].
  - destruct (f a) as [b|e]; cbn; [|done].
    destruct (mapM f l) as [k'|e]; cbn; [|done].
    intros [= <-]. cbn. f_equal. now apply IH.
Qed.

Lemma py_index_last {A} (l : list A) :
  py_index l (-1) = match last l with Some x => Ret x | None => Raise IndexError end.
Proof.
  change (py_index l (-1)) with (py_index l (- Z.of_nat 1)).
  rewrite py_index_from_end by lia. rewrite last_lookup.
  destruct l as [|a l]; [done|]. cbn [length].
  rewrite decide_True by lia.
  replace (S (length l) - 1)%nat with (Nat.pred (S (length l))) by lia. done.
Qed.

Lemma check_conv_reference (values : list V) (tol : V) (m : Z) (mode : string)
    (vinf : option V) :
  Convergence.check_conv values tol m mode vinf
  = match reference values vinf with
    | None => Raise IndexError
    | Some v0 =>
        vdiff ← (if bool_decide (mode = "abs")
                 then Ret (map (fun v => abs_diff v v0) values)
                 else if bool_decide (mode = "rel")
                 then mapM (fun v => rel_diff v v0) values
                 else Raise ValueError);
        Convergence.leftmost_converged vdiff tol m
    end.
Proof.
  unfold Convergence.check_conv, reference. destruct vinf as [v|]; [done|].
  rewrite py_index_last. now destruct (last values).
Qed.

(** X1: an index returned by [check_conv], in any mode, is -1 or lies
    between 1 and [len(values) - min_numpts]: index 0 is never returned,
    also when every value is within the tolerance. *)
Theorem check_conv_result_range :
  forall (values : list V) (tol : V) (min_numpts : Z) (mode : string)
         (vinf : option V) (r : Z),
    Convergence.check_conv values tol min_numpts mode vinf = Ret r ->
    r = -1
    \/ (1 <= r <= Z.of_nat (length values) - min_numpts
        /\ r <= Z.of_nat (length values)).
Proof.
  intros values tol m mode vinf r. rewrite check_conv_reference.
  destruct (reference values vinf) as [v0|]; [|done].
  assert (Hcore : forall vdiff, length vdiff = length values ->
            Convergence.leftmost_converged vdiff tol m = Ret r ->
            r = -1 \/ (1 <= r <= Z.of_nat (length values) - m
                       /\ r <= Z.of_nat (length values))).
  { intros vdiff Hlen Hrun. rewrite <- Hlen.
    destruct (leftmost_converged_cases vdiff tol m)
      as [(_ & Hlc)|[(_ & _ & Hlc)|[(_ & _ & x & _ & _ & Hlc)
         |(Hm & Hn & x & i & _ & _ & Hi & _ & _ & Hlc)]]];
      rewrite Hlc in Hrun; try discriminate; try (injection Hrun as <-; now left).
    injection Hrun as <-.
    destruct (Z.of_nat (length vdiff) - Z.of_nat i - 1 <? m) eqn:Hshort;
      [now left|right]. apply Z.ltb_ge in Hshort. lia. }
  destruct (bool_decide (mode = "abs")).
  - cbn [mbind result_bind]. apply Hcore. apply length_map.
  - destruct (bool_decide (mode = "rel")); [|done].
    destruct (mapM _ values) as [vdiff|e] eqn:Hmap; [|done].
    cbn [mbind result_bind]. apply Hcore. now apply mapM_result_length in Hmap.
Qed.

(** X2: in absolute mode, on at least two values, [check_conv] returns an
    index (and no -1) exactly when there are more than [min_numpts]
    values, the difference of the last but one value is strictly below
    the tolerance, and none of the last [min_numpts] differences is above
    the tolerance. *)
Theorem check_conv_abs_succeeds_iff :
  forall (values : list V) (tol : V) (min_numpts : Z) (vinf : option V) (v0 : V),
    reference values vinf = Some v0 ->
    (2 <= length values)%nat ->
    exists r,
      Convergence.check_conv values tol min_numpts "abs" vinf = Ret r
      /\ (r <> -1
          <-> min_numpts < Z.of_nat (length values)
              /\ (exists v, values !! (length values - 2)%nat = Some v
                            /\ num_lt (abs_diff v v0) tol = true)
              /\ (forall j v, Z.of_nat (length values) - min_numpts <= Z.of_nat j ->
                    values !! j = Some v -> num_lt tol (abs_diff v v0) = false)).
Proof.
  intros values tol m vinf v0 Href Hlen. rewrite check_conv_reference, Href.
  cbn [bool_decide decide_rel]. rewrite bool_decide_eq_true_2 by done.
  cbn [mbind result_bind].
  set (vdiff := map (fun v => abs_diff v v0) values).
  assert (Hl : length vdiff = length values) by apply length_map.
  assert (Hlook : forall j, vdiff !! j = (fun v => abs_diff v v0) <$> values !! j).
  { intros j. apply list_lookup_fmap. }
  destruct (leftmost_converged_cases vdiff tol m)
    as [(Hm & Hlc)|[(_ & Hn & Hlc)|[(Hm & _ & x & Hx & Hpen & Hlc)
       |(Hm & _ & x & i & Hx & Hpen & Hi & Hbelow & Hat & Hlc)]]];
    rewrite Hl in *.
  - exists (-1). split; [done|]. split; [done|]. intros (Hgt & _). lia.
  - lia.
  - exists (-1). split; [done|]. split; [done|]. intros (_ & (v & Hv & Hvlt) & _).
    rewrite Hlook, Hv in Hx. injection Hx as <-. congruence.
  - rewrite Hlc. eexists. split; [reflexivity|].
    assert (Hpen' : exists v, values !! (length values - 2)%nat = Some v
                              /\ num_lt (abs_diff v v0) tol = true).
    { rewrite Hlook in Hx. destruct (values !! (length values - 2)%nat) as [v|];
        [|done]. injection Hx as <-. now exists v. }
    destruct (Z.of_nat (length values) - Z.of_nat i - 1 <? m) eqn:Hshort.
    + apply Z.ltb_lt in Hshort. split; [done|]. intros (_ & _ & Hlast).
      destruct Hat as [(y & Hy & Hab)|(-> & _)]; [|lia].
      rewrite Hlook in Hy. destruct (values !! i) as [v|] eqn:Hv; [|done].
      injection Hy as <-. rewrite (Hlast i v) in Hab; [done|lia|done].
    + apply Z.ltb_ge in Hshort. split; [|lia]. intros _.
      split; [done|]. split; [done|]. intros j v Hj Hv.
      apply (Hbelow j (abs_diff v v0)).
      * split; [lia|]. apply lookup_lt_Some in Hv. lia.
      * now rewrite Hlook, Hv.
Qed.

(** X3: in absolute mode, an index that [check_conv] returns starts the
    converged tail: from it on no difference is above the tolerance, at
    least [min_numpts] values follow it or sit at it, and, unless the
    index is 1, the value just before it is above the tolerance. *)
Theorem check_conv_abs_tail :
  forall (values : list V) (tol : V) (min_numpts : Z) (vinf : option V) (v0 : V)
         (r : Z),
    reference values vinf = Some v0 ->
    Convergence.check_conv values tol min_numpts "abs" vinf = Ret r ->
    r <> -1 ->
    (forall j v, r <= Z.of_nat j -> values !! j = Some v ->
       num_lt tol (abs_diff v v0) = false)
    /\ min_numpts <= Z.of_nat (length values) - r
    /\ (2 <= r -> exists v, values !! Z.to_nat (r - 1) = Some v
                            /\ num_lt tol (abs_diff v v0) = true).
Proof.
  intros values tol m vinf v0 r Href. rewrite check_conv_reference, Href.
  rewrite bool_decide_eq_true_2 by done. cbn [mbind result_bind].
  set (vdiff := map (fun v => abs_diff v v0) values).
  assert (Hl : length vdiff = length values) by apply length_map.
  assert (Hlook : forall j, vdiff !! j = (fun v => abs_diff v v0) <$> values !! j).
  { intros j. apply list_lookup_fmap. }
  intros Hrun Hr.
  destruct (leftmost_converged_cases vdiff tol m)
    as [(Hm & Hlc)|[(_ & Hn & Hlc)|[(Hm & _ & x & Hx & Hpen & Hlc)
       |(Hm & _ & x & i & Hx & Hpen & Hi & Hbelow & Hat & Hlc)]]];
    rewrite Hl in *; rewrite Hlc in Hrun; try discriminate;
    try (injection Hrun as <-; done).
  injection Hrun as <-.
  destruct (Z.of_nat (length values) - Z.of_nat i - 1 <? m) eqn:Hshort; [done|].
  apply Z.ltb_ge in Hshort. split; [|split; [lia|]].
  - intros j v Hj Hv. apply (Hbelow j (abs_diff v v0)).
    + split; [lia|]. apply lookup_lt_Some in Hv. lia.
    + now rewrite Hlook, Hv.
  - intros Hr2. replace (Z.to_nat (Z.of_nat i + 1 - 1)) with i by lia.
    destruct Hat as [(y & Hy & Hab)|(-> & _)]; [|lia].
    rewrite Hlook in Hy. destruct (values !! i) as [v|]; [|done].
    injection Hy as <-. now exists v.
Qed.

(** X4: the errors of [check_conv]: without values and without [vinf] it
    raises IndexError; with a mode other than "abs" and "rel" it raises
    ValueError once the reference value is there; in absolute mode, a
    single value raises IndexError at [vdiff[-2]] when [min_numpts] is
    below 1, and gives -1 otherwise. *)
Theorem check_conv_errors :
  forall (tol : V) (min_numpts : Z) (mode : string),
    Convergence.check_conv [] tol min_numpts mode None = Raise IndexError
    /\ (forall values vinf v0,
          reference values vinf = Some v0 -> mode <> "abs" -> mode <> "rel" ->
          Convergence.check_conv values tol min_numpts mode vinf = Raise ValueError)
    /\ (forall v vinf,
          Convergence.check_conv [v] tol min_numpts "abs" vinf
          = if min_numpts <? 1 then Raise IndexError else Ret (-1)).
Proof.
  intros tol m mode. split; [|split].
  - now rewrite check_conv_reference.
  - intros values vinf v0 Href Habs Hrel. rewrite check_conv_reference, Href.
    now rewrite !bool_decide_eq_false_2 by done.
  - intros v vinf. rewrite check_conv_reference.
    assert (Href : exists v0, reference [v] vinf = Some v0).
    { destruct vinf as [v0|]; [now exists v0|now exists v]. }
    destruct Href as [v0 ->]. rewrite bool_decide_eq_true_2 by done.
    cbn [mbind result_bind map].
    destruct (leftmost_converged_cases [abs_diff v v0] tol m)
      as [(Hm & ->)|[(Hm & _ & ->)|[(_ & Hn & _)|(_ & Hn & _)]]];
      cbn [length] in *; try lia.
    + rewrite (proj2 (Z.ltb_ge _ _)) by lia. done.
    + rewrite (proj2 (Z.ltb_lt _ _)) by lia. done.
Qed.

(** A looser tolerance and a smaller number of required points let the
    second half of [check_conv] answer no later. *)
Lemma leftmost_converged_monotone (vdiff : list V) (tol tol' : V) (m m' r : Z) :
  looser tol' tol -> m' <= m -> r <> -1 ->
  Convergence.leftmost_converged vdiff tol m = Ret r ->
  exists r', Convergence.leftmost_converged vdiff tol' m' = Ret r'
             /\ 1 <= r' <= r.
Proof.
  intros Hloose Hm Hr Hrun.
  destruct (leftmost_converged_cases vdiff tol m)
    as [(_ & Hlc)|[(_ & _ & Hlc)|[(_ & _ & x & _ & _ & Hlc)
       |(Hmn & Hn & x & i & Hx & Hpen & Hi & Hbelow & Hat & Hlc)]]];
    rewrite Hlc in Hrun; try discriminate; try (injection Hrun as <-; done).
  injection Hrun as <-.
  destruct (Z.of_nat (length vdiff) - Z.of_nat i - 1 <? m) eqn:Hshort; [done|].
  apply Z.ltb_ge in Hshort.
  destruct (leftmost_converged_cases vdiff tol' m')
    as [(Hmn' & _)|[(_ & Hn' & _)|[(_ & _ & x' & Hx' & Hpen' & _)
       |(_ & _ & x' & i' & _ & _ & Hi' & Hbelow' & Hat' & Hlc')]]].
  - lia.
  - lia.
  - rewrite Hx in Hx'. injection Hx' as <-.
    apply (proj1 (Hloose x)) in Hpen. congruence.
  - assert (Hle : (i' <= i)%nat).
    { destruct Hat' as [(y & Hy & Hab)|(-> & _)]; [|lia].
      destruct (decide (i' <= i)%nat) as [|Hgt]; [done|].
      apply (proj2 (Hloose y)) in Hab.
      rewrite (Hbelow i' y) in Hab; [done|lia|done]. }
    rewrite Hlc'. rewrite (proj2 (Z.ltb_ge _ _)) by lia.
    eexists. split; [reflexivity|lia].
Qed.

(** X7: [check_conv] is monotone in the tolerance: when it returns an index
    for a tolerance and a number of required points, then for a tolerance
    at least as loose and no more required points it returns an index as
    well, and one that is not further right. *)
Theorem check_conv_looser_tolerance :
  forall (values : list V) (tol tol' : V) (min_numpts min_numpts' : Z)
         (mode : string) (vinf : option V) (r : Z),
    looser tol' tol -> min_numpts' <= min_numpts -> r <> -1 ->
    Convergence.check_conv values tol min_numpts mode vinf = Ret r ->
    exists r',
      Convergence.check_conv values tol' min_numpts' mode vinf = Ret r'
      /\ 1 <= r' <= r.
Proof.
  intros values tol tol' m m' mode vinf r Hloose Hm Hr.
  rewrite !check_conv_reference.
  destruct (reference values vinf) as [v0|]; [|done].
  destruct (bool_decide (mode = "abs")).
  - cbn [mbind result_bind]. now apply leftmost_converged_monotone.
  - destruct (bool_decide (mode = "rel")); [|done].
    destruct (mapM _ values) as [vdiff|e]; [|done].
    cbn [mbind result_bind]. now apply leftmost_converged_monotone.
Qed.

End ConvergenceFacts.

Section ConvergenceExamples.

(** The difference at index 2 equals the tolerance: it is not above it,
    and index 2 starts the tail. *)
Example check_conv_settling :
  @Convergence.check_conv Z int_numbers settling 1 1 "abs" None = Ret 2
  /\ @Convergence.check_conv Z int_numbers settling 1 5 "abs" None = Ret (-1)
  /\ @Convergence.check_conv Z int_numbers [1; 1; 1] 1 1 "abs" None = Ret 1
  /\ @Convergence.check_conv Z int_numbers [1; 3; 1] 1 1 "abs" None = Ret (-1)
  /\ @Convergence.check_conv Z int_numbers settling 1 1 "log" None = Raise ValueError.
Proof. vm_compute. auto 10. Qed.

Lemma check_conv_result_range_witness :
  2 = -1 \/ (1 <= 2 <= Z.of_nat (length settling) - 1
             /\ 2 <= Z.of_nat (length settling)).
Proof.
  apply (@check_conv_result_range Z int_numbers settling 1 1 "abs" None 2).
  vm_compute. reflexivity.
Defined.

Lemma check_conv_abs_succeeds_iff_witness :
  exists r, @Convergence.check_conv Z int_numbers settling 1 1 "abs" None = Ret r.
Proof.
  destruct (@check_conv_abs_succeeds_iff Z int_numbers settling 1 1 None 1 eq_refl)
    as (r & Hr & _).
  - cbn. lia.
  - now exists r.
Defined.

Lemma check_conv_abs_tail_witness :
  1 <= Z.of_nat (length settling) - 2
  /\ exists v, settling !! Z.to_nat (2 - 1) = Some v /\ (1 <? Z.abs (v - 1)) = true.
Proof.
  assert (Hrun : @Convergence.check_conv Z int_numbers settling 1 1 "abs" None = Ret 2)
    by (vm_compute; reflexivity).
  destruct (@check_conv_abs_tail Z int_numbers settling 1 1 None 1 2 eq_refl Hrun
              ltac:(discriminate)) as (_ & Hlen & Hbefore).
  split; [exact Hlen|]. apply Hbefore. lia.
Defined.

Lemma check_conv_errors_witness :
  @Convergence.check_conv Z int_numbers settling 1 1 "log" (Some 1) = Raise ValueError.
Proof.
  apply (proj1 (proj2 (@check_conv_errors Z int_numbers 1 1 "log")) settling (Some 1) 1);
    [reflexivity|discriminate|discriminate].
Defined.

Lemma check_conv_looser_tolerance_witness :
  exists r',
    @Convergence.check_conv Z int_numbers settling 3 1 "abs" None = Ret r'
    /\ 1 <= r' <= 2.
Proof.
  apply (@check_conv_looser_tolerance Z int_numbers settling 1 3 2 1 "abs" None 2).
  - intros x. cbn. split; intros Hx.
    + apply Z.ltb_lt. apply Z.ltb_lt in Hx. lia.
    + apply Z.ltb_lt. apply Z.ltb_lt in Hx. lia.
  - lia.
  - discriminate.
  - vm_compute. reflexivity.
Defined.

End ConvergenceExamples.

(** * Results dictionaries *)

Section ResultsFacts.
Import WorkflowResults.

Lemma from_dict_to_dict_general (modname name : string) (r : gmap string Val) :
  from_dict (to_dict modname name r) = init (delete "@class" (delete "@module" r)).
Proof.
  unfold from_dict, to_dict. f_equal. apply map_eq. intros k.
  destruct (decide (k = "@class")) as [->|Hc].
  { rewrite lookup_delete_eq. apply map_lookup_filter_None. right.
    intros x _ Hnot. apply Hnot. cbn. apply list_elem_of_further, list_elem_of_here. }
  rewrite lookup_delete_ne by done.
  destruct (decide (k = "@module")) as [->|Hm].
  { rewrite lookup_delete_eq. apply map_lookup_filter_None. right.
    intros x _ Hnot. apply Hnot. cbn. apply list_elem_of_here. }
  rewrite lookup_delete_ne by done.
  destruct (r !! k) as [x|] eqn:Hk.
  - apply map_lookup_filter_Some. split.
    + now rewrite !lookup_insert_ne.
    + cbn. intros [->|[->|Hnil%not_elem_of_nil]%elem_of_cons]%elem_of_cons; done.
  - apply map_lookup_filter_None. left. now rewrite !lookup_insert_ne.
Qed.

(** X5: [from_dict(to_dict)] gives a results dictionary back as it was,
    when it has its "_exceptions" entry (as every instance has after
    [__init__]) and no entries "@module" and "@class"; such entries of
    the dictionary itself do not come back. *)
Theorem from_dict_to_dict :
  forall (modname name : string) (r : gmap string Val),
    (is_Some (r !! _EXC_KEY) ->
     r !! "@module" = None -> r !! "@class" = None ->
     from_dict (to_dict modname name r) = r)
    /\ from_dict (to_dict modname name r) !! "@module" = None
    /\ from_dict (to_dict modname name r) !! "@class" = None
    /\ (forall k, k <> "@module" -> k <> "@class" -> k <> _EXC_KEY ->
          from_dict (to_dict modname name r) !! k = r !! k).
Proof.
  intros modname name r. rewrite from_dict_to_dict_general.
  assert (Hexc : (delete "@class" (delete "@module" r)) !! _EXC_KEY = r !! _EXC_KEY).
  { now rewrite !lookup_delete_ne. }
  unfold init. rewrite Hexc. split; [|split; [|split]].
  - intros [v Hv] Hm Hc. rewrite Hv.
    rewrite (delete_id r "@module") by done. now apply delete_id.
  - destruct (r !! _EXC_KEY).
    + rewrite lookup_delete_ne by done. apply lookup_delete_eq.
    + rewrite lookup_insert_ne by done. rewrite lookup_delete_ne by done.
      apply lookup_delete_eq.
  - destruct (r !! _EXC_KEY).
    + apply lookup_delete_eq.
    + rewrite lookup_insert_ne by done. apply lookup_delete_eq.
  - intros k Hm Hc He. destruct (r !! _EXC_KEY).
    + now rewrite !lookup_delete_ne.
    + rewrite lookup_insert_ne by done. now rewrite !lookup_delete_ne.
Qed.

Lemma push_exceptions_known (excs : list string) (r : gmap string Val)
    (l : list string) :
  r !! _EXC_KEY = Some (VList l) -> (forall s, s ∈ excs -> s ∈ l) ->
  push_exceptions excs r = (r, Ret ()).
Proof.
  intros Hl. induction excs as [|s excs IH]; intros Hin; [done|].
  cbn [push_exceptions]. unfold exceptions. rewrite Hl. cbn.
  rewrite bool_decide_eq_true_2 by (apply Hin; apply list_elem_of_here).
  apply IH. intros s' Hs'. apply Hin. now apply list_elem_of_further.
Qed.

(** X6: on a results dictionary whose "_exceptions" entry is a list,
    [push_exceptions] succeeds and changes that entry only: the old list
    stays in front, the new list holds the old strings and the pushed ones
    and nothing else, no string is entered twice, and pushing the same
    exceptions again changes nothing.  Without the entry it raises
    KeyError, and on a number TypeError. *)
Theorem push_exceptions_appends_new :
  forall (excs : list string) (r : gmap string Val),
    (forall l0, r !! _EXC_KEY = Some (VList l0) ->
       exists l',
         push_exceptions excs r = (<[_EXC_KEY := VList l']> r, Ret ())
         /\ l0 `prefix_of` l'
         /\ (forall s, s ∈ l' <-> s ∈ l0 \/ s ∈ excs)
         /\ (NoDup l0 -> NoDup l')
         /\ push_exceptions excs (<[_EXC_KEY := VList l']> r)
            = (<[_EXC_KEY := VList l']> r, Ret ()))
    /\ (r !! _EXC_KEY = None -> excs <> [] ->
        push_exceptions excs r = (r, Raise KeyError))
    /\ (forall z, r !! _EXC_KEY = Some (VNum z) -> excs <> [] ->
        push_exceptions excs r = (r, Raise TypeError)).
Proof.
  intros excs r. split; [|split].
  - revert r. induction excs as [|s excs IH]; intros r l0 Hl.
    + exists l0. rewrite insert_id by done. split; [done|]. split; [done|].
      split; [|done]. intros s. split; [now left|].
      intros [Hs|Hs%not_elem_of_nil]; done.
    + cbn [push_exceptions]. unfold exceptions. rewrite Hl. cbn.
      destruct (decide (s ∈ l0)) as [Hin|Hnin].
      * rewrite bool_decide_eq_true_2 by done.
        destruct (IH r l0 Hl) as (l' & Hrun & Hpre & Hmem & Hnd & Hagain).
        exists l'. split; [done|]. split; [done|]. split; [|split; [done|]].
        -- intros s'. rewrite Hmem, elem_of_cons. split.
           ++ intros [Hs|Hs]; [now left|right; now right].
           ++ intros [Hs|[->|Hs]]; [now left|now left|now right].
        -- change (push_exceptions (s :: excs) (<[_EXC_KEY := VList l']> r)
                   = (<[_EXC_KEY := VList l']> r, Ret ())).
           apply (push_exceptions_known _ _ l'); [apply lookup_insert_eq|].
           intros s' Hs'. apply Hmem.
           apply elem_of_cons in Hs' as [->|Hs']; [now left|now right].
      * rewrite bool_decide_eq_false_2 by done.
        destruct (IH (<[_EXC_KEY := VList (l0 ++ [s])]> r) (l0 ++ [s]))
          as (l' & Hrun & Hpre & Hmem & Hnd & Hagain); [apply lookup_insert_eq|].
        rewrite insert_insert_eq in Hrun, Hagain.
        exists l'. split; [done|]. split; [|split; [|split]].
        -- etrans; [|exact Hpre]. now apply prefix_app_r.
        -- intros s'. rewrite Hmem, elem_of_app, list_elem_of_singleton, elem_of_cons.
           split.
           ++ intros [[Hs| ->]|Hs]; [now left|right; now left|right; now right].
           ++ intros [Hs|[->|Hs]]; [left; now left|left; now right|now right].
        -- intros Hnd0. apply Hnd. apply NoDup_app. split; [done|].
           split; [|apply NoDup_singleton].
           intros s' Hs' ->%list_elem_of_singleton. done.
        -- change (push_exceptions (s :: excs) (<[_EXC_KEY := VList l']> r)
                   = (<[_EXC_KEY := VList l']> r, Ret ())).
           apply (push_exceptions_known _ _ l'); [apply lookup_insert_eq|].
           intros s' Hs'. apply Hmem.
           apply elem_of_cons in Hs' as [->|Hs'];
             [left; apply elem_of_app; right; apply list_elem_of_singleton; done
             |now right].
  - intros Hnone Hne. destruct excs as [|s excs]; [done|].
    cbn [push_exceptions]. unfold exceptions. now rewrite Hnone.
  - intros z Hz Hne. destruct excs as [|s excs]; [done|].
    cbn [push_exceptions]. unfold exceptions. now rewrite Hz.
Qed.

End ResultsFacts.

Section ResultsExamples.
Import WorkflowResults.

Lemma from_dict_to_dict_witness :
  from_dict (to_dict "pymatgen.io.abinitio.workflows" "WorkflowResults" sample_results)
  = sample_results.
Proof.
  apply (proj1 (from_dict_to_dict "pymatgen.io.abinitio.workflows"
                  "WorkflowResults" sample_results)).
  - exists (VList ["fit failed"]). vm_compute. reflexivity.
  - vm_compute. reflexivity.
  - vm_compute. reflexivity.
Defined.

Lemma push_exceptions_appends_new_witness :
  exists l',
    push_exceptions ["no GSR file"; "fit failed"; "no GSR file"] sample_results
    = (<[_EXC_KEY := VList l']> sample_results, Ret ())
    /\ ["fit failed"] `prefix_of` l'.
Proof.
  destruct (proj1 (push_exceptions_appends_new
                     ["no GSR file"; "fit failed"; "no GSR file"] sample_results)
                  ["fit failed"])
    as (l' & Hrun & Hpre & _).
  - vm_compute. reflexivity.
  - exists l'. split; [exact Hrun|exact Hpre].
Defined.

End ResultsExamples.

(** * Dispatch of callbacks *)

Section Dispatch.
Context `{UserFuncs} `{Pickler AbinitFlow}.

Lemma handled_can_execute (h : gmap nat Task) (sender : nat) (cbk : Callback) :
  handle_sender sender cbk = true ->
  truthy (can_execute h cbk) = negb (_disabled cbk).
Proof.
  unfold handle_sender, can_execute, py_and. intros Hs.
  apply bool_decide_eq_true_1 in Hs. cbn [truthy].
  destruct (_disabled cbk); cbn; [done|].
  destruct (deps cbk) as [|d ds]; [|done].
  cbn in Hs. now apply not_elem_of_nil in Hs.
Qed.

Lemma after_signal_idem (sender : nat) (cbk : Callback) :
  fires sender (after_signal sender cbk) = false.
Proof.
  unfold after_signal. destruct (fires sender cbk) eqn:Hf; [|done].
  unfold fires, disable. cbn. apply andb_false_r.
Qed.

Lemma pickle_dump_trace (flow : AbinitFlow) (st : World) :
  trace (AbinitFlow.pickle_dump flow st) = trace st.
Proof. done. Qed.

Lemma on_dep_ok_from_returns (sender : nat) (todo : list Callback) :
  forall (seen : list Callback) (flow : AbinitFlow) (st : World)
         (flow' : AbinitFlow) (st' : World),
    AbinitFlow.on_dep_ok_from sender seen todo flow st = (flow', st', Ret ()) ->
    _callbacks flow' = seen ++ map (after_signal sender) todo
    /\ trace st'
       = trace st ++ map invoked (filter (fun cbk => fires sender cbk = true) todo).
Proof.
  induction todo as [|cbk todo IH]; intros seen flow st flow' st' Hrun.
  - cbn in Hrun. injection Hrun as <- <-. cbn. now rewrite !app_nil_r.
  - cbn [AbinitFlow.on_dep_ok_from] in Hrun.
    destruct (handle_sender sender cbk) eqn:Hs; cbn [negb] in Hrun.
    2: { apply IH in Hrun as [Hc Ht]. rewrite <- app_assoc in Hc.
         rewrite filter_cons_False by (unfold fires; rewrite Hs; done).
         cbn [map]. unfold after_signal at 1, fires. rewrite Hs. now split. }
    rewrite (handled_can_execute _ sender) in Hrun by done.
    destruct (_disabled cbk) eqn:Hd; cbn [negb] in Hrun.
    { apply IH in Hrun as [Hc Ht]. rewrite <- app_assoc in Hc.
      rewrite filter_cons_False by (unfold fires; rewrite Hs, Hd; done).
      cbn [map]. unfold after_signal at 1, fires. rewrite Hs, Hd. now split. }
    unfold Callback_call in Hrun.
    rewrite (handled_can_execute _ sender), Hd in Hrun by done. cbn [negb] in Hrun.
    destruct (call_func _ _ _ _ _) as [[works1 h1] [widx|e]]; [|done].
    apply IH in Hrun as [Hc Ht]. rewrite <- app_assoc in Hc.
    rewrite filter_cons_True by (unfold fires; rewrite Hs, Hd; done).
    cbn [map]. unfold after_signal at 1, fires. rewrite Hs, Hd. cbn [andb negb].
    split; [done|]. rewrite Ht, pickle_dump_trace. cbn [trace emit set_heap].
    now rewrite <- app_assoc.
Qed.

Lemma on_dep_ok_from_quiet (sender : nat) (todo : list Callback) :
  forall (seen : list Callback) (flow : AbinitFlow) (st : World),
    Forall (fun cbk => fires sender cbk = false) todo ->
    AbinitFlow.on_dep_ok_from sender seen todo flow st
    = (AbinitFlow.set_callbacks (seen ++ todo) flow, st, Ret ()).
Proof.
  induction todo as [|cbk todo IH]; intros seen flow st Hq.
  - cbn. now rewrite app_nil_r.
  - apply Forall_cons in Hq as [Hc Hq]. cbn [AbinitFlow.on_dep_ok_from].
    unfold fires in Hc. destruct (handle_sender sender cbk) eqn:Hs; cbn [negb].
    + rewrite (handled_can_execute _ sender) by done.
      cbn in Hc. rewrite Hc. rewrite IH by done. now rewrite <- app_assoc.
    + rewrite IH by done. now rewrite <- app_assoc.
Qed.

(** X8: when [on_dep_ok] returns, it has called the function of each
    callback that was enabled and lists the sender, once and in the order
    of registration, and has disabled exactly these callbacks; the same
    signal sent again calls no function and changes nothing. *)
Theorem on_dep_ok_fires_each_callback_once :
  forall (signal : Status) (sender : nat) (flow flow' : AbinitFlow)
         (st st' : World),
    AbinitFlow.on_dep_ok signal sender flow st = (flow', st', Ret ()) ->
    _callbacks flow' = map (after_signal sender) (_callbacks flow)
    /\ trace st'
       = trace st
         ++ map invoked (filter (fun cbk => fires sender cbk = true)
                                (_callbacks flow))
    /\ AbinitFlow.on_dep_ok signal sender flow' st' = (flow', st', Ret ()).
Proof.
  intros signal sender flow flow' st st' Hrun.
  apply on_dep_ok_from_returns in Hrun as [Hc Ht]. cbn [app] in Hc.
  split; [done|]. split; [done|].
  unfold AbinitFlow.on_dep_ok. rewrite on_dep_ok_from_quiet.
  - cbn [app]. now destruct flow'.
  - rewrite Hc. apply Forall_fmap, Forall_true. intros cbk.
    apply after_signal_idem.
Qed.




End Dispatch.

Section DispatchExamples.

Example on_dep_ok_crowded :
  let '(flow', st', r) :=
    @AbinitFlow.on_dep_ok Samples.funcs Samples.flow_pickler S_OK 1%nat
      crowded_flow (Samples.world pending_heap) in
  r = Ret ()
  /\ trace st' = [Invoked 7 0; Invoked 9 1]
  /\ map _disabled (_callbacks flow') = [true; false; true; true].
Proof. vm_compute. auto. Qed.

Lemma on_dep_ok_fires_each_callback_once_witness :
  let res := @AbinitFlow.on_dep_ok Samples.funcs Samples.flow_pickler S_OK 1%nat
               crowded_flow (Samples.world pending_heap) in
  _callbacks res.1.1 = map (after_signal 1) (_callbacks crowded_flow).
Proof.
  intros res.
  apply (proj1 (@on_dep_ok_fires_each_callback_once Samples.funcs
                  Samples.flow_pickler S_OK 1%nat crowded_flow res.1.1
                  (Samples.world pending_heap) res.1.2 ltac:(vm_compute; reflexivity))).
Defined.

(** The flow's directory is missing: the function of the first callback
    has been called and the callback is disabled, but the dump raises,
    nothing is written, and the last callback is not looked at. *)
Example on_dep_ok_dump_fails :
  let '(flow', st', r) :=
    @Dispatch.on_dep_ok Samples.funcs Samples.flow_pickler missing_directory
      S_OK 1%nat crowded_flow (Samples.world pending_heap) in
  r = Raise (PyException "IOError: No such file or directory")
  /\ trace st' = [Invoked 7 0]
  /\ map _disabled (_callbacks flow') = [true; false; true; false]
  /\ fs st' = ∅.
Proof. vm_compute. auto. Qed.

(** The function of the last callback raises: the callback stays
    enabled, and the first one, which has run, is disabled and dumped. *)
Example on_dep_ok_function_fails :
  let '(flow', st', r) :=
    @Dispatch.on_dep_ok failing_funcs Samples.flow_pickler no_faults
      S_OK 1%nat crowded_flow (Samples.world pending_heap) in
  r = Raise (UserError 9)
  /\ trace st' = [Invoked 7 0; Invoked 9 1]
  /\ map _disabled (_callbacks flow') = [true; false; true; false]
  /\ fs st' !! "/run/__workflow__.pickle" = Some "new-snapshot".
Proof. vm_compute. auto. Qed.


End DispatchExamples.

(** * Allocation *)

Section Allocation.

Lemma allocate_task_placed (w : Workflow) (wd : string) (m i r : nat)
    (task : Task) (h : gmap nat Task) :
  workdir w = Some wd -> manager w = Some m ->
  t_workdir task = None \/ t_workdir task = Some (canonical wd i) ->
  Workflow.allocate_task w i r task h = (<[r := placed wd m i task]> h, Ret ()).
Proof.
  intros Hwd Hm Hdir. unfold Workflow.allocate_task, placed. rewrite Hwd, Hm.
  fold (canonical wd i).
  destruct task as [nid s ds n twd mgr]. cbn in Hdir. cbn [t_manager].
  destruct mgr as [m'|]; cbv zeta; cbn [t_workdir set_manager];
    destruct Hdir as [->| ->]; cbn;
    rewrite ?bool_decide_eq_false_2 by (intros Hne; now apply Hne);
    rewrite ?insert_insert_eq; reflexivity.
Qed.

Lemma allocate_from_places (w : Workflow) (wd : string) (m : nat) (rs : list nat) :
  workdir w = Some wd -> manager w = Some m ->
  forall (i0 : nat) (h : gmap nat Task),
    NoDup rs ->
    (forall k r task, rs !! k = Some r -> h !! r = Some task ->
       t_workdir task = None \/ t_workdir task = Some (canonical wd (i0 + k))) ->
    exists h',
      Workflow.allocate_from w i0 rs h = (h', Ret ())
      /\ (forall k r task, rs !! k = Some r -> h !! r = Some task ->
            h' !! r = Some (placed wd m (i0 + k) task))
      /\ (forall r, r ∉ rs -> h' !! r = h !! r)
      /\ (forall r, h !! r = None -> h' !! r = None).
Proof.
  intros Hwd Hm. induction rs as [|a rs IH]; intros i0 h Hnd Hdir.
  - exists h. split; [done|]. split; [intros k r task Hk; done|]. now split.
  - apply NoDup_cons in Hnd as [Hnotin Hnd]. cbn [Workflow.allocate_from].
    destruct (h !! a) as [ta|] eqn:Ha.
    + rewrite (allocate_task_placed w wd m i0 a ta h Hwd Hm).
      2: { specialize (Hdir 0%nat a ta eq_refl Ha). now rewrite Nat.add_0_r in Hdir. }
      destruct (IH (S i0) (<[a := placed wd m i0 ta]> h) Hnd)
        as (h' & Hrun & Hplaced & Hother & Hnone).
      { intros k r task Hk Hr.
        assert (Hra : r <> a).
        { intros ->. apply Hnotin. eapply list_elem_of_lookup_2. exact Hk. }
        rewrite lookup_insert_ne in Hr by done.
        replace (S i0 + k)%nat with (i0 + S k)%nat by lia.
        now apply (Hdir (S k) r task). }
      exists h'. split; [done|]. split; [|split].
      * intros [|k] r task Hk Hr.
        -- injection Hk as <-. rewrite Hother by done.
           rewrite lookup_insert_eq, Nat.add_0_r. congruence.
        -- cbn in Hk.
           assert (Hra : r <> a).
           { intros ->. apply Hnotin. eapply list_elem_of_lookup_2. exact Hk. }
           replace (i0 + S k)%nat with (S i0 + k)%nat by lia.
           apply Hplaced; [done|]. now rewrite lookup_insert_ne.
      * intros r Hr. apply not_elem_of_cons in Hr as [Hra Hr].
        rewrite Hother by done. now rewrite lookup_insert_ne.
      * intros r Hr. apply Hnone. rewrite lookup_insert_ne; [done|congruence].
    + destruct (IH (S i0) h Hnd) as (h' & Hrun & Hplaced & Hother & Hnone).
      { intros k r task Hk Hr.
        replace (S i0 + k)%nat with (i0 + S k)%nat by lia.
        now apply (Hdir (S k) r task). }
      exists h'. split; [done|]. split; [|split].
      * intros [|k] r task Hk Hr.
        -- injection Hk as <-. congruence.
        -- cbn in Hk. replace (i0 + S k)%nat with (S i0 + k)%nat by lia.
           now apply Hplaced.
      * intros r Hr. apply not_elem_of_cons in Hr as [Hra Hr]. now apply Hother.
      * done.
Qed.

(** Where every task is in place and has a manager, [allocate] changes
    nothing. *)
Lemma allocate_from_in_place (w : Workflow) (wd : string) (rs : list nat) :
  workdir w = Some wd ->
  forall (i0 : nat) (h : gmap nat Task),
    (forall k r task, rs !! k = Some r -> h !! r = Some task ->
       t_workdir task = Some (canonical wd (i0 + k)) /\ is_Some (t_manager task)) ->
    Workflow.allocate_from w i0 rs h = (h, Ret ()).
Proof.
  intros Hwd. induction rs as [|a rs IH]; intros i0 h Hin; [done|].
  cbn [Workflow.allocate_from].
  assert (Hrest : Workflow.allocate_from w (S i0) rs h = (h, Ret ())).
  { apply IH. intros k r task Hk Hr.
    replace (S i0 + k)%nat with (i0 + S k)%nat by lia.
    now apply (Hin (S k) r task). }
  destruct (h !! a) as [ta|] eqn:Ha; [|done].
  destruct (Hin 0%nat a ta eq_refl Ha) as [Hdir [m' Hm']].
  rewrite Nat.add_0_r in Hdir.
  unfold Workflow.allocate_task. rewrite Hm', Hwd. cbv zeta. rewrite Hdir.
  fold (canonical wd i0).
  rewrite bool_decide_eq_false_2 by (intros Hne; now apply Hne).
  now rewrite insert_id.
Qed.

(** X10: on a workflow with a working directory and a manager, whose tasks
    are distinct and have no working directory yet or the one of their
    index, [allocate] succeeds: every task ends in the directory of its
    index, gets the workflow's manager unless it had one, and keeps its
    other attributes; nothing else in the heap changes, and a second
    [allocate] changes nothing. *)
Theorem allocate_places_every_task :
  forall (w : Workflow) (h : gmap nat Task) (wd : string) (m : nat),
    workdir w = Some wd -> manager w = Some m -> NoDup (_tasks w) ->
    (forall i r task, _tasks w !! i = Some r -> h !! r = Some task ->
       t_workdir task = None \/ t_workdir task = Some (canonical wd i)) ->
    exists h',
      Workflow.allocate w h = (h', Ret ())
      /\ (forall i r task, _tasks w !! i = Some r -> h !! r = Some task ->
            h' !! r = Some (placed wd m i task))
      /\ (forall r, r ∉ _tasks w -> h' !! r = h !! r)
      /\ Workflow.allocate w h' = (h', Ret ()).
Proof.
  intros w h wd m Hwd Hm Hnd Hdir.
  destruct (allocate_from_places w wd m (_tasks w) Hwd Hm 0 h Hnd Hdir)
    as (h' & Hrun & Hplaced & Hother & Hnone).
  exists h'. split; [done|]. split; [done|]. split; [done|].
  apply (allocate_from_in_place w wd); [done|].
  intros k r task Hk Hr. cbn [Nat.add].
  destruct (h !! r) as [t0|] eqn:Hr0.
  - rewrite (Hplaced k r t0 Hk Hr0) in Hr. injection Hr as <-.
    unfold placed. cbn. split; [done|]. now eexists.
  - rewrite (Hnone r Hr0) in Hr. done.
Qed.

End Allocation.

Section AllocationExamples.

Lemma allocate_places_every_task_witness :
  exists h',
    Workflow.allocate placed_work half_placed_heap = (h', Ret ())
    /\ h' !! 1%nat = Some (mkTask 1 S_INIT [] 1 (Some "/run/work_0/task_0") (Some 0%nat))
    /\ h' !! 2%nat = Some (mkTask 2 S_INIT [] 1 (Some "/run/work_0/task_1") (Some 5%nat)).
Proof.
  destruct (allocate_places_every_task placed_work half_placed_heap
              "/run/work_0" 0%nat eq_refl eq_refl)
    as (h' & Hrun & Hplaced & _).
  - apply NoDup_cons. split.
    + intros [Hne|Hnil%not_elem_of_nil]%elem_of_cons; [discriminate|done].
    + apply NoDup_cons. split; [apply not_elem_of_nil|apply NoDup_nil_2].
  - intros [|[|i]] r task Hi Hr; cbn in Hi; try discriminate;
      injection Hi as <-; vm_compute in Hr; injection Hr as <-;
      [now left|now right].
  - exists h'. split; [exact Hrun|]. split.
    + rewrite (Hplaced 0%nat 1%nat (mkTask 1 S_INIT [] 1 None None) eq_refl
                 ltac:(vm_compute; reflexivity)).
      vm_compute. reflexivity.
    + rewrite (Hplaced 1%nat 2%nat
                 (mkTask 2 S_INIT [] 1 (Some "/run/work_0/task_1") (Some 5%nat))
                 eq_refl ltac:(vm_compute; reflexivity)).
      vm_compute. reflexivity.
Defined.

End AllocationExamples.

(** * Completed snapshots *)

Section CompletedSnapshots.

Lemma append_assoc (a b c : string) : (a +:+ b) +:+ c = a +:+ (b +:+ c).
Proof.
  induction a as [|x a IH]; [done|].
  change (String x ((a +:+ b) +:+ c) = String x (a +:+ (b +:+ c))).
  now f_equal.
Qed.

Lemma append_empty_r (a : string) : a +:+ "" = a.
Proof.
  induction a as [|x a IH]; [done|].
  change (String x (a +:+ "") = String x a). now f_equal.
Qed.

Lemma writes_append (p c : string) (chunks : list string) (f : gmap string string) :
  foldl fs_step (<[p := c]> f) (map (Write p) chunks)
  = <[p := c +:+ contents chunks]> f.
Proof.
  revert c. induction chunks as [|d chunks IH]; intros c; cbn [map foldl contents foldr].
  - now rewrite append_empty_r.
  - cbn [fs_step]. rewrite alter_insert_eq. cbv beta. rewrite IH.
    now rewrite append_assoc.
Qed.

Lemma dump_ops_run (p : string) (chunks : list string) (f : gmap string string) :
  fs_run (Workflow.dump_ops p chunks) f = <[p := contents chunks]> f.
Proof.
  unfold fs_run, Workflow.dump_ops. cbn [foldl fs_step].
  rewrite foldl_app. cbn [foldl fs_step]. apply writes_append.
Qed.

(** X11: a [pickle_dump] that runs to its end replaces the snapshot: the
    file holds the chunks of this dump and nothing of what it held
    before, no other file, no task and no event changes, and a second
    dump of the same state leaves the file system as it is.  It is so
    for a flow, and for a workflow with a working directory; a workflow
    without one raises AttributeError and writes nothing. *)
Theorem pickle_dump_replaces_snapshot :
  forall `{Pickler AbinitFlow} `{Pickler Workflow}
         (flow : AbinitFlow) (w : Workflow) (st : World),
    (let st' := AbinitFlow.pickle_dump flow st in
     fs st' = <[AbinitFlow.pickle_path flow
                := contents (pickle_chunks flow (heap st))]> (fs st)
     /\ heap st' = heap st /\ trace st' = trace st
     /\ AbinitFlow.pickle_dump flow st' = st')
    /\ (forall wd, workdir w = Some wd ->
          exists st',
            Workflow.pickle_dump w st = (st', Ret ())
            /\ fs st' = <[join wd Workflow.PICKLE_FNAME
                          := contents (pickle_chunks w (heap st))]> (fs st)
            /\ heap st' = heap st /\ trace st' = trace st
            /\ Workflow.pickle_dump w st' = (st', Ret ()))
    /\ (workdir w = None -> Workflow.pickle_dump w st = (st, Raise AttributeError)).
Proof.
  intros Pf Pw flow w st. split; [|split].
  - cbv zeta. unfold AbinitFlow.pickle_dump, AbinitFlow.pickle_dump_ops.
    cbn [fs heap trace set_fs]. rewrite !dump_ops_run.
    split; [done|]. split; [done|]. split; [done|].
    unfold set_fs. cbn [fs heap trace]. now rewrite insert_insert_eq.
  - intros wd Hwd. unfold Workflow.pickle_dump, Workflow.pickle_dump_interrupted.
    rewrite Hwd. cbn [from_option]. eexists. split; [reflexivity|].
    cbn [fs heap trace set_fs]. rewrite !dump_ops_run.
    split; [done|]. split; [done|]. split; [done|].
    unfold set_fs. cbn [fs heap trace]. now rewrite insert_insert_eq.
  - intros Hwd. unfold Workflow.pickle_dump, Workflow.pickle_dump_interrupted.
    now rewrite Hwd.
Qed.

End CompletedSnapshots.

(** * The status of a workflow *)

Section WorkflowStatus.
Context `{TaskApi}.

Lemma min_status_le (l : list Status) (s : Status) :
  s ∈ l -> rank (Workflow.min_status l) <= rank s.
Proof.
  induction l as [|a l IH]; intros Hs; [now apply not_elem_of_nil in Hs|].
  cbn [Workflow.min_status foldr]. fold (Workflow.min_status l).
  destruct (leb a (Workflow.min_status l)) eqn:Hle.
  - apply leb_le in Hle. apply elem_of_cons in Hs as [->|Hs]; [lia|].
    specialize (IH Hs). lia.
  - assert (Hgt : rank (Workflow.min_status l) < rank a).
    { unfold leb in Hle. now apply Z.leb_gt in Hle. }
    apply elem_of_cons in Hs as [->|Hs]; [lia|]. now apply IH.
Qed.

Lemma min_status_elem (l : list Status) :
  l <> [] -> Workflow.min_status l ∈ l.
Proof.
  induction l as [|a l IH]; intros Hne; [done|].
  cbn [Workflow.min_status foldr]. fold (Workflow.min_status l).
  destruct (leb a (Workflow.min_status l)) eqn:Hle; [apply list_elem_of_here|].
  apply list_elem_of_further. apply IH. intros ->.
  cbn in Hle. now destruct a.
Qed.

(** X12: the [status] of a workflow without tasks is S_INIT, and no task
    is checked for it.  The status of a workflow with tasks is taken
    after [check_status]: it is the status of one of the tasks, no task
    has a lower one, and it is S_OK exactly when every task is at
    S_OK. *)
Theorem status_is_least_task_status :
  forall (w : Workflow) (h : gmap nat Task),
    (_tasks w = [] -> Workflow.status w h = (h, S_INIT))
    /\ (tasks_of (Workflow.check_status w h) w <> [] ->
        exists s,
          Workflow.status w h = (Workflow.check_status w h, s)
          /\ (exists task, task ∈ tasks_of (Workflow.check_status w h) w
                           /\ t_status task = s)
          /\ (forall task, task ∈ tasks_of (Workflow.check_status w h) w ->
                rank s <= rank (t_status task))
          /\ (s = S_OK <-> all_ok (Workflow.check_status w h) w = true)).
Proof.
  intros w h. split.
  - intros Hnil. unfold Workflow.status. now rewrite Hnil.
  - intros Hne. unfold Workflow.status.
    rewrite bool_decide_eq_false_2.
    2: { intros Hlen. apply Hne. unfold tasks_of.
         destruct (_tasks w); [done|discriminate]. }
    cbv zeta. set (h' := Workflow.check_status w h) in *.
    set (l := map t_status (tasks_of h' w)).
    assert (Hl : l <> []).
    { unfold l. destruct (tasks_of h' w); [done|discriminate]. }
    exists (Workflow.min_status l). split; [done|].
    assert (Hleast : forall task, task ∈ tasks_of h' w ->
              rank (Workflow.min_status l) <= rank (t_status task)).
    { intros task Htask. apply min_status_le. unfold l.
      apply list_elem_of_fmap. now exists task. }
    split; [|split; [done|]].
    + pose proof (min_status_elem l Hl) as Hin. unfold l in Hin at 2.
      apply list_elem_of_fmap in Hin as (task & Heq & Htask). now exists task.
    + rewrite all_ok_Forall, Forall_forall. split.
      * intros Hs task Htask. specialize (Hleast task Htask). rewrite Hs in Hleast.
        destruct (t_status task); cbn in Hleast; try lia; done.
      * intros Hall. pose proof (min_status_elem l Hl) as Hin. unfold l in Hin at 2.
        apply list_elem_of_fmap in Hin as (task & -> & Htask). now apply Hall.
Qed.

(** X13: [on_ok] on a workflow without tasks, not yet finalized and with
    a hook that returns, finalizes the workflow and sends S_OK for it,
    whoever the sender is; and yet the [status] of this workflow is
    S_INIT, before and after. *)
Theorem on_ok_finalizes_workflow_without_tasks :
  forall `{WorkflowHooks} (sender : nat) (w : Workflow) (st : World)
         (h1 : gmap nat Task) (results : AttrDict),
    _tasks w = [] -> Workflow.finalized w = false ->
    on_all_ok w (heap st) = (h1, Ret results) ->
    exists st' w',
      Workflow.on_ok sender w st = (st', w', Ret results)
      /\ Workflow.finalized w' = true
      /\ trace st' = trace st ++ [Published S_OK (w_node_id w)]
      /\ (Workflow.status w (heap st)).2 = S_INIT
      /\ (Workflow.status w' (heap st')).2 = S_INIT.
Proof.
  intros Hk sender w st h1 results Hnil Hfin Hhook.
  destruct (on_ok_finalizes sender w st h1 results) as [h2 Hrun]; [|done|done|].
  { unfold all_ok, tasks_of. now rewrite Hnil. }
  eexists _, _. split; [exact Hrun|]. split; [done|]. split; [done|].
  unfold Workflow.status. cbn [_tasks Workflow.append_history Workflow.set_finalized].
  now rewrite Hnil.
Qed.

End WorkflowStatus.

Section WorkflowStatusExamples.

Example status_of_chain :
  (@Workflow.status Samples.api chain_work chain_heap).2 = S_INIT
  /\ (@Workflow.status Samples.api done_work done_heap).2 = S_OK
  /\ (@Workflow.status Samples.api (Samples.work 10 []) done_heap).2 = S_INIT.
Proof. vm_compute. auto. Qed.

Lemma on_ok_finalizes_workflow_without_tasks_witness :
  exists st' w',
    @Workflow.on_ok Samples.api Samples.base_hooks 1%nat (Samples.work 10 [])
      (Samples.world done_heap)
    = (st', w', Ret (mkAttrDict 0 "Calling on_all_ok of the base class!"))
    /\ Workflow.finalized w' = true
    /\ trace st' = [Published S_OK 10].
Proof.
  destruct (@on_ok_finalizes_workflow_without_tasks Samples.api Samples.base_hooks
              1%nat (Samples.work 10 []) (Samples.world done_heap) done_heap
              (mkAttrDict 0 "Calling on_all_ok of the base class!")
              eq_refl eq_refl eq_refl)
    as (st' & w' & Hrun & Hfin & Htrace & _).
  exists st', w'. split; [exact Hrun|]. split; [exact Hfin|exact Htrace].
Defined.

End WorkflowStatusExamples.

(** * Putting a workflow together *)

Section AssemblyFacts.
Context `{TaskApi} `{Abspath}.

Lemma try_set_workdir_tasks (w : Workflow) (wd : string) :
  _tasks (try_set_workdir w wd) = _tasks w.
Proof.
  unfold try_set_workdir, Workflow.set_workdir.
  destruct (workdir w) as [cur|]; [destruct (bool_decide (cur <> wd))|]; done.
Qed.

Lemma try_set_workdir_first (w : Workflow) (wd : string) :
  workdir w = None -> workdir (try_set_workdir w wd) = Some (abspath wd).
Proof.
  intros Hnone. unfold try_set_workdir, Workflow.set_workdir. now rewrite Hnone.
Qed.

Lemma set_manager_keeps_workdir (m : nat) (rs : list nat) :
  forall (h : gmap nat Task) (r : nat),
    t_workdir <$> foldl (fun h r => alter (set_manager m) r h) h rs !! r
    = t_workdir <$> h !! r.
Proof.
  induction rs as [|a rs IH]; intros h r; [done|].
  cbn [foldl]. rewrite IH. destruct (decide (r = a)) as [->|Hne].
  - rewrite lookup_alter_eq. now destruct (h !! a).
  - now rewrite lookup_alter_ne.
Qed.

Lemma assemble_well_assembled (c : gmap nat Task * Workflow) (a : Assembly) :
  (forall obj twd mgr, t_workdir (Task_new obj twd mgr) = twd) ->
  well_assembled c -> well_assembled (assemble c a).
Proof.
  intros Hnew (Hnd & Hlive & Habs & Hdir). destruct c as [h w]. cbn [fst snd] in *.
  destruct a as [wd|m|obj ds mgr]; cbn [assemble fst snd].
  - (* set_workdir *)
    unfold well_assembled. cbn [fst snd]. rewrite try_set_workdir_tasks.
    split; [done|]. split; [done|].
    destruct (workdir w) as [cur|] eqn:Hcur.
    + rewrite (try_set_workdir_fixed w cur wd Hcur (Habs cur eq_refl)).
      split; [done|]. exact Hdir.
    + rewrite (try_set_workdir_first w wd Hcur). split.
      * intros cur [= <-]. apply abspath_idem.
      * intros i r task Hi Hr. left.
        destruct (Hdir i r task Hi Hr) as [Hnone|(wd' & Hwd' & _)]; [done|].
        discriminate.
  - (* set_manager *)
    unfold Construction.set_manager, well_assembled. cbn [fst snd _tasks workdir
      Construction.with_manager].
    split; [done|]. split; [|split; [done|]].
    + intros r Hr. destruct (Hlive r Hr) as [task Htask].
      pose proof (set_manager_keeps_workdir m (_tasks w) h r) as Hk.
      rewrite Htask in Hk.
      destruct (foldl _ h (_tasks w) !! r) as [task'|]; [now eexists|done].
    + intros i r task' Hi Hr.
      pose proof (set_manager_keeps_workdir m (_tasks w) h r) as Hk.
      rewrite Hr in Hk. destruct (h !! r) as [task|] eqn:Htask; [|done].
      cbn in Hk. injection Hk as Hk. rewrite Hk. now apply (Hdir i r task).
  - (* register *)
    unfold Workflow.register, well_assembled. cbn [fst snd _tasks workdir
      Workflow.append_task].
    set (r0 := fresh (dom h)).
    assert (Hfresh : h !! r0 = None).
    { apply not_elem_of_dom. apply is_fresh. }
    assert (Hnew0 : r0 ∉ _tasks w).
    { intros Hin. destruct (Hlive r0 Hin) as [task Htask]. congruence. }
    split; [|split; [|split; [done|]]].
    + apply NoDup_app. split; [done|]. split; [|apply NoDup_singleton].
      intros x Hx ->%list_elem_of_singleton. done.
    + intros r [Hr| ->%list_elem_of_singleton]%elem_of_app.
      * rewrite lookup_insert_ne by (intros ->; done). now apply Hlive.
      * rewrite lookup_insert_eq. now eexists.
    + intros i r task [(Hi & Hr)|(-> & <-)]%lookup_snoc_Some Htask.
      * assert (Hne : r0 <> r).
        { intros <-. apply Hnew0. eapply list_elem_of_lookup_2. exact Hr. }
        rewrite lookup_insert_ne in Htask by done. now apply (Hdir i r task).
      * rewrite lookup_insert_eq in Htask. injection Htask as <-.
        assert (Hwd : forall t0 : Task,
                  t_workdir (match ds with
                             | Some ds0 => with_deps (t_deps t0 ++ ds0) t0
                             | None => t0
                             end) = t_workdir t0).
        { intros t0. now destruct ds. }
        rewrite Hwd, Hnew. destruct (workdir w) as [wd|]; [right|now left].
        exists wd. split; [done|]. reflexivity.
Qed.

Lemma assemble_all_well_assembled (calls : list Assembly) :
  (forall obj twd mgr, t_workdir (Task_new obj twd mgr) = twd) ->
  forall c, well_assembled c -> well_assembled (foldl assemble c calls).
Proof.
  intros Hnew. induction calls as [|a calls IH]; intros c Hc; [done|].
  cbn [foldl]. apply IH. now apply assemble_well_assembled.
Qed.

(** X14: a workflow that is put together from a new one by calls of
    [set_workdir], [set_manager] and [register], in any order, can be
    allocated once it has a working directory and a manager, provided the
    task class keeps the working directory it is constructed with:
    [allocate] returns, and every task is then in the directory of its
    index and has a manager. *)
Theorem assembled_workflow_allocates :
  forall (nid : nat) (h0 : gmap nat Task) (calls : list Assembly)
         (wd : string) (m : nat),
    (forall obj twd mgr, t_workdir (Task_new obj twd mgr) = twd) ->
    workdir (foldl assemble (h0, Workflow.init nid) calls).2 = Some wd ->
    manager (foldl assemble (h0, Workflow.init nid) calls).2 = Some m ->
    exists h',
      Workflow.allocate (foldl assemble (h0, Workflow.init nid) calls).2
                        (foldl assemble (h0, Workflow.init nid) calls).1
      = (h', Ret ())
      /\ forall i r,
           _tasks (foldl assemble (h0, Workflow.init nid) calls).2 !! i = Some r ->
           exists task, h' !! r = Some task
                        /\ t_workdir task = Some (canonical wd i)
                        /\ is_Some (t_manager task).
Proof.
  intros nid h0 calls wd m Hnew.
  assert (Hinv : well_assembled (foldl assemble (h0, Workflow.init nid) calls)).
  { apply assemble_all_well_assembled; [done|].
    split; [apply NoDup_nil_2|]. split; [intros r Hr; now apply not_elem_of_nil in Hr|].
    split; [done|]. intros i r task Hi. done. }
  destruct (foldl assemble (h0, Workflow.init nid) calls) as [h w].
  destruct Hinv as (Hnd & Hlive & _ & Hdir). cbn [fst snd] in *.
  intros Hwd Hm.
  destruct (allocate_from_places w wd m (_tasks w) Hwd Hm 0 h Hnd)
    as (h' & Hrun & Hplaced & _).
  { intros k r task Hk Hr. cbn [Nat.add].
    destruct (Hdir k r task Hk Hr) as [Hnone|(wd' & Hwd' & Htwd)]; [now left|].
    right. congruence. }
  exists h'. split; [done|]. intros i r Hi.
  destruct (Hlive r) as [task Htask]; [eapply list_elem_of_lookup_2; exact Hi|].
  exists (placed wd m i task). split; [now apply (Hplaced i r task)|].
  split; [done|]. now eexists.
Qed.

End AssemblyFacts.

Section AssemblyExamples.

Example late_workdir_tasks :
  let c := foldl (@assemble Samples.api root_abspath) (∅, Workflow.init 10)
                 late_workdir in
  _tasks c.2 = [0%nat; 1%nat]
  /\ t_workdir <$> c.1 !! 0%nat = Some None
  /\ t_workdir <$> c.1 !! 1%nat = Some (Some "/run/work_0/task_1").
Proof. vm_compute. auto. Qed.

Lemma assembled_workflow_allocates_witness :
  exists h',
    Workflow.allocate
      (foldl (@assemble Samples.api root_abspath) (∅, Workflow.init 10)
             late_workdir).2
      (foldl (@assemble Samples.api root_abspath) (∅, Workflow.init 10)
             late_workdir).1
    = (h', Ret ()).
Proof.
  destruct (@assembled_workflow_allocates Samples.api root_abspath 10 ∅
              late_workdir "/run/work_0" 0%nat (fun _ _ _ => eq_refl)
              ltac:(vm_compute; reflexivity) ltac:(vm_compute; reflexivity))
    as (h' & Hrun & _).
  now exists h'.
Defined.

End AssemblyExamples.

(** * Registration in a flow *)

Section RegistrationFacts.
Context `{Abspath}.

(** A new workflow with a working directory and a manager. *)
Lemma new_placed (nid : nat) (wd : string) (m : nat) (h : gmap nat Task) :
  exists work,
    Construction.new nid (Some wd) (Some m) h = (h, Ret work)
    /\ w_node_id work = nid /\ _tasks work = [] /\ w_deps work = []
    /\ workdir work = Some (abspath wd) /\ manager work = Some m.
Proof.
  unfold Construction.new, Workflow.set_workdir, Workflow.init.
  cbn. eexists. split; [reflexivity|]. cbn. auto.
Qed.

Lemma register_cbk_cases (nid cbk cbk_data : nat) (deps : list Dependency)
    (mgr : option nat) (flow : AbinitFlow) (h : gmap nat Task) :
  exists work,
    w_node_id work = nid /\ _tasks work = [] /\ w_deps work = deps
    /\ workdir work = Some (work_dir flow (length (_works flow)))
    /\ is_Some (manager work)
    /\ Flow.register_cbk nid cbk cbk_data deps mgr flow h
       = if bool_decide (deps = [])
         then (h, AbinitFlow.set_works (_works flow ++ [work]) flow,
               Raise ValueError)
         else (h,
               AbinitFlow.set_callbacks
                 (_callbacks flow
                  ++ [mkCallback cbk (length (_works flow)) deps cbk_data false])
                 (AbinitFlow.set_works (_works flow ++ [work]) flow),
               Ret work).
Proof.
  unfold Flow.register_cbk. cbv zeta.
  destruct (new_placed nid (Flow.work_workdir flow)
              (default (flow_manager flow) mgr) h)
    as (work & -> & Hid & Htasks & Hdeps & Hwd & Hm).
  destruct (bool_decide (deps = [])) eqn:Hempty.
  - apply bool_decide_eq_true_1 in Hempty. subst deps.
    exists work. rewrite Hm. split; [done|]. split; [done|]. split; [done|].
    split; [done|]. split; [now eexists|done].
  - exists (Workflow.add_deps deps work).
    cbn [w_node_id _tasks w_deps workdir manager Workflow.add_deps].
    rewrite Hdeps, Hm. split; [done|]. split; [done|]. split; [done|].
    split; [done|]. split; [now eexists|done].
Qed.

(** X15: [register_cbk] called without dependencies raises ValueError,
    but only after it has created the new workflow and appended it to the
    flow: the flow is left with one more workflow, which has no task and
    no callback, and the next registration gets the next index. *)
Theorem register_cbk_without_deps_leaves_workflow :
  forall (nid cbk cbk_data : nat) (mgr : option nat) (flow : AbinitFlow)
         (h : gmap nat Task),
    exists work flow',
      Flow.register_cbk nid cbk cbk_data [] mgr flow h
      = (h, flow', Raise ValueError)
      /\ _works flow' = _works flow ++ [work]
      /\ _callbacks flow' = _callbacks flow
      /\ _tasks work = []
      /\ workdir work = Some (work_dir flow (length (_works flow)))
      /\ Flow.work_workdir flow'
         = join (flow_workdir flow)
                ("work_" +:+ pretty (S (length (_works flow)))).
Proof.
  intros nid cbk cbk_data mgr flow h.
  destruct (register_cbk_cases nid cbk cbk_data [] mgr flow h)
    as (work & _ & Htasks & _ & Hwd & _ & Hrun).
  exists work, (AbinitFlow.set_works (_works flow ++ [work]) flow).
  split; [exact Hrun|]. split; [done|]. split; [done|]. split; [done|].
  split; [done|].
  unfold Flow.work_workdir. cbn [_works flow_workdir AbinitFlow.set_works].
  rewrite length_app. cbn [length]. now rewrite Nat.add_1_r.
Qed.

Lemma set_workdir_Ret (wd : string) (w w' : Workflow) :
  Workflow.set_workdir wd w = Ret w' ->
  workdir w' = Some (abspath wd) /\ _tasks w' = _tasks w
  /\ manager w' = manager w /\ w_deps w' = w_deps w.
Proof.
  unfold Workflow.set_workdir.
  destruct (workdir w) as [cur|]; [destruct (bool_decide (cur <> wd)); [done|]|];
    intros [= <-]; done.
Qed.

Lemma register_work_well_registered (work : Workflow)
    (ds : option (list Dependency)) (mgr : option nat) (flow : AbinitFlow)
    (h : gmap nat Task) :
  well_registered flow ->
  well_registered (Flow.register_work work ds mgr flow h).1.2
  /\ flow_workdir (Flow.register_work work ds mgr flow h).1.2 = flow_workdir flow.
Proof.
  intros [Hworks Hcbs]. unfold Flow.register_work. cbv zeta.
  destruct (Workflow.set_workdir (Flow.work_workdir flow) work) as [work1|e] eqn:Hset;
    [|done].
  apply set_workdir_Ret in Hset as (Hwd & _ & _ & _).
  unfold Construction.set_manager. cbn [fst snd]. split; [|done]. split.
  - intros i w [(Hi & Hw)|(-> & <-)]%lookup_snoc_Some.
    + now apply Hworks.
    + split.
      * now destruct ds as [[|d ds]|].
      * destruct ds as [[|d ds]|]; now eexists.
  - intros cb Hcb. destruct (Hcbs cb Hcb) as (Hd & Hen & w & Hw & Ht & Hwd').
    split; [done|]. split; [done|]. exists w. split; [|done].
    cbn [_works AbinitFlow.set_works]. rewrite lookup_app_l; [done|].
    now apply lookup_lt_Some in Hw.
Qed.

Lemma register_cbk_well_registered (nid cbk cbk_data : nat)
    (ds : list Dependency) (mgr : option nat) (flow : AbinitFlow)
    (h : gmap nat Task) :
  well_registered flow ->
  well_registered (Flow.register_cbk nid cbk cbk_data ds mgr flow h).1.2
  /\ flow_workdir (Flow.register_cbk nid cbk cbk_data ds mgr flow h).1.2
     = flow_workdir flow.
Proof.
  intros [Hworks Hcbs].
  destruct (register_cbk_cases nid cbk cbk_data ds mgr flow h)
    as (work & _ & Htasks & Hdeps & Hwd & Hm & ->).
  assert (Hnew : forall i w, (_works flow ++ [work]) !! i = Some w ->
            workdir w = Some (work_dir flow i) /\ is_Some (manager w)).
  { intros i w [(Hi & Hw)|(-> & <-)]%lookup_snoc_Some; [now apply Hworks|done]. }
  assert (Hold : forall cb, cb ∈ _callbacks flow ->
            deps cb <> [] /\ _disabled cb = false
            /\ exists w, (_works flow ++ [work]) !! Callback.work cb = Some w
                         /\ _tasks w = [] /\ w_deps w = deps cb).
  { intros cb Hcb. destruct (Hcbs cb Hcb) as (Hd & Hen & w & Hw & Ht & Hwd').
    split; [done|]. split; [done|]. exists w. split; [|done].
    rewrite lookup_app_l; [done|]. now apply lookup_lt_Some in Hw. }
  destruct (bool_decide (ds = [])) eqn:Hempty; cbn [fst snd]; (split; [|done]).
  - split; [exact Hnew|exact Hold].
  - apply bool_decide_eq_false_1 in Hempty. split; [exact Hnew|].
    cbn [_callbacks _works AbinitFlow.set_callbacks AbinitFlow.set_works].
    intros cb [Hcb| ->%list_elem_of_singleton]%elem_of_app; [now apply Hold|].
    cbn [deps _disabled Callback.work]. split; [done|]. split; [done|].
    exists work. split; [|done]. apply list_lookup_middle. done.
Qed.

Lemma enrol_well_registered (regs : list Registration) :
  forall c : gmap nat Task * AbinitFlow,
    well_registered c.2 ->
    well_registered (foldl enrol c regs).2
    /\ flow_workdir (foldl enrol c regs).2 = flow_workdir c.2.
Proof.
  induction regs as [|r regs IH]; intros c Hc; [done|].
  cbn [foldl]. destruct c as [h flow]. cbn [snd] in Hc.
  destruct r as [work ds mgr|nid cbk cbk_data ds mgr]; cbn [enrol fst snd].
  - destruct (register_work_well_registered work ds mgr flow h Hc) as [Hw Hd].
    destruct (IH _ Hw) as [Hw' Hd']. split; [done|]. now rewrite Hd'.
  - destruct (register_cbk_well_registered nid cbk cbk_data ds mgr flow h Hc)
      as [Hw Hd].
    destruct (IH _ Hw) as [Hw' Hd']. split; [done|]. now rewrite Hd'.
Qed.

(** X16: in a flow that is put together from a new one by calls of
    [register_work] and [register_cbk], whether they raise or not, every
    workflow sits in the directory of its index under the flow's
    directory and has a manager, and every callback is enabled, has at
    least one dependency, and belongs to a workflow of the flow that has
    these dependencies and no task. *)
Theorem registrations_keep_flow_layout :
  forall (wd : string) (m : nat) (h0 : gmap nat Task) (regs : list Registration),
    (forall i w, _works (foldl enrol (h0, Flow.new wd m) regs).2 !! i = Some w ->
       workdir w = Some (abspath (join (abspath wd) ("work_" +:+ pretty i)))
       /\ is_Some (manager w))
    /\ (forall cb, cb ∈ _callbacks (foldl enrol (h0, Flow.new wd m) regs).2 ->
          deps cb <> [] /\ _disabled cb = false
          /\ exists w,
               _works (foldl enrol (h0, Flow.new wd m) regs).2 !! Callback.work cb
               = Some w
               /\ _tasks w = [] /\ w_deps w = deps cb).
Proof.
  intros wd m h0 regs.
  destruct (enrol_well_registered regs (h0, Flow.new wd m)) as [[Hworks Hcbs] Hdir].
  { split; [intros i w Hi; done|]. intros cb Hcb. now apply not_elem_of_nil in Hcb. }
  split; [|exact Hcbs]. intros i w Hi. destruct (Hworks i w Hi) as [Hwd Hm].
  split; [|done]. rewrite Hwd. unfold work_dir. now rewrite Hdir.
Qed.

(** X17: a callback that [register_cbk] has registered is run by the
    first S_OK signal of any of the nodes it depends on, whatever the
    state of the other nodes then: when [on_dep_ok] returns, the
    callback's function has been called for the new workflow, and the
    callback is disabled. *)
Theorem registered_callback_fires :
  forall `{UserFuncs} `{Pickler AbinitFlow}
         (nid cbk cbk_data : nat) (ds : list Dependency) (mgr : option nat)
         (flow flow1 flow2 : AbinitFlow) (h h1 : gmap nat Task) (work : Workflow)
         (sender : nat) (st st' : World),
    Flow.register_cbk nid cbk cbk_data ds mgr flow h = (h1, flow1, Ret work) ->
    sender ∈ map dep_node ds ->
    AbinitFlow.on_dep_ok S_OK sender flow1 st = (flow2, st', Ret ()) ->
    _works flow1 !! length (_works flow) = Some work
    /\ Invoked cbk (length (_works flow)) ∈ trace st'
    /\ last (_callbacks flow2)
       = Some (mkCallback cbk (length (_works flow)) ds cbk_data true).
Proof.
  intros Hf Hp nid cbk cbk_data ds mgr flow flow1 flow2 h h1 work sender st st'
    Hreg Hsender Hrun.
  destruct (register_cbk_cases nid cbk cbk_data ds mgr flow h)
    as (work0 & _ & _ & _ & _ & _ & Hcase).
  rewrite Hcase in Hreg. destruct (bool_decide (ds = [])); [done|].
  injection Hreg as <- <- <-.
  set (cb := mkCallback cbk (length (_works flow)) ds cbk_data false) in *.
  assert (Hfires : fires sender cb = true).
  { unfold fires, handle_sender. cbn [deps _disabled negb].
    now rewrite bool_decide_eq_true_2. }
  apply on_dep_ok_from_returns in Hrun as [Hc Ht].
  cbn [_callbacks _works AbinitFlow.set_callbacks AbinitFlow.set_works app] in *.
  split; [now apply list_lookup_middle|]. split.
  - rewrite Ht. apply elem_of_app. right.
    apply list_elem_of_fmap. exists cb. split; [done|].
    apply list_elem_of_filter. split; [done|].
    apply elem_of_app. right. apply list_elem_of_here.
  - rewrite Hc, map_app. cbn [map]. rewrite last_snoc.
    unfold after_signal. now rewrite Hfires.
Qed.

End RegistrationFacts.

Section RegistrationExamples.

Example register_then_signal :
  let reg := @Flow.register_cbk root_abspath 20 7 0
               [mkDependency 1 ["WFK"]; mkDependency 2 ["DEN"]] None
               snapshot_flow pending_heap in
  let res := @AbinitFlow.on_dep_ok Samples.funcs Samples.flow_pickler S_OK 1%nat
               reg.1.2 (Samples.world pending_heap) in
  (workdir <$> _works reg.1.2) = [Some "/run/work_0"]
  /\ res.2 = Ret ()
  /\ trace res.1.2 = [Invoked 7 0]
  /\ node_status pending_heap 2 = S_INIT.
Proof. vm_compute. auto. Qed.

Lemma registered_callback_fires_witness :
  let reg := @Flow.register_cbk root_abspath 20 7 0
               [mkDependency 1 ["WFK"]; mkDependency 2 ["DEN"]] None
               snapshot_flow pending_heap in
  let res := @AbinitFlow.on_dep_ok Samples.funcs Samples.flow_pickler S_OK 1%nat
               reg.1.2 (Samples.world pending_heap) in
  Invoked 7 0 ∈ trace res.1.2.
Proof.
  intros reg res.
  set (work := match reg.2 with Ret w => w | Raise _ => Workflow.init 0 end).
  apply (proj1 (proj2
    (@registered_callback_fires root_abspath Samples.funcs Samples.flow_pickler
       20%nat 7%nat 0%nat [mkDependency 1 ["WFK"]; mkDependency 2 ["DEN"]] None
       snapshot_flow reg.1.2 res.1.1 pending_heap reg.1.1 work 1%nat
       (Samples.world pending_heap) res.1.2
       ltac:(vm_compute; reflexivity)
       ltac:(apply list_elem_of_here)
       ltac:(vm_compute; reflexivity)))).
Defined.

End RegistrationExamples.

(** * Progress *)

Section Progress.
Context `{TaskApi}.

Lemma items_elem (h : gmap nat Task) (w : Workflow) (r : nat) (t : Task) :
  (r, t) ∈ Workflow.items h w <-> r ∈ _tasks w /\ h !! r = Some t.
Proof.
  unfold Workflow.items. rewrite list_elem_of_omap. split.
  - intros (x & Hx & Hf). destruct (h !! x) as [t'|] eqn:Hl; [|done].
    cbn in Hf. injection Hf as <- <-. done.
  - intros [Hr Hl]. exists r. split; [done|]. now rewrite Hl.
Qed.

Lemma promote_all_keeps_deps_all_ok (l : list nat) (h : gmap nat Task)
    (task : Task) :
  deps_all_ok (foldl Workflow.promote h l) task = deps_all_ok h task.
Proof.
  unfold deps_all_ok, deps_status. f_equal. rewrite !map_map.
  apply map_ext. intros d. apply promote_all_keeps_ok.
Qed.

(** X18: no deadlock without a cause.  In a workflow whose dependencies
    lead to earlier tasks of the workflow, and where, once the per-task
    checks are done, every task is at S_OK or at S_SUB or below,
    [fetch_task_to_run] called after [check_status] raises StopIteration
    or returns a task of the workflow that is at S_READY: it does not
    return [None]. *)
Theorem fetch_after_check_status_finds_a_task :
  forall (w : Workflow) (h : gmap nat Task) (st : World),
    heap st = Workflow.check_status w h ->
    (forall r, r ∈ _tasks w -> is_Some (after_checks w h !! r)) ->
    backward_deps (after_checks w h) w ->
    none_in_flight (after_checks w h) w ->
    Workflow.fetch_task_to_run w st = (st, Raise StopIteration)
    \/ exists r,
         Workflow.fetch_task_to_run w st = (st, Ret (Some r))
         /\ r ∈ _tasks w /\ node_status (heap st) r = S_READY.
Proof.
  intros w h st Hheap Hlive Hback Hflight.
  set (h1 := after_checks w h) in *.
  pose proof (fetch_task_to_run_with_cases is_completed can_run w st) as Hcases.
  cbv zeta in Hcases. fold Workflow.fetch_task_to_run in Hcases.
  destruct Hcases
    as [(_ & Hout)|[(_ & i & r & t & Hi & Hrun & _ & Hout)|(Hnot & Hnone & _)]].
  - now left.
  - right. exists r. split; [done|].
    apply list_elem_of_lookup_2, items_elem in Hi as [Hr Ht].
    split; [done|]. unfold node_status. rewrite Ht. cbn.
    apply can_run_true in Hrun as [Hready _]. done.
  - exfalso.
    (* some task is not at S_OK once the checks are done *)
    assert (Hsome : exists r, r ∈ _tasks w /\ eqb (node_status h1 r) S_OK = false).
    { destruct (decide (Forall (fun r => eqb (node_status h1 r) S_OK = true)
                               (_tasks w))) as [Hall|Hnall].
      - exfalso. apply Hnot. apply Forall_forall. intros [r t] Hrt.
        apply items_elem in Hrt as [Hr Ht]. cbn [snd].
        rewrite Forall_forall in Hall. specialize (Hall r Hr).
        rewrite Hheap in Ht.
        assert (Hok : eqb (node_status (Workflow.check_status w h) r) S_OK = true).
        { unfold Workflow.check_status. rewrite promote_all_keeps_ok. exact Hall. }
        unfold node_status in Hok. rewrite Ht in Hok. cbn in Hok.
        apply eqb_eq in Hok. unfold is_completed. now rewrite Hok.
      - apply not_Forall_Exists in Hnall; [|intros r; apply _].
        apply Exists_exists in Hnall as (r & Hr & Hnok).
        exists r. split; [done|]. now apply not_true_is_false. }
    (* the first such task *)
    destruct (list_find (fun r => eqb (node_status h1 r) S_OK = false) (_tasks w))
      as [[i0 r0]|] eqn:Hfind.
    2: { apply list_find_None in Hfind. destruct Hsome as (r & Hr & Hnok).
         rewrite Forall_forall in Hfind. now apply (Hfind r Hr). }
    apply list_find_Some in Hfind as (Hi0 & Hnok & Hfirst).
    assert (Hr0 : r0 ∈ _tasks w) by (eapply list_elem_of_lookup_2; exact Hi0).
    destruct (Hlive r0 Hr0) as [task0 Htask0].
    assert (Hst : t_status task0 <> S_OK).
    { intros Hok. unfold node_status in Hnok. rewrite Htask0 in Hnok. cbn in Hnok.
      rewrite Hok in Hnok. done. }
    assert (Hle : rank (t_status task0) <= rank S_SUB).
    { destruct (Hflight r0 task0 Hr0 Htask0); done. }
    assert (Hdeps : Forall (fun d => node_status h1 (dep_node d) = S_OK)
                           (t_deps task0)).
    { apply Forall_forall. intros d Hd.
      destruct (Hback i0 r0 task0 d Hi0 Htask0 Hd) as (j & Hj & Hjr).
      specialize (Hfirst j (dep_node d) Hjr Hj).
      apply eqb_eq. now apply not_false_is_true. }
    assert (Hel : eligible h1 r0 = true).
    { apply eligible_true. now exists task0. }
    assert (Hnew : heap st !! r0 = Some (with_status S_READY task0)).
    { rewrite Hheap, check_status_lookup. fold h1.
      rewrite Hel, bool_decide_eq_true_2 by done. cbn [andb]. now rewrite Htask0. }
    rewrite Forall_forall in Hnone.
    apply (Hnone (r0, with_status S_READY task0)); [now apply items_elem|].
    cbn [snd]. unfold can_run. cbn [t_status with_status].
    rewrite Hheap. unfold Workflow.check_status.
    rewrite promote_all_keeps_deps_all_ok.
    change (deps_all_ok (foldl (fun h r => Task_check_status r h) h (_tasks w))
                        (with_status S_READY task0))
      with (deps_all_ok h1 task0).
    now apply deps_all_ok_true in Hdeps as ->.
Qed.

End Progress.

Section ProgressExamples.

Example fetch_after_check_status_chain :
  let st := Samples.world (@Workflow.check_status Samples.api chain_work chain_heap) in
  (Workflow.fetch_task_to_run chain_work st).2 = Ret (Some 2%nat).
Proof. vm_compute. reflexivity. Qed.

Lemma fetch_after_check_status_finds_a_task_witness :
  let st := Samples.world (@Workflow.check_status Samples.api chain_work chain_heap) in
  Workflow.fetch_task_to_run chain_work st = (st, Raise StopIteration)
  \/ exists r,
       Workflow.fetch_task_to_run chain_work st = (st, Ret (Some r))
       /\ r ∈ _tasks chain_work /\ node_status (heap st) r = S_READY.
Proof.
  intros st.
  apply (@fetch_after_check_status_finds_a_task Samples.api chain_work chain_heap
           st eq_refl).
  - intros r Hr. cbn in Hr.
    repeat (apply elem_of_cons in Hr as [->|Hr]);
      [vm_compute; eauto..|now apply not_elem_of_nil in Hr].
  - intros i r task d Hi Hr Hd.
    destruct i as [|[|[|[|i]]]]; cbn in Hi; try discriminate;
      injection Hi as <-; vm_compute in Hr; injection Hr as <-; cbn in Hd.
    + now apply not_elem_of_nil in Hd.
    + apply list_elem_of_singleton in Hd as ->. exists 0%nat. split; [lia|done].
    + apply list_elem_of_singleton in Hd as ->. exists 1%nat. split; [lia|done].
    + now apply not_elem_of_nil in Hd.
  - intros r task Hr Htask. cbn in Hr.
    repeat (apply elem_of_cons in Hr as [->|Hr]);
      [vm_compute in Htask; injection Htask as <-; cbn..
      |now apply not_elem_of_nil in Hr].
    + now left.
    + right. lia.
    + right. lia.
    + right. lia.
Defined.

End ProgressExamples.

(** * The workflow classes with a fixed set of tasks *)

Section ClassesFacts.
Context `{TaskApi} `{Abspath}.

Lemma new_returns (nid : nat) (wd : option string) (m : option nat)
    (h : gmap nat Task) :
  exists w, Construction.new nid wd m h = (h, Ret w) /\ _tasks w = [].
Proof.
  unfold Construction.new, Workflow.set_workdir, Workflow.init,
    Construction.set_manager.
  destruct wd as [wd|], m as [m|]; cbn; eexists; (split; [reflexivity|done]).
Qed.

Lemma register_well_linked (obj : nat) (ds : option (list Dependency))
    (mgr : option nat) (w : Workflow) (h : gmap nat Task) :
  (forall obj twd mgr, t_deps (Task_new obj twd mgr) = []) ->
  well_linked h w ->
  (forall d, d ∈ default [] ds -> dep_node d ∈ _tasks w) ->
  exists h' w' r,
    Workflow.register obj ds mgr w h = (h', w', r)
    /\ well_linked h' w' /\ _tasks w' = _tasks w ++ [r].
Proof.
  intros Hnew (Hnd & Hlive & Hback) Hds. unfold Workflow.register. cbv zeta.
  set (r0 := fresh (dom h)).
  assert (Hfresh : h !! r0 = None).
  { apply not_elem_of_dom. apply is_fresh. }
  assert (Hnew0 : r0 ∉ _tasks w).
  { intros Hin. destruct (Hlive r0 Hin) as [task Htask]. congruence. }
  eexists _, _, _. split; [reflexivity|]. split; [|done].
  cbn [_tasks Workflow.append_task]. split; [|split].
  - apply NoDup_app. split; [done|]. split; [|apply NoDup_singleton].
    intros x Hx ->%list_elem_of_singleton. done.
  - intros r [Hr| ->%list_elem_of_singleton]%elem_of_app.
    + rewrite lookup_insert_ne by (intros ->; done). now apply Hlive.
    + rewrite lookup_insert_eq. now eexists.
  - unfold backward_deps. cbn [_tasks Workflow.append_task].
    intros i r task d [(Hi & Hr)|(-> & <-)]%lookup_snoc_Some Htask Hd.
    + assert (Hne : r0 <> r).
      { intros <-. apply Hnew0. eapply list_elem_of_lookup_2. exact Hr. }
      rewrite lookup_insert_ne in Htask by done.
      destruct (Hback i r task d Hr Htask Hd) as (j & Hj & Hjr).
      exists j. split; [done|]. rewrite lookup_app_l; [done|lia].
    + rewrite lookup_insert_eq in Htask. injection Htask as <-.
      assert (Hd' : d ∈ default [] ds).
      { destruct ds as [ds|]; cbn [with_deps t_deps default] in *.
        - now rewrite Hnew in Hd.
        - now rewrite Hnew in Hd. }
      apply Hds, list_elem_of_lookup_1 in Hd' as [j Hj].
      exists j. split; [now apply lookup_lt_Some in Hj|].
      rewrite lookup_app_l; [done|]. now apply lookup_lt_Some in Hj.
Qed.

Lemma well_linked_new (h : gmap nat Task) (w : Workflow) :
  _tasks w = [] -> well_linked h w.
Proof.
  intros Hnil. unfold well_linked, backward_deps. rewrite Hnil.
  split; [apply NoDup_nil_2|]. split.
  - intros r Hr. now apply not_elem_of_nil in Hr.
  - intros i r task d Hi. done.
Qed.

(** X19: [BandStructureWorkflow], [GW_Workflow] and [BSEMDF_Workflow]
    always construct their workflow, with two or three, four and three
    tasks; the tasks are distinct, and every dependency leads to an
    earlier task of the same workflow, whatever the order of the two
    dependencies of the self-energy run, provided the task class sets no
    dependencies of its own. *)
Theorem workflow_classes_are_well_linked :
  forall (nid scf nscf third fourth : nat) (dos : option nat) (swap : bool)
         (wd : option string) (m : option nat) (h : gmap nat Task),
    (forall obj twd mgr, t_deps (Task_new obj twd mgr) = []) ->
    (exists h' w,
       Classes.BandStructureWorkflow nid scf nscf dos wd m h = (h', Ret w)
       /\ length (_tasks w) = match dos with Some _ => 3%nat | None => 2%nat end
       /\ well_linked h' w)
    /\ (exists h' w,
          Classes.GW_Workflow swap nid scf nscf third fourth wd m h = (h', Ret w)
          /\ length (_tasks w) = 4%nat /\ well_linked h' w)
    /\ (exists h' w,
          Classes.BSEMDF_Workflow nid scf nscf third wd m h = (h', Ret w)
          /\ length (_tasks w) = 3%nat /\ well_linked h' w).
Proof.
  intros nid scf nscf third fourth dos swap wd m h Hnew.
  destruct (new_returns nid wd m h) as (w0 & Hw0 & Ht0).
  pose proof (well_linked_new h w0 Ht0) as Hl0.
  destruct (register_well_linked scf None None w0 h Hnew Hl0)
    as (h1 & w1 & r1 & H1 & Hl1 & Ht1).
  { intros d Hd. now apply not_elem_of_nil in Hd. }
  rewrite Ht0 in Ht1. cbn [app] in Ht1.
  destruct (register_well_linked nscf (Some [mkDependency r1 ["DEN"]]) None
              w1 h1 Hnew Hl1) as (h2 & w2 & r2 & H2 & Hl2 & Ht2).
  { intros d ->%list_elem_of_singleton. rewrite Ht1. apply list_elem_of_here. }
  rewrite Ht1 in Ht2. cbn [app] in Ht2.
  split; [|split].
  - unfold Classes.BandStructureWorkflow. rewrite Hw0, H1, H2.
    destruct dos as [dos|].
    + destruct (register_well_linked dos (Some [mkDependency r1 ["DEN"]]) None
                  w2 h2 Hnew Hl2) as (h3 & w3 & r3 & H3 & Hl3 & Ht3).
      { intros d ->%list_elem_of_singleton. rewrite Ht2. apply list_elem_of_here. }
      rewrite H3. exists h3, w3. split; [done|]. split; [|done].
      now rewrite Ht3, Ht2.
    + exists h2, w2. split; [done|]. split; [|done]. now rewrite Ht2.
  - unfold Classes.GW_Workflow. rewrite Hw0, H1, H2.
    destruct (register_well_linked third (Some [mkDependency r2 ["WFK"]]) None
                w2 h2 Hnew Hl2) as (h3 & w3 & r3 & H3 & Hl3 & Ht3).
    { intros d ->%list_elem_of_singleton. rewrite Ht2.
      apply list_elem_of_further, list_elem_of_here. }
    rewrite Ht2 in Ht3. cbn [app] in Ht3. rewrite H3. cbv zeta.
    destruct (register_well_linked fourth
                (Some (if swap
                       then [mkDependency r3 ["SCR"]; mkDependency r2 ["WFK"]]
                       else [mkDependency r2 ["WFK"]; mkDependency r3 ["SCR"]]))
                None w3 h3 Hnew Hl3) as (h4 & w4 & r4 & H4 & Hl4 & Ht4).
    { intros d Hd. rewrite Ht3. cbn [default] in Hd.
      destruct swap;
        apply elem_of_cons in Hd as [->|Hd];
        try apply list_elem_of_singleton in Hd as ->; cbn [dep_node];
        repeat first [apply list_elem_of_here|apply list_elem_of_further]. }
    rewrite H4. exists h4, w4. split; [done|]. split; [|done].
    now rewrite Ht4, Ht3.
  - unfold Classes.BSEMDF_Workflow. rewrite Hw0, H1, H2.
    destruct (register_well_linked third (Some [mkDependency r2 ["WFK"]]) None
                w2 h2 Hnew Hl2) as (h3 & w3 & r3 & H3 & Hl3 & Ht3).
    { intros d ->%list_elem_of_singleton. rewrite Ht2.
      apply list_elem_of_further, list_elem_of_here. }
    rewrite H3. exists h3, w3. split; [done|]. split; [|done].
    now rewrite Ht3, Ht2.
Qed.

End ClassesFacts.

Section ClassesExamples.

Example gw_workflow_dependencies :
  let res := @Classes.GW_Workflow Samples.api root_abspath false 10 1 2 3 4
               (Some "/run/work_0") (Some 0%nat) ∅ in
  (_tasks <$> match res.2 with Ret w => Some w | Raise _ => None end)
  = Some [0%nat; 1%nat; 2%nat; 3%nat]
  /\ (map dep_node ∘ t_deps <$> res.1 !! 3%nat) = Some [1%nat; 2%nat]
  /\ (t_workdir <$> res.1 !! 3%nat) = Some (Some "/run/work_0/task_3").
Proof. vm_compute. auto. Qed.

Lemma workflow_classes_are_well_linked_witness :
  exists h' w,
    @Classes.GW_Workflow Samples.api root_abspath false 10 1 2 3 4
      (Some "/run/work_0") (Some 0%nat) ∅ = (h', Ret w)
    /\ length (_tasks w) = 4%nat.
Proof.
  destruct (proj1 (proj2
              (@workflow_classes_are_well_linked Samples.api root_abspath
                 10%nat 1%nat 2%nat 3%nat 4%nat None false (Some "/run/work_0")
                 (Some 0%nat) ∅ (fun _ _ _ => eq_refl))))
    as (h' & w & Hrun & Hlen & _).
  exists h', w. split; [exact Hrun|exact Hlen].
Defined.

End ClassesExamples.

(** * The CPU counters together *)

Section Counters.

Lemma allocated_split (l : list Task) :
  sum (map t_tot_ncpus
         (filter (fun t => existsb (eqb (t_status t)) [S_SUB; S_RUN] = true) l))
  = sum (map t_tot_ncpus (filter (fun t => eqb (t_status t) S_SUB = true) l))
    + sum (map t_tot_ncpus (filter (fun t => eqb (t_status t) S_RUN = true) l)).
Proof.
  induction l as [|t l IH]; [done|].
  rewrite !filter_cons. revert IH.
  generalize (filter (fun t => existsb (eqb (t_status t)) [S_SUB; S_RUN] = true) l)
             (filter (fun t => eqb (t_status t) S_SUB = true) l)
             (filter (fun t => eqb (t_status t) S_RUN = true) l).
  intros la ls lr IH.
  destruct (t_status t) eqn:Hs; cbn [existsb eqb rank Z.eqb orb];
    repeat first [rewrite decide_True by done|rewrite decide_False by done];
    cbn [map]; rewrite ?sum_cons, IH; lia.
Qed.

(** X20: the CPUs a workflow has allocated are the ones it has reserved
    plus the ones it has in use, whatever the tasks are, and tasks at
    other statuses than S_SUB and S_RUN count for none of the three; for
    a flow, the allocated CPUs are the sum over its workflows of the
    reserved ones and the ones in use. *)
Theorem ncpus_allocated_is_reserved_plus_inuse :
  forall (h : gmap nat Task) (w : Workflow) (flow : AbinitFlow),
    Workflow.ncpus_allocated h w
    = Workflow.ncpus_reserved h w + Workflow.ncpus_inuse h w
    /\ (Forall (fun t => t_status t <> S_SUB /\ t_status t <> S_RUN)
               (tasks_of h w) ->
        Workflow.ncpus_allocated h w = 0 /\ Workflow.ncpus_reserved h w = 0
        /\ Workflow.ncpus_inuse h w = 0)
    /\ AbinitFlow.ncpus_allocated h flow
       = Ret (sum (map (Workflow.ncpus_reserved h) (_works flow))
              + sum (map (Workflow.ncpus_inuse h) (_works flow))).
Proof.
  intros h w flow.
  assert (Hsplit : forall w', Workflow.ncpus_allocated h w'
            = Workflow.ncpus_reserved h w' + Workflow.ncpus_inuse h w').
  { intros w'. rewrite ncpus_allocated_sum, ncpus_reserved_sum, ncpus_inuse_sum.
    apply allocated_split. }
  split; [apply Hsplit|]. split.
  - intros Hnone.
    assert (Hr : Workflow.ncpus_reserved h w = 0).
    { rewrite ncpus_reserved_sum.
      induction Hnone as [|t l [Hsub Hrun] _ IH]; [done|].
      rewrite filter_cons, decide_False; [exact IH|].
      intros Heq. now apply eqb_eq in Heq. }
    assert (Hi : Workflow.ncpus_inuse h w = 0).
    { rewrite ncpus_inuse_sum.
      induction Hnone as [|t l [Hsub Hrun] _ IH]; [done|].
      rewrite filter_cons, decide_False; [exact IH|].
      intros Heq. now apply eqb_eq in Heq. }
    rewrite Hsplit, Hr, Hi. done.
  - rewrite flow_ncpus_allocated_sum. f_equal.
    induction (_works flow) as [|w' ws IH]; [done|].
    cbn [map]. rewrite !sum_cons, IH, Hsplit. lia.
Qed.

End Counters.

(** * Allocation of a flow *)

Section FlowAllocation.

Lemma allocate_works_places (ws : list Workflow) :
  forall h : gmap nat Task,
    (forall k w, ws !! k = Some w -> allocatable h w) ->
    (forall k k' w w' r, k <> k' -> ws !! k = Some w -> ws !! k' = Some w' ->
       r ∈ _tasks w -> r ∉ _tasks w') ->
    exists h',
      Flow.allocate_works ws h = (h', Ret ())
      /\ (forall k w wd m i r task,
            ws !! k = Some w -> workdir w = Some wd -> manager w = Some m ->
            _tasks w !! i = Some r -> h !! r = Some task ->
            h' !! r = Some (placed wd m i task))
      /\ (forall r, (forall k w, ws !! k = Some w -> r ∉ _tasks w) ->
            h' !! r = h !! r).
Proof.
  induction ws as [|w ws IH]; intros h Hpre Hdisj.
  - exists h. split; [done|]. split; [intros k w wd m i r task Hk; done|done].
  - cbn [Flow.allocate_works].
    destruct (Hpre 0%nat w eq_refl) as ([wd Hwd] & [m Hm] & Hnd & Hdir).
    destruct (allocate_from_places w wd m (_tasks w) Hwd Hm 0 h Hnd)
      as (h1 & Hrun & Hplaced & Hother & _).
    { intros k r task Hk Hr. now apply (Hdir wd k r task). }
    unfold Workflow.allocate. rewrite Hrun.
    assert (Hkeep : forall k w' r, ws !! k = Some w' -> r ∈ _tasks w' ->
              h1 !! r = h !! r).
    { intros k w' r Hk Hr. apply Hother. intros Hin.
      apply (Hdisj 0%nat (S k) w w' r); try done. }
    destruct (IH h1) as (h' & Hrest & Hplaced' & Hother').
    { intros k w' Hk.
      destruct (Hpre (S k) w' Hk) as (Hwd' & Hm' & Hnd' & Hdir').
      split; [done|]. split; [done|]. split; [done|].
      intros wd' i r task Hw Hi Hr.
      rewrite (Hkeep k w' r Hk) in Hr by (eapply list_elem_of_lookup_2; exact Hi).
      now apply (Hdir' wd' i r task). }
    { intros k k' w1 w2 r Hne Hk Hk'. apply (Hdisj (S k) (S k') w1 w2 r); [lia|done..]. }
    exists h'. split; [done|]. split.
    + intros [|k] w' wd' m' i r task Hk Hw Hm' Hi Hr.
      * injection Hk as <-. rewrite Hwd in Hw. rewrite Hm in Hm'.
        injection Hw as <-. injection Hm' as <-.
        rewrite Hother'.
        -- now apply Hplaced.
        -- intros k w' Hk Hin.
           apply (Hdisj 0%nat (S k) w w' r); try done.
           eapply list_elem_of_lookup_2; exact Hi.
      * cbn in Hk. apply (Hplaced' k w'); try done.
        rewrite (Hkeep k w' r Hk); [done|].
        eapply list_elem_of_lookup_2; exact Hi.
    + intros r Hr. rewrite Hother'.
      * apply Hother. exact (Hr 0%nat w eq_refl).
      * intros k w' Hk. exact (Hr (S k) w' Hk).
Qed.

(** X21: [AbinitFlow.allocate] succeeds on a flow whose workflows each
    have a working directory, a manager and distinct tasks that are in no
    other directory than the one of their index, when no task belongs to
    two workflows: every task of every workflow ends in the directory of
    its index under its workflow, with a manager, and nothing else
    changes. *)
Theorem flow_allocate_places_every_task :
  forall (flow : AbinitFlow) (h : gmap nat Task),
    (forall k w, _works flow !! k = Some w -> allocatable h w) ->
    (forall k k' w w' r, k <> k' ->
       _works flow !! k = Some w -> _works flow !! k' = Some w' ->
       r ∈ _tasks w -> r ∉ _tasks w') ->
    exists h',
      Flow.allocate flow h = (h', Ret ())
      /\ (forall k w wd m i r task,
            _works flow !! k = Some w -> workdir w = Some wd ->
            manager w = Some m -> _tasks w !! i = Some r -> h !! r = Some task ->
            h' !! r = Some (placed wd m i task))
      /\ (forall r, (forall k w, _works flow !! k = Some w -> r ∉ _tasks w) ->
            h' !! r = h !! r).
Proof.
  intros flow h Hpre Hdisj. unfold Flow.allocate.
  now apply allocate_works_places.
Qed.

End FlowAllocation.

Section FlowAllocationExamples.

Lemma flow_allocate_places_every_task_witness :
  exists h',
    Flow.allocate filled_flow filled_heap = (h', Ret ())
    /\ h' !! 3%nat
       = Some (mkTask 3 S_INIT [] 1 (Some "/run/work_1/task_0") (Some 0%nat)).
Proof.
  destruct (flow_allocate_places_every_task filled_flow filled_heap)
    as (h' & Hrun & Hplaced & _).
  - intros [|[|k]] w Hk; cbn in Hk; try discriminate; injection Hk as <-.
    + split; [now eexists|]. split; [now eexists|]. split.
      * apply NoDup_cons. split.
        -- intros [Hne|Hnil%not_elem_of_nil]%elem_of_cons; [discriminate|done].
        -- apply NoDup_cons. split; [apply not_elem_of_nil|apply NoDup_nil_2].
      * intros wd i r task Hw Hi Hr. cbn in Hw. injection Hw as <-.
        destruct i as [|[|i]]; cbn in Hi; try discriminate;
          injection Hi as <-; vm_compute in Hr; injection Hr as <-;
          [now left|now right].
    + split; [now eexists|]. split; [now eexists|]. split.
      * apply NoDup_cons. split; [apply not_elem_of_nil|apply NoDup_nil_2].
      * intros wd i r task Hw Hi Hr. cbn in Hw. injection Hw as <-.
        destruct i as [|i]; cbn in Hi; try discriminate.
        injection Hi as <-. vm_compute in Hr. injection Hr as <-. now left.
  - intros [|[|k]] [|[|k']] w w' r Hne Hk Hk' Hr Hr'; cbn in Hk, Hk';
      try discriminate; try done;
      injection Hk as <-; injection Hk' as <-; cbn in Hr, Hr';
      repeat (apply elem_of_cons in Hr as [->|Hr]);
      try (now apply not_elem_of_nil in Hr);
      repeat (apply elem_of_cons in Hr' as [Hr'|Hr']);
      try discriminate; now apply not_elem_of_nil in Hr'.
  - exists h'. split; [exact Hrun|].
    rewrite (Hplaced 1%nat second_work "/run/work_1" 0%nat 0%nat 3%nat
               (mkTask 3 S_INIT [] 1 None None) eq_refl eq_refl eq_refl eq_refl
               ltac:(vm_compute; reflexivity)).
    vm_compute. reflexivity.
Defined.

End FlowAllocationExamples.

(** * Unbound names *)

Section UnboundNames.
Import Scope.

Lemma WorkFlowResults_unbound :
  resolve Unbound.method_locals "WorkFlowResults" = Raise NameError.
Proof. vm_compute. reflexivity. Qed.

Lemma super_bound (locals : list (string * PyObj)) :
  assoc locals "super" = None -> resolve locals "super" = Ret ObjOpaque.
Proof. unfold resolve. intros ->. vm_compute. reflexivity. Qed.

(** X22: no workflow gives results, and two workflow classes cannot be
    instantiated.  [get_results] of the base class raises NameError
    whatever the tasks are, and so do the [get_results] of
    [PseudoConvergence] and [PseudoIterativeConvergence], which call it
    first; the constructors of [RelaxationWorkflow] and
    [DeltaTestWorkflow] raise NameError before they create anything. *)
Theorem get_results_and_two_constructors_raise_NameError :
  forall `{TaskApi} `{Abspath} {R : Type} (call : result R)
         (rest : R -> result R)
         (rest_init : Workflow -> gmap nat Task
                      -> gmap nat Task * result Workflow)
         (nid relax_input : nat) (wd : option string) (m : option nat)
         (h : gmap nat Task),
    Unbound.get_results call = Raise NameError
    /\ Unbound.PseudoConvergence_get_results call rest = Raise NameError
    /\ Unbound.PseudoIterativeConvergence_get_results call rest = Raise NameError
    /\ Unbound.RelaxationWorkflow nid relax_input wd m h = (h, Raise NameError)
    /\ Unbound.DeltaTestWorkflow rest_init nid wd m h = (h, Raise NameError).
Proof.
  intros Hapi Habs R call rest rest_init nid relax_input wd m h.
  assert (Hget : Unbound.get_results call = Raise NameError).
  { unfold Unbound.get_results. now rewrite WorkFlowResults_unbound. }
  split; [exact Hget|]. split; [|split; [|split]].
  - unfold Unbound.PseudoConvergence_get_results.
    rewrite super_bound by reflexivity. cbn [mbind result_bind].
    assert (Hc : resolve Unbound.method_locals "PseudoConvergence" = Ret ObjOpaque)
      by (vm_compute; reflexivity).
    rewrite Hc. cbn [mbind result_bind]. now rewrite Hget.
  - unfold Unbound.PseudoIterativeConvergence_get_results.
    rewrite super_bound by reflexivity. cbn [mbind result_bind].
    assert (Hc : resolve Unbound.method_locals "PseudoIterativeConvergence"
                 = Ret ObjOpaque) by (vm_compute; reflexivity).
    rewrite Hc. cbn [mbind result_bind]. now rewrite Hget.
  - unfold Unbound.RelaxationWorkflow. cbv zeta.
    rewrite super_bound by reflexivity. cbn [mbind result_bind].
    assert (Hr : resolve [("self", ObjOpaque); ("relax_input", ObjOpaque);
                          ("workdir", ObjOpaque); ("manager", ObjOpaque)]
                   "Relaxation" = Raise NameError) by (vm_compute; reflexivity).
    now rewrite Hr.
  - unfold Unbound.DeltaTestWorkflow. cbv zeta.
    rewrite super_bound by reflexivity. cbn [mbind result_bind].
    match goal with
    | |- context [resolve ?l "DeltaTest"] =>
        assert (Hr : resolve l "DeltaTest" = Raise NameError)
          by (vm_compute; reflexivity);
        rewrite Hr
    end.
    done.
Qed.

End UnboundNames.

(** * The guard of [PseudoIterativeConvergence] *)

Section PawGuard.
Context `{Abspath}.

(** X23: the constructor of [PseudoIterativeConvergence] never raises
    its "PAW convergence tests are not supported yet": when it tests
    [isnc] the workflow has no task, and [isnc] of a workflow without
    tasks is true whatever the pseudopotential is.  The constructor
    raises what the statements before the call of the base constructor
    raise, and else returns a workflow without tasks at iteration 0. *)
Theorem paw_guard_never_fires :
  forall (task_isnc : Task -> bool) (setup : result unit) (nid : nat)
         (gen : Generator) (limit : Z) (wd : option string)
         (m : option nat) (h : gmap nat Task),
    (forall e, setup = Raise e ->
       Pseudo.PseudoIterativeConvergence task_isnc setup nid gen limit wd m h
       = (h, Raise e))
    /\ (setup = Ret () ->
        exists iw,
          Pseudo.PseudoIterativeConvergence task_isnc setup nid gen limit wd m h
          = (h, Ret iw)
          /\ _tasks (base iw) = [] /\ niter iw = 0
          /\ strategy_generator iw = gen
          /\ max_niter iw = limit).
Proof.
  intros task_isnc setup nid gen limit wd m h. split.
  - intros e ->. done.
  - intros ->. unfold Pseudo.PseudoIterativeConvergence.
    destruct (new_returns nid wd m h) as (w0 & -> & Ht0). cbv zeta.
    unfold Pseudo.isnc, tasks_of. cbn [base]. rewrite Ht0. cbn.
    eexists. split; [reflexivity|]. cbn. auto.
Qed.

End PawGuard.
